(** * EV infrastructure optimization: a shallow embedding of the planning core

    The development follows the Python sources:
    - [src/models/optimization.py]: [analyze_load_profile],
      [optimize_charging_schedule], [_heuristic_optimization], and steps 3
      to 5 of [run_optimization_pipeline] with the bars of
      [plot_load_comparison];
    - [src/models/clustering.py]: the candidate loop of [run_kmeans], and
      [run_dbscan];
    - [src/models.py]: class [StationClusterer] ([find_gaps],
      [recommend_locations]) and class [TimeSeriesForecaster]
      ([fit_predict], [_fallback_forecast]);
    - [src/features/engineering.py]: [add_station_density] and the hour
      features of [add_usage_features].

    Python floats are idealised as exact rationals ([Q]); the great-circle
    distance is computed over the reals.  Library routines that the sources
    call but do not contain (the LP solver, the k-means estimator and its
    silhouette scoring, DBSCAN, Prophet, the sort kernel of [sort_values])
    are parameters, with explicit contracts where a property needs one. *)

From Stdlib Require Import String List ZArith QArith Qminmax Qround.
From Stdlib Require Import Reals Psatz Lia Bool Permutation Sorted.
Import ListNotations.

Open Scope Q_scope.

(* ================================================================== *)
(** * Part I: the embedding                                            *)
(* ================================================================== *)

(** ** Python values and exceptions *)

Module Py.

Inductive exn : Type :=
| KeyError (key : string)
| ValueError (msg : string)
| ZeroDivisionError.

Inductive result (A : Type) : Type :=
| Ok (a : A)
| Raise (e : exn).

Arguments Ok {A} a.
Arguments Raise {A} e.

Definition bind {A B} (r : result A) (k : A -> result B) : result B :=
  match r with
  | Ok a => k a
  | Raise e => Raise e
  end.

Notation "x <- r ;; k" := (bind r (fun x => k))
  (at level 61, r at next level, right associativity).

(** Strict comparison on rationals, as a boolean. *)
Definition Qltb (x y : Q) : bool := negb (Qle_bool y x).

(** [sum(xs)]: left fold from 0. *)
Definition sum (xs : list Q) : Q := fold_left Qplus xs 0.

(** [max(xs)]: the first maximal element; [ValueError] on an empty list. *)
Fixpoint max_from (m : Q) (xs : list Q) : Q :=
  match xs with
  | [] => m
  | x :: rest => max_from (if Qltb m x then x else m) rest
  end.

Definition max (xs : list Q) : result Q :=
  match xs with
  | [] => Raise (ValueError "max() arg is an empty sequence")
  | x :: rest => Ok (max_from x rest)
  end.

(** [min(a, b)] on two arguments: [b] only when it is strictly smaller. *)
Definition min2 (a b : Q) : Q := if Qltb b a then b else a.

(** [np.mean(xs)]: the sum over the length. *)
Definition mean (xs : list Q) : Q := sum xs / inject_Z (Z.of_nat (length xs)).

(** [a / b] on Python floats: a zero divisor raises.  (Between NumPy
    scalars the quotient would be an infinity or NaN instead; every property
    below that goes through this division has a non-zero divisor.) *)
Definition div (a b : Q) : result Q :=
  if Qeq_bool b 0 then Raise ZeroDivisionError else Ok (a / b).

(** Rounding half to even to an integer, then [round(x, 2)]. *)
Definition round_half_even (x : Q) : Z :=
  let f := Qfloor x in
  let r := x - inject_Z f in
  if Qltb r (1 # 2) then f
  else if Qltb (1 # 2) r then (f + 1)%Z
  else if Z.even f then f else (f + 1)%Z.

Definition round2 (x : Q) : Q := inject_Z (round_half_even (x * 100)) / 100.

Definition round4 (x : Q) : Q :=
  inject_Z (round_half_even (x * 10000)) / 10000.

(** [int(x)]: truncation toward zero. *)
Definition int (x : Q) : Z := Z.quot (Qnum x) (Zpos (Qden x)).

End Py.

Import Py.

(** ** Tables: the part of pandas the sources use

    A [DataFrame] is a list of column names and a list of rows; a row
    carries its index label and one numeric cell per column.  Cells are
    numbers: missing values (NaN) are outside the model, so [dropna] keeps
    every row and grouping drops none. *)

Module Pandas.

Definition Row : Type := (Z * list Q)%type.

Record DataFrame : Type := mkDataFrame {
  columns : list string;
  rows : list Row
}.

Definition has_column (name : string) (df : DataFrame) : bool :=
  existsb (String.eqb name) (columns df).

Fixpoint index_of (name : string) (cols : list string) : option nat :=
  match cols with
  | [] => None
  | c :: rest =>
      if String.eqb name c then Some 0%nat
      else option_map S (index_of name rest)
  end.

Definition cell (i : nat) (r : Row) : Q := nth i (snd r) 0.

(** [df[name].values]; [KeyError] when the column is absent. *)
Definition column (name : string) (df : DataFrame) : result (list Q) :=
  match index_of name (columns df) with
  | Some i => Ok (map (cell i) (rows df))
  | None => Raise (KeyError name)
  end.

(** [df[[a, b]].values]: the rows as pairs. *)
Definition column_pair (a b : string) (df : DataFrame)
  : result (list (Q * Q)) :=
  xs <- column a df ;;
  ys <- column b df ;;
  Ok (combine xs ys).

(** [len(df)]. *)
Definition len (df : DataFrame) : nat := length (rows df).

(** [df.empty]: some axis has length 0. *)
Definition empty (df : DataFrame) : bool :=
  match columns df, rows df with
  | [], _ => true
  | _, [] => true
  | _, _ => false
  end.

(** [pd.DataFrame(columns=names)]. *)
Definition empty_frame (names : list string) : DataFrame :=
  {| columns := names; rows := [] |}.

(** [df[mask]]: the rows whose mask entry is true, with their labels. *)
Fixpoint select (mask : list bool) (rs : list Row) : list Row :=
  match mask, rs with
  | true :: mask', r :: rs' => r :: select mask' rs'
  | false :: mask', _ :: rs' => select mask' rs'
  | _, _ => []
  end.

Definition boolean_index (mask : list bool) (df : DataFrame) : DataFrame :=
  {| columns := columns df; rows := select mask (rows df) |}.

Fixpoint replace_nth (i : nat) (v : Q) (cells : list Q) : list Q :=
  match i, cells with
  | _, [] => []
  | O, _ :: rest => v :: rest
  | S i', c :: rest => c :: replace_nth i' v rest
  end.

(** [df[name] = values]: overwrite the column when it exists, append it
    otherwise; [ValueError] when the lengths differ. *)
Definition set_column (name : string) (values : list Q) (df : DataFrame)
  : result DataFrame :=
  if negb (length values =? length (rows df))%nat then
    Raise (ValueError "Length of values does not match length of index")
  else
    match index_of name (columns df) with
    | Some i =>
        Ok {| columns := columns df;
              rows := map (fun '((lbl, cells), v) => (lbl, replace_nth i v cells))
                          (combine (rows df) values) |}
    | None =>
        Ok {| columns := columns df ++ [name];
              rows := map (fun '((lbl, cells), v) => (lbl, cells ++ [v]))
                          (combine (rows df) values) |}
    end.

(** [df[name] = scalar]. *)
Definition set_column_scalar (name : string) (v : Q) (df : DataFrame)
  : result DataFrame :=
  set_column name (repeat v (length (rows df))) df.

(** [pd.DataFrame(array, columns=[a, b])] for a two-column array: a fresh
    range index. *)
Definition frame_of_pairs (a b : string) (pts : list (Q * Q)) : DataFrame :=
  {| columns := [a; b];
     rows := map (fun '(i, (x, y)) => (Z.of_nat i, [x; y]))
                 (combine (seq 0 (length pts)) pts) |}.

(** Grouping: keys in ascending order, equal keys merged by summation. *)
Fixpoint group_add (k v : Q) (groups : list (Q * Q)) : list (Q * Q) :=
  match groups with
  | [] => [(k, v)]
  | (k', v') :: rest =>
      if Qeq_bool k k' then (k', v' + v) :: rest
      else if Qltb k k' then (k, v) :: groups
      else (k', v') :: group_add k v rest
  end.

(** [groupby(key)[value].sum()] on the paired columns.  Keys are numbers
    and sums are exact: a row with a missing key, which pandas leaves out
    of every group, and the wrap-around of an integer sum are outside the
    model. *)
Definition groupby_sum (pairs : list (Q * Q)) : list (Q * Q) :=
  fold_left (fun groups kv => group_add (fst kv) (snd kv) groups) pairs [].

(** The sort behind [sort_values(by, ascending=False)]: it is given the key
    of a row and the rows.  The sorting itself is library code, so it is a
    parameter.  Its contract: the rows are rearranged, with keys
    descending, and rows with equal keys stay in the order they had.
    (pandas sorts descending by reversing the rows, arg-sorting ascending
    and reversing the result, so that a kernel that keeps equal keys in
    order leaves them in their original order; the default kernel sorts
    runs of up to 16 elements by insertion, which does.) *)
Definition Sorter : Type := (Row -> Q) -> list Row -> list Row.


(** A stable descending insertion sort: rows with equal keys keep their
    order. *)
Fixpoint insert_desc (key : Row -> Q) (r : Row) (sorted : list Row)
  : list Row :=
  match sorted with
  | [] => [r]
  | s :: rest =>
      if Qle_bool (key s) (key r) then r :: sorted
      else s :: insert_desc key r rest
  end.

Definition stable_sort_desc : Sorter :=
  fun key rs => fold_right (insert_desc key) [] rs.

Definition sort_values_desc (sorter : Sorter) (name : string)
  (df : DataFrame) : result DataFrame :=
  match index_of name (columns df) with
  | Some i => Ok {| columns := columns df; rows := sorter (cell i) (rows df) |}
  | None => Raise (KeyError name)
  end.

End Pandas.

(** ** [src/models/optimization.py]: the schedule optimizer *)

Module Optimization.

(** One record of [hourly.to_dict(orient="records")]. *)
Record HourlyRow : Type := mkHourlyRow {
  hour_of_day : Q;
  load : Q;
  load_pct : option Q
}.

(** *** [analyze_load_profile] *)

(** The dictionary [analyze_load_profile] returns.  A ratio that pandas
    computes as NaN or an infinity (division by a zero total or mean) is
    [None]. *)
Record LoadProfile : Type := mkLoadProfile {
  hourly_profile : list HourlyRow;
  peak_hour : Z;
  off_peak_hour : Z;
  peak_to_avg_ratio : option Q
}.

Definition energy_candidates : list string :=
  ["energy_kwh"; "energy"; "kwh"; "power"]%string.

(** The [for candidate in ...: break] loop: the first candidate present. *)
Definition energy_col (df : Pandas.DataFrame) : option string :=
  find (fun candidate => Pandas.has_column candidate df) energy_candidates.

(** What the grouping aggregates, row by row: the hour with the energy of
    the row, or with 1 when the session count is the proxy ([size()]). *)
Definition readings (df : Pandas.DataFrame) : result (list (Q * Q)) :=
  hours <- Pandas.column "hour_of_day" df ;;
  match energy_col df with
  | None => Ok (map (fun h => (h, 1)) hours)
  | Some c =>
      energy <- Pandas.column c df ;;
      Ok (combine hours energy)
  end.

(** The frame [hourly]: one [(hour_of_day, load)] pair per group. *)
Definition hourly_frame (df : Pandas.DataFrame) : result (list (Q * Q)) :=
  pairs <- readings df ;;
  Ok (Pandas.groupby_sum pairs).

(** [idxmax] and [idxmin] on the [load] column: the first row that attains
    the extreme; [ValueError] on an empty frame. *)
Fixpoint first_max (best : Q * Q) (rest : list (Q * Q)) : Q * Q :=
  match rest with
  | [] => best
  | x :: rest' => first_max (if Qltb (snd best) (snd x) then x else best) rest'
  end.

Fixpoint first_min (best : Q * Q) (rest : list (Q * Q)) : Q * Q :=
  match rest with
  | [] => best
  | x :: rest' => first_min (if Qltb (snd x) (snd best) then x else best) rest'
  end.

Definition idxmax (hourly : list (Q * Q)) : result (Q * Q) :=
  match hourly with
  | [] => Raise (ValueError "attempt to get argmax of an empty sequence")
  | x :: rest => Ok (first_max x rest)
  end.

Definition idxmin (hourly : list (Q * Q)) : result (Q * Q) :=
  match hourly with
  | [] => Raise (ValueError "attempt to get argmin of an empty sequence")
  | x :: rest => Ok (first_min x rest)
  end.

(** Division on pandas floats: no exception, a non-finite value instead. *)
Definition float_div (a b : Q) : option Q :=
  if Qeq_bool b 0 then None else Some (a / b).

(** One row of [hourly] with its [load_pct], as a record of [to_dict]. *)
Definition to_record (total : Q) (hl : Q * Q) : HourlyRow :=
  {| hour_of_day := fst hl;
     load := snd hl;
     load_pct := option_map (fun f => round2 (f * 100))
                            (float_div (snd hl) total) |}.

(** [None] is the Python [None] of the guarded early return. *)
Definition analyze_load_profile (df : Pandas.DataFrame)
  : result (option LoadProfile) :=
  if negb (Pandas.has_column "hour_of_day" df) then Ok None
  else
    hourly <- hourly_frame df ;;
    let loads := map snd hourly in
    let total := Py.sum loads in
    let records := map (to_record total) hourly in
    peak <- idxmax hourly ;;
    off_peak <- idxmin hourly ;;
    let peak_to_avg := float_div (snd peak) (mean loads) in
    Ok (Some {| hourly_profile := records;
                peak_hour := Py.int (fst peak);
                off_peak_hour := Py.int (fst off_peak);
                peak_to_avg_ratio := option_map round2 peak_to_avg |}).

(** *** [_heuristic_optimization] *)

(** The dictionary returned by both optimisation paths.  It has these six
    keys and no other. *)
Record ScheduleResult : Type := mkScheduleResult {
  method : string;
  original_load : list Q;
  optimized_load : list Q;
  original_peak : Q;
  optimized_peak : Q;
  peak_reduction_pct : Q
}.

(** Pass 1 of [_heuristic_optimization]: shave peaks.  The accumulator is
    the variable [excess]; the result list is [optimized].  The comparison
    with the threshold is exact here; in double precision a load within
    rounding distance of the threshold can fall on the other side. *)
Fixpoint shave_peaks (avg_load shift_pct : Q) (loads : list Q) (excess : Q)
  : list Q * Q :=
  match loads with
  | [] => ([], excess)
  | l :: rest =>
      if Qltb (avg_load * (12 # 10)) l then
        let shaved := l * shift_pct in
        let '(optimized, e) :=
          shave_peaks avg_load shift_pct rest (excess + shaved) in
        ((l - shaved) :: optimized, e)
      else
        let '(optimized, e) := shave_peaks avg_load shift_pct rest excess in
        (l :: optimized, e)
  end.

(** Pass 2: fill valleys, in index order, threading [excess]. *)
Fixpoint fill_valleys (avg_load : Q) (optimized : list Q) (excess : Q)
  : list Q * Q :=
  match optimized with
  | [] => ([], excess)
  | o :: rest =>
      if Qltb o (avg_load * (8 # 10)) && Qltb 0 excess then
        let fill := min2 excess (avg_load - o) in
        let '(rest', e) := fill_valleys avg_load rest (excess - fill) in
        ((o + fill) :: rest', e)
      else
        let '(rest', e) := fill_valleys avg_load rest excess in
        (o :: rest', e)
  end.

(** The two passes together: the final [optimized] list and the value of
    [excess] when the function returns (a local that is not returned). *)
Definition heuristic_passes (original : list Q) (shift_pct : Q) : list Q * Q :=
  let avg_load := mean original in
  let '(optimized, excess) := shave_peaks avg_load shift_pct original 0 in
  fill_valleys avg_load optimized excess.

Definition make_result (name : string) (original optimized : list Q)
  : result ScheduleResult :=
  original_peak <- Py.max original ;;
  optimized_peak <- Py.max optimized ;;
  ratio <- div optimized_peak original_peak ;;
  let reduction := (1 - ratio) * 100 in
  Ok {| method := name;
        original_load := original;
        optimized_load := optimized;
        original_peak := round2 original_peak;
        optimized_peak := round2 optimized_peak;
        peak_reduction_pct := round2 reduction |}.

Definition _heuristic_optimization (hourly_profile : list HourlyRow)
  (shift_pct : Q) : result ScheduleResult :=
  let original := map load hourly_profile in
  make_result "Heuristic (Peak Shaving)" original
    (fst (heuristic_passes original shift_pct)).

(** *** The linear program

    The problem built by [optimize_charging_schedule] has variables
    [x_0 .. x_(hours-1)] and [peak], all with lower bound 0, objective
    [peak], and the three constraint families below. *)
Record LpOutcome : Type := mkLpOutcome {
  status : Z;
  x_value : list Q;
  peak_value : Q
}.

Definition lp_feasible (original : list Q) (shift_pct : Q)
  (x : list Q) (peak : Q) : Prop :=
  length x = length original /\
  Forall (fun xi => 0 <= xi) x /\
  0 <= peak /\
  Forall (fun xi => xi <= peak) x /\
  Py.sum x == Py.sum original /\
  Forall2 (fun o xi => o * (1 - shift_pct) <= xi) original x.

(** What status 1 (Optimal) means for the outcome of [prob.solve()]. *)
Definition lp_optimal (original : list Q) (shift_pct : Q) (out : LpOutcome)
  : Prop :=
  lp_feasible original shift_pct (x_value out) (peak_value out) /\
  forall x peak, lp_feasible original shift_pct x peak ->
                 peak_value out <= peak.

(** The solver: a function of the problem data.  [None] stands for the
    [ImportError] branch (PuLP not installed). *)
Definition Solver : Type := list Q -> Q -> LpOutcome.

Definition solver_contract (pulp : option Solver) : Prop :=
  forall solve, pulp = Some solve ->
  forall original shift_pct,
    status (solve original shift_pct) = 1%Z ->
    lp_optimal original shift_pct (solve original shift_pct).

Definition optimize_charging_schedule (pulp : option Solver)
  (hourly_profile : list HourlyRow) (shift_pct : Q) : result ScheduleResult :=
  match pulp with
  | None => _heuristic_optimization hourly_profile shift_pct
  | Some solve =>
      let original := map load hourly_profile in
      let out := solve original shift_pct in
      if (status out =? 1)%Z then
        make_result "Linear Programming (PuLP)" original (x_value out)
      else _heuristic_optimization hourly_profile shift_pct
  end.

End Optimization.

(** ** [src/models/clustering.py]: the candidate loop of [run_kmeans] *)

Module Clustering.

(** [range(2, min(12, n))]. *)
Definition K_range (n : nat) : list nat := seq 2 (Nat.min 12 n - 2).

(** [np.argmax]: the first index of the maximum; [ValueError] when empty. *)
Fixpoint argmax_from (best : nat) (m : Q) (i : nat) (xs : list Q) : nat :=
  match xs with
  | [] => best
  | x :: rest =>
      if Qltb m x then argmax_from i x (S i) rest
      else argmax_from best m (S i) rest
  end.

Definition argmax (xs : list Q) : result nat :=
  match xs with
  | [] => Raise (ValueError "attempt to get argmax of an empty sequence")
  | x :: rest => Ok (argmax_from 0%nat x 1%nat rest)
  end.

(** The keys of the returned dictionary that the selection determines.  Of
    the final refit and the cluster summary only what can fail is kept: the
    summary aggregates the [latitude] and [longitude] columns of the table,
    whatever features were clustered on. *)
Record KMeansReport : Type := mkKMeansReport {
  optimal_k : nat;
  silhouette_score : Q;
  elbow_k : list nat;
  elbow_silhouette : list Q
}.

Section RunKMeans.

(** The body of the loop for one candidate: standardise, fit
    [KMeans(n_clusters=k, random_state=42, n_init=10)] and score the labels
    with [silhouette_score]; these are library calls, so the composite is a
    parameter.  It may raise. *)
Variable fit_silhouette : list (list Q) -> nat -> result Q.

Fixpoint silhouettes (X : list (list Q)) (ks : list nat) : result (list Q) :=
  match ks with
  | [] => Ok []
  | k :: rest =>
      s <- fit_silhouette X k ;;
      ss <- silhouettes X rest ;;
      Ok (s :: ss)
  end.

(** [df[available]]: the rows restricted to the available features. *)
Definition restrict (available : list string) (df : Pandas.DataFrame)
  : list (list Q) :=
  map (fun r =>
         map (fun f => match Pandas.index_of f (Pandas.columns df) with
                       | Some i => Pandas.cell i r
                       | None => 0
                       end) available)
      (Pandas.rows df).

(** [n_clusters] only feeds a message and a local that the selection never
    reads, exactly as in the source. *)
Definition run_kmeans (df : Pandas.DataFrame) (n_clusters : nat)
  (features : option (list string)) : result (option KMeansReport) :=
  let features :=
    match features with
    | None => ["latitude"; "longitude"]%string
    | Some fs => fs
    end in
  let available := filter (fun f => Pandas.has_column f df) features in
  if (length available <? 2)%nat then Ok None
  else
    let X := restrict available df in
    let ks := K_range (length X) in
    sil <- silhouettes X ks ;;
    i <- argmax sil ;;
    best_silhouette <- Py.max sil ;;
    summary <- (if Pandas.has_column "latitude" df
                   && Pandas.has_column "longitude" df
                then Ok tt
                else Raise (KeyError "Column(s) do not exist")) ;;
    Ok (Some {| optimal_k := nth i ks 0%nat;
                silhouette_score := round4 best_silhouette;
                elbow_k := ks;
                elbow_silhouette := sil |}).

End RunKMeans.

End Clustering.

(** ** Great-circle distance and the ball tree *)

Module Geo.

Local Open Scope R_scope.

(** [np.radians]. *)
Definition radians (deg : R) : R := deg * PI / 180.

(** The haversine metric of the ball tree, on (latitude, longitude) pairs
    in radians; the result is an angle on the unit sphere. *)
Definition haversine (x1 x2 : R * R) : R :=
  let sin_0 := sin (/ 2 * (fst x1 - fst x2)) in
  let sin_1 := sin (/ 2 * (snd x1 - snd x2)) in
  2 * asin (sqrt (sin_0 * sin_0 + cos (fst x1) * cos (fst x2) * sin_1 * sin_1)).

Definition earth_radius_km : R := 6371.

(** A table coordinate pair, in degrees, as a point in radians. *)
Definition to_radians (p : Q * Q) : R * R :=
  (radians (Q2R (fst p)), radians (Q2R (snd p))).

Definition within (r : R) (q s : R * R) : bool :=
  if Rle_dec (haversine q s) r then true else false.

(** [BallTree(data, metric='haversine')]: refuses an empty array. *)
Record BallTree : Type := mkBallTree { data : list (R * R) }.

Definition new_BallTree (pts : list (R * R)) : result BallTree :=
  match pts with
  | [] => Raise (ValueError "Found array with 0 sample(s)")
  | _ => Ok {| data := pts |}
  end.

(** [tree.query_radius(X, r, count_only=True)]: for each query point the
    number of tree points at distance at most [r]; refuses an empty [X]. *)
Definition count_within (tree : BallTree) (r : R) (q : R * R) : nat :=
  length (filter (within r q) (data tree)).

Definition query_radius (tree : BallTree) (X : list (R * R)) (r : R)
  : result (list nat) :=
  match X with
  | [] => Raise (ValueError "Found array with 0 sample(s)")
  | _ => Ok (map (count_within tree r) X)
  end.

End Geo.

(** ** The k-means estimator: interface and a reference instance *)

Module KMeans.

(** [fit_predict] of [KMeans(n_clusters=k, random_state=42, n_init=10)] on a
    two-column array: the labels and [cluster_centers_].  The seed is fixed,
    so the estimator is a function of its input. *)
Definition Estimator : Type :=
  nat -> list (Q * Q) -> list nat * list (Q * Q).

Definition members (c : nat) (labels : list nat) (X : list (Q * Q))
  : list (Q * Q) :=
  map snd (filter (fun lp => (fst lp =? c)%nat) (combine labels X)).

Definition centroid (pts : list (Q * Q)) : Q * Q :=
  (mean (map fst pts), mean (map snd pts)).



(** *** Reference instance: Lloyd's iteration from the first [k] points *)

Definition sq_dist (p c : Q * Q) : Q :=
  (fst p - fst c) * (fst p - fst c) + (snd p - snd c) * (snd p - snd c).

Fixpoint nearest_from (p : Q * Q) (best : nat) (d : Q) (i : nat)
  (centers : list (Q * Q)) : nat :=
  match centers with
  | [] => best
  | c :: rest =>
      if Qltb (sq_dist p c) d then nearest_from p i (sq_dist p c) (S i) rest
      else nearest_from p best d (S i) rest
  end.

Definition nearest (p : Q * Q) (centers : list (Q * Q)) : nat :=
  match centers with
  | [] => 0%nat
  | c :: rest => nearest_from p 0%nat (sq_dist p c) 1%nat rest
  end.

Definition assign (X centers : list (Q * Q)) : list nat :=
  map (fun p => nearest p centers) X.

Definition update (X : list (Q * Q)) (labels : list nat)
  (centers : list (Q * Q)) : list (Q * Q) :=
  map (fun ic => match members (fst ic) labels X with
                 | [] => snd ic
                 | ms => centroid ms
                 end)
      (combine (seq 0 (length centers)) centers).

Fixpoint iterate (fuel : nat) (X : list (Q * Q)) (labels : list nat)
  (centers : list (Q * Q)) : list nat * list (Q * Q) :=
  match fuel with
  | O => (labels, centers)
  | S fuel' =>
      let centers' := update X labels centers in
      let labels' := assign X centers' in
      if list_eq_dec Nat.eq_dec labels labels' then (labels', centers')
      else iterate fuel' X labels' centers'
  end.

Definition lloyd : Estimator :=
  fun k X =>
    let centers := firstn k X in
    iterate 300 X (assign X centers) centers.

End KMeans.

(** ** [src/models.py]: class [StationClusterer] *)

Module Models.

(** Tables live in a store and are named by references, so that the table
    [find_gaps] returns and the table [recommend_locations] later writes to
    are one object. *)
Definition loc : Type := nat.

(** The attributes of [self.model] that the methods write. *)
Record KMeansModel : Type := mkKMeansModel {
  n_clusters : Z;
  cluster_centers_ : option (list (Q * Q))
}.

(** The instance attributes; [gap_points] is [None] until [find_gaps] has
    set the attribute. *)
Record StationClusterer : Type := mkStationClusterer {
  n_new_stations : Z;
  coverage_radius_km : Q;
  model : KMeansModel;
  gap_points : option loc
}.

Record World : Type := mkWorld {
  heap : list Pandas.DataFrame;
  self : StationClusterer
}.

(** State and exceptions: a method maps a world to an outcome and the world
    it leaves behind (also when it raises). *)
Definition M (A : Type) : Type := World -> result A * World.

Definition ret {A} (a : A) : M A := fun w => (Ok a, w).

Definition mbind {A B} (m : M A) (k : A -> M B) : M B :=
  fun w => match m w with
           | (Ok a, w') => k a w'
           | (Raise e, w') => (Raise e, w')
           end.

Notation "x <~ m ;; k" := (mbind m (fun x => k))
  (at level 61, m at next level, right associativity).

Definition lift {A} (r : result A) : M A := fun w => (r, w).

Definition get_self : M StationClusterer := fun w => (Ok (self w), w).

Definition put_self (s : StationClusterer) : M unit :=
  fun w => (Ok tt, {| heap := heap w; self := s |}).

(** Reading through a reference.  A reference that names no table cannot
    arise in Python; the model answers it with a [KeyError]. *)
Definition deref (l : loc) : M Pandas.DataFrame :=
  fun w => match nth_error (heap w) l with
           | Some df => (Ok df, w)
           | None => (Raise (KeyError "no such table"), w)
           end.

Definition alloc (df : Pandas.DataFrame) : M loc :=
  fun w => (Ok (length (heap w)),
            {| heap := heap w ++ [df]; self := self w |}).

Fixpoint update_nth (l : nat) (df : Pandas.DataFrame)
  (h : list Pandas.DataFrame) : list Pandas.DataFrame :=
  match l, h with
  | _, [] => []
  | O, _ :: rest => df :: rest
  | S l', d :: rest => d :: update_nth l' df rest
  end.

Definition store (l : loc) (df : Pandas.DataFrame) : M unit :=
  fun w => (Ok tt, {| heap := update_nth l df (heap w); self := self w |}).

(** [__init__]. *)
Definition __init__ (n_new_stations : Z) (coverage_radius_km : Q)
  : StationClusterer :=
  {| n_new_stations := n_new_stations;
     coverage_radius_km := coverage_radius_km;
     model := {| n_clusters := n_new_stations; cluster_centers_ := None |};
     gap_points := None |}.

(** The mask [counts == 0] for a demand table against a station table. *)
Definition gap_mask (radius_km : Q) (stations demand : Pandas.DataFrame)
  : result (list bool) :=
  stations_deg <- Pandas.column_pair "latitude" "longitude" stations ;;
  demand_deg <- Pandas.column_pair "latitude" "longitude" demand ;;
  tree <- Geo.new_BallTree (map Geo.to_radians stations_deg) ;;
  let radius_rad := (Q2R radius_km / Geo.earth_radius_km)%R in
  counts <- Geo.query_radius tree (map Geo.to_radians demand_deg) radius_rad ;;
  Ok (map (Nat.eqb 0) counts).

Definition find_gaps (existing_stations demand_hotspots : loc) : M loc :=
  stations <~ deref existing_stations ;;
  demand <~ deref demand_hotspots ;;
  me <~ get_self ;;
  mask <~ lift (gap_mask (coverage_radius_km me) stations demand) ;;
  gaps <~ alloc (Pandas.boolean_index mask demand) ;;
  _ <~ put_self {| n_new_stations := n_new_stations me;
                   coverage_radius_km := coverage_radius_km me;
                   model := model me;
                   gap_points := Some gaps |} ;;
  ret gaps.

Definition recommendation_columns : list string :=
  ["latitude"; "longitude"; "priority_score"]%string.

Section Recommend.

Variable estimator : KMeans.Estimator.
Variable sorter : Pandas.Sorter.

(** [self.model.fit_predict(coords)] after [self.model.n_clusters = k]:
    parameter validation refuses a cluster count below 1. *)
Definition fit_predict (k : Z) (coords : list (Q * Q))
  : M (list nat * list (Q * Q)) :=
  me <~ get_self ;;
  if (k <? 1)%Z then
    lift (Raise (ValueError "n_clusters must be an int in the range [1, inf)"))
  else
    let fit := estimator (Z.to_nat k) coords in
    _ <~ put_self {| n_new_stations := n_new_stations me;
                     coverage_radius_km := coverage_radius_km me;
                     model := {| n_clusters := k;
                                 cluster_centers_ := Some (snd fit) |};
                     gap_points := gap_points me |} ;;
    ret fit.

Definition set_n_clusters (k : Z) : M unit :=
  me <~ get_self ;;
  put_self {| n_new_stations := n_new_stations me;
              coverage_radius_km := coverage_radius_km me;
              model := {| n_clusters := k;
                          cluster_centers_ := cluster_centers_ (model me) |};
              gap_points := gap_points me |}.

(** The recommendation frame built from the labelled gap table and the
    fitted centres. *)
Definition build_recommendations (gaps : Pandas.DataFrame)
  (centers : list (Q * Q)) : result Pandas.DataFrame :=
  clusters <- Pandas.column "cluster" gaps ;;
  scores <- Pandas.column "demand_score" gaps ;;
  let cluster_scores := Pandas.groupby_sum (combine clusters scores) in
  let recommendations :=
    Pandas.frame_of_pairs "latitude" "longitude" centers in
  scored <-
    (if (length cluster_scores =? length centers)%nat
     then Pandas.set_column "priority_score" (map snd cluster_scores)
            recommendations
     else Pandas.set_column_scalar "priority_score" 0 recommendations) ;;
  Pandas.sort_values_desc sorter "priority_score" scored.

Definition recommend_locations : M Pandas.DataFrame :=
  me <~ get_self ;;
  match gap_points me with
  | None => ret (Pandas.empty_frame recommendation_columns)
  | Some l =>
      gaps <~ deref l ;;
      if Pandas.empty gaps then
        ret (Pandas.empty_frame recommendation_columns)
      else
        coords <~ lift (Pandas.column_pair "latitude" "longitude" gaps) ;;
        let k := Z.min (n_new_stations me) (Z.of_nat (length coords)) in
        if (k =? 0)%Z then ret (Pandas.empty_frame recommendation_columns)
        else
          _ <~ set_n_clusters k ;;
          fit <~ fit_predict k coords ;;
          labelled <~ lift (Pandas.set_column "cluster"
                              (map (fun c => inject_Z (Z.of_nat c)) (fst fit))
                              gaps) ;;
          _ <~ store l labelled ;;
          lift (build_recommendations labelled (snd fit))
  end.

End Recommend.

End Models.

(** ** [src/models/optimization.py]: steps 3 and 4 of
    [run_optimization_pipeline] *)

Module OptimizationPipeline.
Import Optimization.

(** [ax.bar(x, height, width)]: the positions and the heights are broadcast
    against each other, and shapes that do not broadcast raise.  The drawing
    itself is an effect outside the model. *)
Definition bar (x height : list Q) : result unit :=
  if (length x =? length height)%nat
     || (length x =? 1)%nat || (length height =? 1)%nat
  then Ok tt
  else Raise (ValueError
                "shape mismatch: objects cannot be broadcast to a single shape").

(** [plot_load_comparison]: the two load series are drawn as bars over
    [hours = list(range(24))], at [x - width/2] and [x + width/2] for
    [x = np.arange(len(hours))] and [width = 0.35]. *)
Definition plot_load_comparison (opt_result : ScheduleResult) : result unit :=
  let hours := seq 0 24 in
  let orig := original_load opt_result in
  let opt := optimized_load opt_result in
  let width := 35 # 100 in
  let x := map (fun i => inject_Z (Z.of_nat i)) (seq 0 (length hours)) in
  bars1 <- bar (map (fun v => v - width / 2) x) orig ;;
  bars2 <- bar (map (fun v => v + width / 2) x) opt ;;
  Ok tt.

(** Steps 3 to 5 of [run_optimization_pipeline], on the table that reaches
    step 3: [profile = analyze_load_profile(df)]; [None] ends the pipeline
    with [None]; otherwise the schedule is optimised with the default
    [shift_pct = 0.3] and the comparison is plotted.  Loading the data and
    writing the results file are not modelled. *)
Definition analyze_optimize_plot (pulp : option Solver)
  (df : Pandas.DataFrame) : result (option (LoadProfile * ScheduleResult)) :=
  profile <- analyze_load_profile df ;;
  match profile with
  | None => Ok None
  | Some p =>
      opt_result <- optimize_charging_schedule pulp (hourly_profile p) (3 # 10) ;;
      drawn <- plot_load_comparison opt_result ;;
      Ok (Some (p, opt_result))
  end.

End OptimizationPipeline.


(** ** [src/models/clustering.py]: [run_dbscan] *)

Module Dbscan.

(** The keys of the returned dictionary; [labels] is the [cluster] column
    of [clustered_data]. *)
Record DbscanReport : Type := mkDbscanReport {
  n_clusters : Z;
  n_noise : nat;
  silhouette_score : Q;
  labels : list Z
}.

(** [len(set(labels))]. *)
Definition distinct (ls : list Z) : nat := length (nodup Z.eq_dec ls).

Definition noise : Z := (-1)%Z.

Section RunDbscan.

(** Standardising the features and
    [DBSCAN(eps, min_samples).fit_predict], and scoring labels with
    [silhouette_score] on the standardised features: library calls, taken
    as parameters of the feature rows.  Both may raise. *)
Variable fit_predict : list (list Q) -> Q -> Z -> result (list Z).
Variable silhouette : list (list Q) -> list Z -> result Q.

Definition run_dbscan (df : Pandas.DataFrame) (eps : Q) (min_samples : Z)
  : result (option DbscanReport) :=
  let features := ["latitude"; "longitude"]%string in
  let available := filter (fun f => Pandas.has_column f df) features in
  if (length available <? 2)%nat then Ok None
  else
    let X := Clustering.restrict available df in
    ls <- fit_predict X eps min_samples ;;
    let n_clusters :=
      (Z.of_nat (distinct ls)
       - (if existsb (Z.eqb noise) ls then 1 else 0))%Z in
    let n_noise := length (filter (Z.eqb noise) ls) in
    sil <- (if (2 <=? n_clusters)%Z then silhouette X ls else Ok 0) ;;
    Ok (Some {| n_clusters := n_clusters;
                n_noise := n_noise;
                silhouette_score := round4 sil;
                labels := ls |}).

End RunDbscan.

End Dbscan.

(** ** [src/models.py]: class [TimeSeriesForecaster] *)

Module Forecasting.

(** One row of the forecast frame; [ds] is a date, counted in days. *)
Record ForecastRow : Type := mkForecastRow {
  ds : Z;
  yhat : Q;
  yhat_lower : Q;
  yhat_upper : Q
}.

(** What a call can raise: an exception of the tables, or the [IndexError]
    of [.iloc[-1]] on an empty column. *)
Inductive error : Type :=
| Python (e : exn)
| IndexError (msg : string).

Inductive outcome (A : Type) : Type :=
| Returned (a : A)
| Raised (e : error).

Arguments Returned {A} a.
Arguments Raised {A} e.

(** [series.iloc[-1]]. *)
Fixpoint iloc_last {A} (xs : list A) : outcome A :=
  match xs with
  | [] => Raised (IndexError "single positional indexer is out-of-bounds")
  | [x] => Returned x
  | _ :: rest => iloc_last rest
  end.

(** The window of [rolling(window=n, min_periods=1)] that ends at position
    [i]: the last [n] values up to and including [i], fewer at the start. *)
Definition window (n i : nat) (ys : list Q) : list Q :=
  skipn (i + 1 - n) (firstn (i + 1) ys).

(** [ys.rolling(window=n, min_periods=1).mean()]. *)
Definition rolling_mean (n : nat) (ys : list Q) : list Q :=
  map (fun i => mean (window n i ys)) (seq 0 (length ys)).

(** [range(1, periods + 1)]. *)
Definition day_offsets (periods : Z) : list Z :=
  map (fun i => Z.of_nat (S i)) (seq 0 (Z.to_nat periods)).

Definition history_row (d : Z) (y : Q) : ForecastRow :=
  {| ds := d; yhat := y;
     yhat_lower := y * (9 # 10); yhat_upper := y * (11 # 10) |}.

Definition future_row (last_val : Q) (d : Z) : ForecastRow :=
  {| ds := d; yhat := last_val;
     yhat_lower := last_val * (8 # 10); yhat_upper := last_val * (12 # 10) |}.

(** [daily_demand] is the frame with columns [ds], [y], one row per day. *)
Definition _fallback_forecast (daily_demand : list (Z * Q)) (periods : Z)
  : outcome (list ForecastRow) :=
  let dates := map fst daily_demand in
  let smoothed := rolling_mean 7 (map snd daily_demand) in
  match iloc_last smoothed with
  | Raised e => Raised e
  | Returned last_val =>
      match iloc_last dates with
      | Raised e => Raised e
      | Returned last_date =>
          let future_dates :=
            map (fun x => (last_date + x)%Z) (day_offsets periods) in
          let future_df := map (future_row last_val) future_dates in
          let history :=
            map (fun dy => history_row (fst dy) (snd dy))
                (combine dates smoothed) in
          Returned (history ++ future_df)
      end
  end.

(** [df.groupby(df['session_start'].dt.date)['energy_delivered_kwh'].sum()]
    on sessions given as (start, energy) pairs, the start being a timestamp
    in days: the date is its floor. *)
Definition daily_demand_of (sessions : list (Q * Q)) : list (Z * Q) :=
  map (fun kv => (Qfloor (fst kv), snd kv))
      (Pandas.groupby_sum
         (map (fun s => (inject_Z (Qfloor (fst s)), snd s)) sessions)).

Record TimeSeriesForecaster : Type := mkTimeSeriesForecaster {
  prohet_available : bool
}.

(** [__init__]: the flag starts as the module-level [PROPHET_AVAILABLE] and
    is cleared when constructing the model raises. *)
Definition __init__ (PROPHET_AVAILABLE constructed : bool)
  : TimeSeriesForecaster :=
  {| prohet_available := PROPHET_AVAILABLE && constructed |}.

Section FitPredict.

(** Fitting the Prophet model and predicting [periods] days ahead: a
    library call on the daily frame, which may raise. *)
Variable prophet : list (Z * Q) -> Z -> result (list ForecastRow).

Definition fit_predict (self : TimeSeriesForecaster)
  (sessions : list (Q * Q)) (periods : Z) : outcome (list ForecastRow) :=
  let daily_demand := daily_demand_of sessions in
  if prohet_available self then
    match prophet daily_demand periods with
    | Ok forecast => Returned forecast
    | Raise _ => _fallback_forecast daily_demand periods
    end
  else _fallback_forecast daily_demand periods.

End FitPredict.

End Forecasting.

(** ** [src/features/engineering.py]: [add_station_density] and the hour
    features of [add_usage_features] *)

Module Features.

Local Open Scope R_scope.

(** [np.arctan2(y, x)] where both arguments are square roots, hence not
    negative. *)
Definition arctan2 (y x : R) : R :=
  if Req_dec_T x 0 then (if Req_dec_T y 0 then 0 else PI / 2)
  else atan (y / x).

(** The term [a] of the loop body for stations [pi] (the fixed one) and
    [pj], both in radians. *)
Definition hav_a (p_i p_j : R * R) : R :=
  let dlat := fst p_j - fst p_i in
  let dlon := snd p_j - snd p_i in
  sin (dlat / 2) ^ 2 + cos (fst p_i) * cos (fst p_j) * sin (dlon / 2) ^ 2.

(** One entry of [distances <= radius_km].  A square root of a negative
    number is NaN, and a comparison with NaN is false. *)
Definition nearby (radius_km : R) (p_i p_j : R * R) : bool :=
  let a := hav_a p_i p_j in
  if Rle_dec 0 a then
    if Rle_dec a 1 then
      if Rle_dec (6371 * (2 * arctan2 (sqrt a) (sqrt (1 - a)))) radius_km
      then true else false
    else false
  else false.

(** [(distances <= radius_km).sum() - 1] for every station. *)
Definition densities (radius_km : R) (pts : list (R * R)) : list Z :=
  map (fun p_i => (Z.of_nat (length (filter (nearby radius_km p_i) pts)) - 1)%Z)
      pts.

Definition add_station_density (df : Pandas.DataFrame) (radius_km : Q)
  : result Pandas.DataFrame :=
  if negb (Pandas.has_column "latitude" df)
     || negb (Pandas.has_column "longitude" df) then Ok df
  else
    pts <- Pandas.column_pair "latitude" "longitude" df ;;
    let density := densities (Q2R radius_km) (map Geo.to_radians pts) in
    Pandas.set_column "station_density_5km" (map inject_Z density) df.

Local Close Scope R_scope.

(** The element-wise parts of [add_usage_features], as functions of one
    [hour_of_day] value. *)

(** [between(18, 21).astype(int)]: both ends included. *)
Definition is_peak_hour (h : Q) : Z :=
  if Qle_bool 18 h && Qle_bool h 21 then 1%Z else 0%Z.

(** [between(0, 6).astype(int)]. *)
Definition is_off_peak (h : Q) : Z :=
  if Qle_bool 0 h && Qle_bool h 6 then 1%Z else 0%Z.

Inductive TimeSlot : Type := Night | Morning | Afternoon | Evening.

(** [pd.cut(h, bins=[0, 6, 12, 18, 24], labels=..., include_lowest=True)]:
    right-closed bins, the first one closed on the left as well; [None] is
    the missing value given to anything outside. *)
Definition time_slot (h : Q) : option TimeSlot :=
  if Qle_bool 0 h && Qle_bool h 6 then Some Night
  else if Qltb 6 h && Qle_bool h 12 then Some Morning
  else if Qltb 12 h && Qle_bool h 18 then Some Afternoon
  else if Qltb 18 h && Qle_bool h 24 then Some Evening
  else None.

End Features.


(* ================================================================== *)
(** * Part II: properties                                              *)
(* ================================================================== *)

(** ** Facts about the Python helpers *)

Module PyFacts.

Lemma Qltb_lt (x y : Q) : Qltb x y = true <-> x < y.
Proof.
  unfold Qltb. rewrite negb_true_iff.
  split; intro H.
  - apply Qnot_le_lt. intro Hle. apply Qle_bool_iff in Hle. congruence.
  - destruct (Qle_bool y x) eqn:E; [|reflexivity].
    apply Qle_bool_iff in E. lra.
Qed.

Lemma Qltb_ge (x y : Q) : Qltb x y = false <-> y <= x.
Proof.
  unfold Qltb. rewrite negb_false_iff. apply Qle_bool_iff.
Qed.

Lemma fold_plus_acc (xs : list Q) (a : Q) :
  fold_left Qplus xs a == a + Py.sum xs.
Proof.
  unfold Py.sum. revert a.
  induction xs as [|x xs IH]; intro a; simpl.
  - lra.
  - rewrite (IH (a + x)), (IH (0 + x)). lra.
Qed.

Lemma sum_cons (x : Q) (xs : list Q) : Py.sum (x :: xs) == x + Py.sum xs.
Proof.
  unfold Py.sum at 1. simpl. rewrite fold_plus_acc. lra.
Qed.

Lemma sum_nil : Py.sum [] == 0.
Proof. reflexivity. Qed.

Lemma max_from_ge_init (m : Q) (xs : list Q) : m <= max_from m xs.
Proof.
  revert m. induction xs as [|x xs IH]; intro m; simpl.
  - lra.
  - destruct (Qltb m x) eqn:E.
    + apply Qltb_lt in E. specialize (IH x). lra.
    + apply IH.
Qed.

Lemma max_from_upper (m : Q) (xs : list Q) :
  Forall (fun x => x <= max_from m xs) xs.
Proof.
  revert m. induction xs as [|x xs IH]; intro m; simpl; constructor.
  - destruct (Qltb m x) eqn:E.
    + apply max_from_ge_init.
    + apply Qltb_ge in E. pose proof (max_from_ge_init m xs). lra.
  - apply IH.
Qed.

Lemma max_from_le_bound (b m : Q) (xs : list Q) :
  m <= b -> Forall (fun x => x <= b) xs -> max_from m xs <= b.
Proof.
  revert m. induction xs as [|x xs IH]; intros m Hm Hall; simpl.
  - exact Hm.
  - inversion Hall; subst. apply IH; [|assumption].
    destruct (Qltb m x); assumption.
Qed.

Lemma max_from_in (m : Q) (xs : list Q) : In (max_from m xs) (m :: xs).
Proof.
  revert m. induction xs as [|x xs IH]; intro m; simpl.
  - now left.
  - destruct (IH (if Qltb m x then x else m)) as [H|H].
    + destruct (Qltb m x); rewrite <- H; auto.
    + right. now right.
Qed.

(** [max] of a non-empty list is an upper bound of the list. *)
Lemma max_upper (xs : list Q) (m : Q) :
  Py.max xs = Ok m -> Forall (fun x => x <= m) xs.
Proof.
  destruct xs as [|x xs]; simpl; intro H; [discriminate|].
  injection H as <-. constructor.
  - apply max_from_ge_init.
  - apply max_from_upper.
Qed.

Lemma max_le_bound (xs : list Q) (m b : Q) :
  Py.max xs = Ok m -> Forall (fun x => x <= b) xs -> m <= b.
Proof.
  destruct xs as [|x xs]; simpl; intros H Hall; [discriminate|].
  injection H as <-. inversion Hall; subst.
  now apply max_from_le_bound.
Qed.

Lemma max_defined (xs : list Q) : xs <> [] -> exists m, Py.max xs = Ok m.
Proof.
  destruct xs as [|x xs]; [congruence|]. intros _. simpl. eauto.
Qed.

Lemma sum_le_bound (xs : list Q) (b : Q) :
  Forall (fun x => x <= b) xs ->
  Py.sum xs <= inject_Z (Z.of_nat (length xs)) * b.
Proof.
  induction 1 as [|x xs Hx Hall IH].
  - rewrite sum_nil. change (inject_Z (Z.of_nat (length []))) with 0. lra.
  - rewrite sum_cons. cbn [length]. rewrite Nat2Z.inj_succ.
    unfold Z.succ. rewrite inject_Z_plus.
    change (inject_Z 1) with 1.
    set (n := inject_Z (Z.of_nat (length xs))) in *.
    setoid_replace ((n + 1) * b) with (n * b + b) by ring. lra.
Qed.

Lemma inject_nat_pos (n : nat) : (0 < n)%nat -> 0 < inject_Z (Z.of_nat n).
Proof.
  intro H. change 0 with (inject_Z 0). rewrite <- Zlt_Qlt. lia.
Qed.

(** The mean of a non-empty list does not exceed any of its upper bounds. *)
Lemma mean_le_bound (xs : list Q) (b : Q) :
  xs <> [] -> Forall (fun x => x <= b) xs -> mean xs <= b.
Proof.
  intros Hne Hall. unfold mean.
  assert (Hn : 0 < inject_Z (Z.of_nat (length xs))).
  { apply inject_nat_pos. destruct xs; [congruence|simpl; lia]. }
  apply Qle_shift_div_r; [exact Hn|].
  pose proof (sum_le_bound xs b Hall). lra.
Qed.

Lemma min2_le_r (a b : Q) : min2 a b <= b.
Proof.
  unfold min2. destruct (Qltb b a) eqn:E; [lra|].
  apply Qltb_ge in E. exact E.
Qed.

Lemma min2_le_l (a b : Q) : min2 a b <= a.
Proof.
  unfold min2. destruct (Qltb b a) eqn:E; [|lra].
  apply Qltb_lt in E. lra.
Qed.

End PyFacts.

(** ** The heuristic fallback: lengths, bounds and energy accounting *)

Module HeuristicFacts.
Import PyFacts Optimization.

Lemma shave_peaks_length avg shift loads e :
  length (fst (shave_peaks avg shift loads e)) = length loads.
Proof.
  revert e. induction loads as [|l rest IH]; intro e; simpl; [reflexivity|].
  destruct (Qltb (avg * (12 # 10)) l).
  - specialize (IH (e + l * shift)).
    destruct (shave_peaks avg shift rest (e + l * shift)). simpl in *. lia.
  - specialize (IH e).
    destruct (shave_peaks avg shift rest e). simpl in *. lia.
Qed.

Lemma fill_valleys_length avg opt e :
  length (fst (fill_valleys avg opt e)) = length opt.
Proof.
  revert e. induction opt as [|o rest IH]; intro e; simpl; [reflexivity|].
  destruct (Qltb o (avg * (8 # 10)) && Qltb 0 e).
  - specialize (IH (e - min2 e (avg - o))).
    destruct (fill_valleys avg rest (e - min2 e (avg - o))). simpl in *. lia.
  - specialize (IH e).
    destruct (fill_valleys avg rest e). simpl in *. lia.
Qed.

(** A shaved hour never rises above a positive bound of the input. *)
Lemma shaved_le (l shift b : Q) :
  0 < shift -> shift <= 1 -> 0 < b -> l <= b -> l - l * shift <= b.
Proof.
  intros Hs0 Hs1 Hb Hl.
  destruct (Qlt_le_dec l 0) as [Hneg|Hpos].
  - assert (l * (1 - shift) <= 0) by nra. lra.
  - assert (0 <= l * shift) by nra. lra.
Qed.

Lemma shave_peaks_bound avg shift loads e b :
  0 < shift -> shift <= 1 -> 0 < b ->
  Forall (fun x => x <= b) loads ->
  Forall (fun x => x <= b) (fst (shave_peaks avg shift loads e)).
Proof.
  intros Hs0 Hs1 Hb Hall. revert e.
  induction Hall as [|l rest Hl Hall IH]; intro e; simpl; [constructor|].
  destruct (Qltb (avg * (12 # 10)) l).
  - specialize (IH (e + l * shift)).
    destruct (shave_peaks avg shift rest (e + l * shift)). simpl in *.
    constructor; [now apply shaved_le|assumption].
  - specialize (IH e).
    destruct (shave_peaks avg shift rest e). simpl in *.
    constructor; assumption.
Qed.

(** A filled hour ends at most at the mean. *)
Lemma fill_valleys_bound avg opt e b :
  avg <= b ->
  Forall (fun x => x <= b) opt ->
  Forall (fun x => x <= b) (fst (fill_valleys avg opt e)).
Proof.
  intros Havg Hall. revert e.
  induction Hall as [|o rest Ho Hall IH]; intro e; simpl; [constructor|].
  destruct (Qltb o (avg * (8 # 10)) && Qltb 0 e).
  - specialize (IH (e - min2 e (avg - o))).
    destruct (fill_valleys avg rest (e - min2 e (avg - o))). simpl in *.
    constructor; [|assumption].
    pose proof (min2_le_r e (avg - o)). lra.
  - specialize (IH e).
    destruct (fill_valleys avg rest e). simpl in *.
    constructor; assumption.
Qed.

(** Energy accounting of pass 1: what leaves the profile enters the pool. *)
Lemma shave_peaks_account avg shift loads e :
  Py.sum (fst (shave_peaks avg shift loads e))
    + snd (shave_peaks avg shift loads e) == Py.sum loads + e.
Proof.
  revert e. induction loads as [|l rest IH]; intro e; simpl.
  - rewrite sum_nil. lra.
  - destruct (Qltb (avg * (12 # 10)) l).
    + specialize (IH (e + l * shift)).
      destruct (shave_peaks avg shift rest (e + l * shift)). simpl in *.
      rewrite !sum_cons. lra.
    + specialize (IH e).
      destruct (shave_peaks avg shift rest e). simpl in *.
      rewrite !sum_cons. lra.
Qed.

(** Energy accounting of pass 2: what leaves the pool enters the profile. *)
Lemma fill_valleys_account avg opt e :
  Py.sum (fst (fill_valleys avg opt e))
    + snd (fill_valleys avg opt e) == Py.sum opt + e.
Proof.
  revert e. induction opt as [|o rest IH]; intro e; simpl.
  - rewrite sum_nil. lra.
  - destruct (Qltb o (avg * (8 # 10)) && Qltb 0 e).
    + specialize (IH (e - min2 e (avg - o))).
      destruct (fill_valleys avg rest (e - min2 e (avg - o))). simpl in *.
      rewrite !sum_cons. lra.
    + specialize (IH e).
      destruct (fill_valleys avg rest e). simpl in *.
      rewrite !sum_cons. lra.
Qed.

(** The optimized profile and the pool left in [excess] together carry the
    original energy: the profile alone conserves it exactly when the pool
    ends empty. *)
Lemma heuristic_passes_account (original : list Q) (shift : Q) :
  Py.sum (fst (heuristic_passes original shift))
    + snd (heuristic_passes original shift) == Py.sum original.
Proof.
  unfold heuristic_passes.
  pose proof (shave_peaks_account (mean original) shift original 0) as H1.
  destruct (shave_peaks (mean original) shift original 0) as [opt e].
  simpl in H1.
  pose proof (fill_valleys_account (mean original) opt e) as H2.
  lra.
Qed.

Lemma heuristic_passes_length (original : list Q) (shift : Q) :
  length (fst (heuristic_passes original shift)) = length original.
Proof.
  unfold heuristic_passes.
  pose proof (shave_peaks_length (mean original) shift original 0) as H1.
  destruct (shave_peaks (mean original) shift original 0) as [opt e].
  simpl in H1. rewrite fill_valleys_length. exact H1.
Qed.

Lemma heuristic_passes_bound (original : list Q) (shift m : Q) :
  0 < shift -> shift <= 1 -> 0 < m ->
  Py.max original = Ok m ->
  Forall (fun x => x <= m) (fst (heuristic_passes original shift)).
Proof.
  intros Hs0 Hs1 Hm Hmax.
  pose proof (max_upper _ _ Hmax) as Hup.
  assert (Hne : original <> []) by (destruct original; [discriminate|congruence]).
  unfold heuristic_passes.
  pose proof (shave_peaks_bound (mean original) shift original 0 m
                Hs0 Hs1 Hm Hup) as H1.
  destruct (shave_peaks (mean original) shift original 0) as [opt e].
  simpl in H1. apply fill_valleys_bound; [|exact H1].
  now apply mean_le_bound.
Qed.

End HeuristicFacts.

(** ** Rounding is monotone *)

Module RoundFacts.
Import PyFacts.

Lemma round_half_even_range (x : Q) :
  (Qfloor x <= round_half_even x <= Qfloor x + 1)%Z.
Proof.
  unfold round_half_even.
  destruct (Qltb (x - inject_Z (Qfloor x)) (1 # 2)); [lia|].
  destruct (Qltb (1 # 2) (x - inject_Z (Qfloor x))); [lia|].
  destruct (Z.even (Qfloor x)); lia.
Qed.

Lemma round_half_even_mono (x y : Q) :
  x <= y -> (round_half_even x <= round_half_even y)%Z.
Proof.
  intro Hxy.
  pose proof (Qfloor_resp_le x y Hxy) as Hf.
  pose proof (round_half_even_range x) as Rx.
  pose proof (round_half_even_range y) as Ry.
  destruct (Z.eq_dec (Qfloor x) (Qfloor y)) as [E|NE]; [|lia].
  clear Rx Ry Hf. unfold round_half_even. rewrite <- E.
  set (f := Qfloor x) in *.
  destruct (Qltb (x - inject_Z f) (1 # 2)) eqn:X1.
  - destruct (Qltb (y - inject_Z f) (1 # 2)); [lia|].
    destruct (Qltb (1 # 2) (y - inject_Z f)); [lia|].
    destruct (Z.even f); lia.
  - apply Qltb_ge in X1.
    destruct (Qltb (y - inject_Z f) (1 # 2)) eqn:Y1.
    { apply Qltb_lt in Y1. lra. }
    destruct (Qltb (1 # 2) (x - inject_Z f)) eqn:X2.
    + apply Qltb_lt in X2.
      destruct (Qltb (1 # 2) (y - inject_Z f)) eqn:Y2; [lia|].
      apply Qltb_ge in Y2. lra.
    + destruct (Qltb (1 # 2) (y - inject_Z f)); [destruct (Z.even f); lia|].
      lia.
Qed.

Lemma round2_mono (x y : Q) : x <= y -> round2 x <= round2 y.
Proof.
  intro Hxy. unfold round2.
  assert (H : (round_half_even (x * 100) <= round_half_even (y * 100))%Z).
  { apply round_half_even_mono. lra. }
  rewrite Zle_Qle in H.
  unfold Qdiv. apply Qmult_le_compat_r; [exact H|]. discriminate.
Qed.

End RoundFacts.

(** ** The linear program: a feasible point below the original peak *)

Module LpFacts.
Import PyFacts Optimization.

(** The lower bound the constraints put on hour [i]. *)
Definition lower_bounds (original : list Q) (shift : Q) : list Q :=
  map (fun o => Qmax 0 (o * (1 - shift))) original.

(** Moving every hour the fraction [t] of its way up to the cap [m]. *)
Definition level (t m : Q) (ls : list Q) : list Q :=
  map (fun l => l + t * (m - l)) ls.

Lemma sum_level (t m : Q) (ls : list Q) :
  Py.sum (level t m ls)
  == Py.sum ls + t * (inject_Z (Z.of_nat (length ls)) * m - Py.sum ls).
Proof.
  induction ls as [|l ls IH].
  - unfold level. simpl. rewrite sum_nil.
    change (inject_Z (Z.of_nat 0)) with 0. ring.
  - unfold level in *. cbn [map length]. rewrite !sum_cons, IH.
    rewrite Nat2Z.inj_succ. unfold Z.succ. rewrite inject_Z_plus.
    change (inject_Z 1) with 1. ring.
Qed.

Lemma lower_bounds_length original shift :
  length (lower_bounds original shift) = length original.
Proof. unfold lower_bounds. apply length_map. Qed.

Lemma level_length t m ls : length (level t m ls) = length ls.
Proof. unfold level. apply length_map. Qed.

Lemma lower_bound_le_cap (o shift m : Q) :
  0 < shift -> shift <= 1 -> 0 < m -> o <= m ->
  Qmax 0 (o * (1 - shift)) <= m.
Proof.
  intros Hs0 Hs1 Hm Ho.
  apply Q.max_lub; [lra|].
  pose proof (HeuristicFacts.shaved_le o shift m Hs0 Hs1 Hm Ho). lra.
Qed.

(** Any point that meets the constraints carries at least the energy of the
    lower bounds. *)
Lemma lower_bounds_sum_le original shift x :
  Forall (fun xi => 0 <= xi) x ->
  Forall2 (fun o xi => o * (1 - shift) <= xi) original x ->
  Py.sum (lower_bounds original shift) <= Py.sum x.
Proof.
  intros Hpos H2. revert Hpos.
  induction H2 as [|o xi original x Hox H2 IH]; intro Hpos.
  - simpl. lra.
  - inversion Hpos; subst. unfold lower_bounds in *. cbn [map].
    rewrite !sum_cons. specialize (IH H3).
    assert (Qmax 0 (o * (1 - shift)) <= xi) by (apply Q.max_lub; assumption).
    lra.
Qed.

Lemma level_feasible_pointwise original shift t m :
  0 < shift -> shift <= 1 -> 0 < m -> 0 <= t -> t <= 1 ->
  Forall (fun o => o <= m) original ->
  let y := level t m (lower_bounds original shift) in
  Forall (fun yi => 0 <= yi) y /\
  Forall (fun yi => yi <= m) y /\
  Forall2 (fun o yi => o * (1 - shift) <= yi) original y.
Proof.
  intros Hs0 Hs1 Hm Ht0 Ht1 Hall. cbv zeta.
  induction Hall as [|o original Ho Hall IH].
  - simpl. repeat split; constructor.
  - destruct IH as (IH1 & IH2 & IH3).
    unfold level, lower_bounds in *. cbn [map].
    pose proof (lower_bound_le_cap o shift m Hs0 Hs1 Hm Ho) as Hcap.
    pose proof (Q.le_max_l 0 (o * (1 - shift))) as Hl0.
    pose proof (Q.le_max_r 0 (o * (1 - shift))) as Hlo.
    set (l := Qmax 0 (o * (1 - shift))) in *.
    assert (0 <= t * (m - l)) by nra.
    assert (t * (m - l) <= m - l) by nra.
    repeat split; constructor; try assumption; lra.
Qed.

(** Whenever the program is feasible at all, it has a feasible point whose
    peak is the original peak. *)
Lemma feasible_below_original_peak original shift m x pk :
  0 < shift -> shift <= 1 -> 0 < m ->
  Py.max original = Ok m ->
  lp_feasible original shift x pk ->
  exists y, lp_feasible original shift y m.
Proof.
  intros Hs0 Hs1 Hm Hmax (Hlen & Hpos & Hpk & Hle & Hsum & Hlow).
  pose proof (max_upper _ _ Hmax) as Hup.
  pose proof (lower_bounds_sum_le original shift x Hpos Hlow) as HL.
  pose proof (sum_le_bound original m Hup) as HT.
  rewrite Hsum in HL.
  set (n := inject_Z (Z.of_nat (length original))) in *.
  set (L := Py.sum (lower_bounds original shift)) in *.
  set (T := Py.sum original) in *.
  assert (Hsumy : forall t,
             Py.sum (level t m (lower_bounds original shift))
             == L + t * (n * m - L)).
  { intro t. rewrite sum_level, lower_bounds_length. reflexivity. }
  destruct (Qeq_dec (n * m - L) 0) as [Hz|Hnz].
  - exists (level 0 m (lower_bounds original shift)).
    destruct (level_feasible_pointwise original shift 0 m) as (Y1 & Y2 & Y3);
      try assumption; try lra.
    unfold lp_feasible. rewrite level_length, lower_bounds_length.
    repeat split; try assumption; try lra.
    rewrite Hsumy. fold T. lra.
  - assert (Hd : 0 < n * m - L) by lra.
    set (t := (T - L) / (n * m - L)).
    assert (Ht : t * (n * m - L) == T - L) by (unfold t; field; exact Hnz).
    assert (Ht0 : 0 <= t).
    { unfold t. apply Qle_shift_div_l; [exact Hd|]. lra. }
    assert (Ht1 : t <= 1).
    { unfold t. apply Qle_shift_div_r; [exact Hd|]. lra. }
    exists (level t m (lower_bounds original shift)).
    destruct (level_feasible_pointwise original shift t m) as (Y1 & Y2 & Y3);
      try assumption.
    unfold lp_feasible. rewrite level_length, lower_bounds_length.
    repeat split; try assumption; try lra.
    rewrite Hsumy. fold T. lra.
Qed.

(** An optimal outcome is pointwise below the original peak. *)
Lemma lp_optimal_bound original shift m out :
  0 < shift -> shift <= 1 -> 0 < m ->
  Py.max original = Ok m ->
  lp_optimal original shift out ->
  length (x_value out) = length original /\
  Forall (fun xi => xi <= m) (x_value out).
Proof.
  intros Hs0 Hs1 Hm Hmax [Hfeas Hopt].
  destruct (feasible_below_original_peak original shift m _ _
              Hs0 Hs1 Hm Hmax Hfeas) as [y Hy].
  specialize (Hopt y m Hy).
  destruct Hfeas as (Hlen & _ & _ & Hle & _).
  split; [exact Hlen|].
  eapply Forall_impl; [|exact Hle]. cbv beta. intros a Ha. lra.
Qed.

Lemma lp_optimal_conserves original shift out :
  lp_optimal original shift out ->
  Py.sum (x_value out) == Py.sum original.
Proof. intros [(_ & _ & _ & _ & Hsum & _) _]. exact Hsum. Qed.

End LpFacts.

(** ** The schedule optimizer: peak and energy *)

Module ScheduleProps.
Import PyFacts HeuristicFacts RoundFacts LpFacts Optimization.

Lemma make_result_ok name original optimized m :
  Py.max original = Ok m -> 0 < m ->
  length optimized = length original ->
  Forall (fun x => x <= m) optimized ->
  exists r pm,
    make_result name original optimized = Ok r /\
    method r = name /\
    original_load r = original /\
    optimized_load r = optimized /\
    Py.max optimized = Ok pm /\
    pm <= m /\
    optimized_peak r <= original_peak r.
Proof.
  intros Hmax Hm Hlen Hall.
  assert (Hne : optimized <> []).
  { destruct original; [discriminate|]. destruct optimized; [discriminate|congruence]. }
  destruct (max_defined optimized Hne) as [pm Hpm].
  pose proof (max_le_bound _ _ _ Hpm Hall) as Hle.
  unfold make_result. rewrite Hmax, Hpm. cbn [bind]. unfold div.
  destruct (Qeq_bool m 0) eqn:E.
  { apply Qeq_bool_iff in E. lra. }
  cbn [bind]. eexists. exists pm.
  repeat split; try reflexivity; try assumption.
  cbn [optimized_peak original_peak]. now apply round2_mono.
Qed.

(** The heuristic path returns, and its peak is at most the original. *)
Lemma heuristic_peak_le hourly_profile shift m :
  0 < shift -> shift <= 1 ->
  Py.max (map load hourly_profile) = Ok m -> 0 < m ->
  exists r pm,
    _heuristic_optimization hourly_profile shift = Ok r /\
    original_load r = map load hourly_profile /\
    Py.max (optimized_load r) = Ok pm /\
    pm <= m /\
    optimized_peak r <= original_peak r.
Proof.
  intros Hs0 Hs1 Hmax Hm. unfold _heuristic_optimization.
  destruct (make_result_ok "Heuristic (Peak Shaving)"
              (map load hourly_profile)
              (fst (heuristic_passes (map load hourly_profile) shift)) m)
    as (r & pm & H1 & _ & H3 & H4 & H5 & H6 & H7); try assumption.
  - apply heuristic_passes_length.
  - now apply heuristic_passes_bound.
  - exists r, pm. rewrite H4. repeat split; assumption.
Qed.

(** A solver that recognises a flat, non-negative profile, which is its own
    optimum, and reports failure on anything else. *)
Definition flat_solver : Solver :=
  fun original shift =>
    match original with
    | c :: rest =>
        if forallb (Qeq_bool c) rest && Qle_bool 0 c && Qle_bool 0 shift
        then {| status := 1; x_value := original; peak_value := c |}
        else {| status := 0; x_value := []; peak_value := 0 |}
    | [] => {| status := 0; x_value := []; peak_value := 0 |}
    end.

Lemma sum_ge_bound (xs : list Q) (b : Q) :
  Forall (fun x => b <= x) xs ->
  inject_Z (Z.of_nat (length xs)) * b <= Py.sum xs.
Proof.
  induction 1 as [|x xs Hx Hall IH].
  - rewrite sum_nil. change (inject_Z (Z.of_nat (length []))) with 0. lra.
  - rewrite sum_cons. cbn [length]. rewrite Nat2Z.inj_succ.
    unfold Z.succ. rewrite inject_Z_plus.
    change (inject_Z 1) with 1.
    set (n := inject_Z (Z.of_nat (length xs))) in *.
    setoid_replace ((n + 1) * b) with (n * b + b) by ring. lra.
Qed.

Lemma flat_solver_contract : solver_contract (Some flat_solver).
Proof.
  intros solve Hsolve original shift Hstatus.
  injection Hsolve as <-. unfold flat_solver in *.
  destruct original as [|c rest]; [discriminate|].
  destruct (forallb (Qeq_bool c) rest && Qle_bool 0 c && Qle_bool 0 shift)
    eqn:E; [|discriminate].
  apply andb_true_iff in E as [E Hshift].
  apply andb_true_iff in E as [Hflat Hc].
  apply Qle_bool_iff in Hshift. apply Qle_bool_iff in Hc.
  assert (Hall : Forall (fun x => x == c) (c :: rest)).
  { constructor; [reflexivity|].
    apply Forall_forall. intros x Hx.
    rewrite forallb_forall in Hflat. specialize (Hflat x Hx).
    apply Qeq_bool_iff in Hflat. symmetry. exact Hflat. }
  split.
  - cbn [x_value peak_value]. unfold lp_feasible.
    repeat split; try reflexivity; try assumption.
    + eapply Forall_impl; [|exact Hall]. cbv beta. intros a Ha. lra.
    + eapply Forall_impl; [|exact Hall]. cbv beta. intros a Ha. lra.
    + clear Hflat Hstatus. induction Hall as [|a l Ha Hall IH]; constructor.
      * assert (0 <= a * shift) by nra. lra.
      * exact IH.
  - intros x pk (Hlen & _ & _ & Hle & Hsum & _). cbn [peak_value].
    pose proof (sum_le_bound x pk Hle) as Hup.
    assert (Hlow : Forall (fun a => c <= a) (c :: rest)).
    { eapply Forall_impl; [|exact Hall]. cbv beta. intros a Ha. lra. }
    apply sum_ge_bound in Hlow.
    rewrite Hlen, Hsum in Hup.
    assert (Hn : 0 < inject_Z (Z.of_nat (length (c :: rest)))).
    { apply inject_nat_pos. simpl. lia. }
    set (n := inject_Z (Z.of_nat (length (c :: rest)))) in *. nra.
Qed.

(** C3.  For every solver environment that honours the solver contract
    (PuLP absent, failing, or optimal), every shift fraction in (0, 1] and
    every load profile whose original peak is strictly positive,
    [optimize_charging_schedule] returns a result whose optimized peak does
    not exceed the original peak: [max(optimized_load) <= max(original_load)],
    and likewise for the rounded [optimized_peak] and [original_peak]
    fields.  This covers the LP path and the heuristic path. *)
Theorem optimized_peak_never_exceeds_original
  (pulp : option Solver) (hourly_profile : list HourlyRow) (shift m : Q) :
  solver_contract pulp ->
  0 < shift -> shift <= 1 ->
  Py.max (map load hourly_profile) = Ok m -> 0 < m ->
  exists r pm,
    optimize_charging_schedule pulp hourly_profile shift = Ok r /\
    original_load r = map load hourly_profile /\
    Py.max (optimized_load r) = Ok pm /\
    pm <= m /\
    optimized_peak r <= original_peak r.
Proof.
  intros Hcontract Hs0 Hs1 Hmax Hm.
  unfold optimize_charging_schedule.
  destruct pulp as [solve|]; [|now apply heuristic_peak_le].
  destruct (status (solve (map load hourly_profile) shift) =? 1)%Z eqn:E;
    [|now apply heuristic_peak_le].
  apply Z.eqb_eq in E.
  pose proof (Hcontract solve eq_refl _ _ E) as Hopt.
  destruct (lp_optimal_bound _ _ m _ Hs0 Hs1 Hm Hmax Hopt) as [Hlen Hall].
  destruct (make_result_ok "Linear Programming (PuLP)"
              (map load hourly_profile)
              (x_value (solve (map load hourly_profile) shift)) m)
    as (r & pm & H1 & _ & H3 & H4 & H5 & H6 & H7); try assumption.
  exists r, pm. rewrite H4. repeat split; assumption.
Qed.

Definition flat_profile : list HourlyRow :=
  [ {| hour_of_day := 0; load := 10; load_pct := Some 50 |};
    {| hour_of_day := 1; load := 10; load_pct := Some 50 |} ].

Lemma optimized_peak_never_exceeds_original_witness :
  exists r pm,
    optimize_charging_schedule (Some flat_solver) flat_profile (3 # 10) = Ok r /\
    original_load r = map load flat_profile /\
    Py.max (optimized_load r) = Ok pm /\
    pm <= 10 /\
    optimized_peak r <= original_peak r.
Proof.
  apply (optimized_peak_never_exceeds_original
           (Some flat_solver) flat_profile (3 # 10) 10).
  - exact flat_solver_contract.
  - reflexivity.
  - discriminate.
  - reflexivity.
  - reflexivity.
Defined.

(** A day with one spike and no valley: 23 hours at 10 and hour 12 at 20. *)
Definition spike_loads : list Q :=
  repeat 10 12 ++ [20] ++ repeat 10 11.

Definition spike_profile : list HourlyRow :=
  map (fun hl => to_record (Py.sum spike_loads)
                     (inject_Z (Z.of_nat (fst hl)), snd hl))
      (combine (seq 0 24) spike_loads).

(** C2 (evaluation at the failing input).  Without PuLP, on the spike
    profile with the default shift fraction 0.3, the returned schedule
    carries 244 units of the original 250: the 6 units shaved from hour 12
    find no valley below 0.8 times the mean, stay in [excess], and the
    result has no field that reports them. *)
Theorem heuristic_drops_unabsorbed_excess :
  exists r,
    optimize_charging_schedule None spike_profile (3 # 10) = Ok r /\
    method r = "Heuristic (Peak Shaving)"%string /\
    Py.sum (original_load r) == 250 /\
    Py.sum (optimized_load r) == 244 /\
    snd (heuristic_passes (original_load r) (3 # 10)) == 6 /\
    ~ Py.sum (optimized_load r) == Py.sum (original_load r).
Proof.
  eexists. split; [vm_compute; reflexivity|].
  repeat split; try (vm_compute; reflexivity).
  vm_compute. discriminate.
Qed.

End ScheduleProps.

(** ** Tables: columns and grouping *)

Module PandasFacts.
Import PyFacts Pandas.

Lemma index_of_has_column name df :
  has_column name df = true <-> exists i, index_of name (columns df) = Some i.
Proof.
  unfold has_column. induction (columns df) as [|c cols IH]; simpl.
  - split; [discriminate|]. intros [i H]. discriminate.
  - destruct (String.eqb name c); simpl.
    + split; eauto.
    + rewrite IH. split; intros [i H].
      * rewrite H. simpl. eauto.
      * destruct (index_of name cols); [eauto|discriminate].
Qed.

Lemma has_column_In name df :
  has_column name df = true <-> In name (columns df).
Proof.
  unfold has_column. rewrite existsb_exists. split.
  - intros (c & Hin & Heq). apply String.eqb_eq in Heq. now subst.
  - intro Hin. exists name. split; [assumption|apply String.eqb_refl].
Qed.

Lemma column_defined name df :
  has_column name df = true ->
  exists xs, column name df = Ok xs /\ length xs = length (rows df).
Proof.
  intro H. apply index_of_has_column in H as [i Hi].
  unfold column. rewrite Hi. eexists. split; [reflexivity|].
  apply length_map.
Qed.

Lemma column_missing name df :
  has_column name df = false -> column name df = Raise (KeyError name).
Proof.
  intro H. unfold column.
  destruct (index_of name (columns df)) eqn:E; [|reflexivity].
  assert (has_column name df = true) by (apply index_of_has_column; eauto).
  congruence.
Qed.


Definition has_key (h : Q) (pairs : list (Q * Q)) : bool :=
  existsb (fun kv => Qeq_bool (fst kv) h) pairs.


Lemma Qeq_bool_congr (k k' h : Q) :
  Qeq_bool k k' = true -> Qeq_bool k h = Qeq_bool k' h.
Proof.
  intro E. apply Qeq_bool_iff in E.
  destruct (Qeq_bool k h) eqn:A, (Qeq_bool k' h) eqn:B; try reflexivity.
  - apply Qeq_bool_iff in A. apply Qeq_bool_neq in B. exfalso. apply B.
    now rewrite <- E.
  - apply Qeq_bool_iff in B. apply Qeq_bool_neq in A. exfalso. apply A.
    now rewrite E.
Qed.


Lemma has_key_group_add h k v groups :
  has_key h (group_add k v groups) = Qeq_bool k h || has_key h groups.
Proof.
  unfold has_key.
  induction groups as [|[k' v'] rest IH]; simpl.
  - reflexivity.
  - destruct (Qeq_bool k k') eqn:E.
    + simpl. rewrite (Qeq_bool_congr _ _ h E).
      destruct (Qeq_bool k' h); reflexivity.
    + destruct (Qltb k k'); simpl.
      * reflexivity.
      * rewrite IH. destruct (Qeq_bool k h), (Qeq_bool k' h); reflexivity.
Qed.




Lemma fold_group_add_has_key h pairs groups :
  has_key h (fold_left (fun g kv => group_add (fst kv) (snd kv) g) pairs groups)
  = has_key h groups || has_key h pairs.
Proof.
  revert groups. induction pairs as [|kv rest IH]; intro groups; simpl.
  - now rewrite orb_false_r.
  - rewrite IH, has_key_group_add. unfold has_key. simpl.
    destruct (Qeq_bool (fst kv) h),
      (existsb (fun kv0 => Qeq_bool (fst kv0) h) groups); reflexivity.
Qed.



Lemma groupby_sum_has_key h pairs :
  has_key h (groupby_sum pairs) = has_key h pairs.
Proof. unfold groupby_sum. now rewrite fold_group_add_has_key. Qed.






Lemma groupby_sum_nonempty pairs : pairs <> [] -> groupby_sum pairs <> [].
Proof.
  destruct pairs as [|kv rest]; [congruence|]. intros _ Hnil.
  pose proof (groupby_sum_has_key (fst kv) (kv :: rest)) as H.
  rewrite Hnil in H. unfold has_key in H. simpl in H.
  rewrite Qeq_bool_refl in H. discriminate.
Qed.

End PandasFacts.

(** ** [analyze_load_profile] *)

Module ProfileProps.
Import PyFacts Pandas PandasFacts Optimization OptimizationPipeline.

(** With the hour column present the per-row readings exist, one per row,
    and their keys are the hour column. *)
Lemma readings_defined df :
  has_column "hour_of_day" df = true ->
  exists pairs,
    readings df = Ok pairs /\
    length pairs = length (rows df) /\
    column "hour_of_day" df = Ok (map fst pairs).
Proof.
  intro H. destruct (column_defined _ _ H) as (hours & Hh & Hlen).
  unfold readings. rewrite Hh. cbn [bind].
  destruct (energy_col df) as [c|] eqn:E.
  - unfold energy_col in E. apply find_some in E as [_ Hc].
    destruct (column_defined _ _ Hc) as (energy & He & Hlen').
    rewrite He. cbn [bind]. eexists. split; [reflexivity|]. split.
    + rewrite length_combine. lia.
    + f_equal. clear - Hlen Hlen'. rewrite <- Hlen' in Hlen. clear Hlen'.
      revert energy Hlen. induction hours as [|h hs IH]; intros [|e es] Hl;
        simpl in *; try discriminate; try reflexivity.
      f_equal. apply IH. lia.
  - eexists. split; [reflexivity|]. split.
    + now rewrite length_map.
    + f_equal. rewrite map_map. simpl. now rewrite map_id.
Qed.

(** C8 (as the code has it).  [analyze_load_profile] never raises for a
    table that lacks the [hour_of_day] column: it returns [None]; and [None]
    is returned if and only if that column is absent. *)
Theorem analyze_returns_none_iff_hour_column_absent (df : DataFrame) :
  analyze_load_profile df = Ok None <-> ~ In "hour_of_day"%string (columns df).
Proof.
  rewrite <- has_column_In. unfold analyze_load_profile.
  destruct (has_column "hour_of_day" df) eqn:H; cbn [negb].
  - split; [|intro C; exfalso; now apply C].
    intro E. exfalso.
    destruct (hourly_frame df) as [hourly|e]; cbn [bind] in E; [|discriminate].
    destruct (idxmax hourly); cbn [bind] in E; [|discriminate].
    destruct (idxmin hourly); cbn [bind] in E; discriminate.
  - split; [intros _; discriminate|reflexivity].
Qed.

Definition no_hour_table : DataFrame :=
  {| columns := ["session_id"; "energy_kwh"]%string;
     rows := [(0%Z, [1; 12]); (1%Z, [2; 7])] |}.

(** C8, counterexample to the claim as stated: a table without the hour
    column makes the function return [None]; nothing is raised. *)
Lemma missing_hour_column_is_not_raised :
  ~ In "hour_of_day"%string (columns no_hour_table) /\
  analyze_load_profile no_hour_table = Ok None /\
  ~ exists e, analyze_load_profile no_hour_table = Raise e.
Proof.
  split; [|split].
  - simpl. intros [H|[H|[]]]; discriminate.
  - reflexivity.
  - intros [e H]. vm_compute in H. discriminate.
Qed.

Definition evening_sessions : DataFrame :=
  {| columns := ["hour_of_day"; "kwh"]%string;
     rows := [(0%Z, [18; 12]); (1%Z, [19; 7]); (2%Z, [18; 5])] |}.

Lemma make_result_loads name original optimized r :
  make_result name original optimized = Ok r ->
  original_load r = original /\ optimized_load r = optimized.
Proof.
  unfold make_result. intro H.
  destruct (Py.max original); cbn [bind] in H; [|discriminate].
  destruct (Py.max optimized); cbn [bind] in H; [|discriminate].
  destruct (div _ _); cbn [bind] in H; [|discriminate].
  injection H as <-. split; reflexivity.
Qed.

(** Whatever path the optimizer takes, the schedule it returns carries the
    loads of the profile it was given, one per entry. *)
Lemma optimize_original_load pulp profile shift r :
  optimize_charging_schedule pulp profile shift = Ok r ->
  original_load r = map load profile.
Proof.
  unfold optimize_charging_schedule, _heuristic_optimization. intro H.
  destruct pulp as [solve|].
  - destruct (status (solve (map load profile) shift) =? 1)%Z;
      now apply make_result_loads in H.
  - now apply make_result_loads in H.
Qed.

(** Bars over the 24 hours cannot be drawn from two or more loads unless
    there are 24 of them. *)
Lemma plot_needs_24_loads r :
  (2 <= length (original_load r))%nat ->
  length (original_load r) <> 24%nat ->
  plot_load_comparison r
  = Raise (ValueError
             "shape mismatch: objects cannot be broadcast to a single shape").
Proof.
  intros H2 H24. unfold plot_load_comparison, bar. cbv zeta.
  rewrite !length_map, !length_seq.
  destruct (24 =? length (original_load r))%nat eqn:E24.
  - apply Nat.eqb_eq in E24. congruence.
  - destruct (length (original_load r) =? 1)%nat eqn:E1.
    + apply Nat.eqb_eq in E1. lia.
    + reflexivity.
Qed.

(** C5 (evaluation at the failing input).  Sessions in hours 18 and 19
    only: [analyze_load_profile] returns a profile of two entries, for hours
    18 and 19 with loads 17 and 7; the other 22 hours are not present with
    load 0, they are absent.  The rest of the pipeline expects all 24: the
    schedule built from this profile has two loads, whatever the solver
    environment, and [plot_load_comparison], which lays the loads over
    [range(24)], raises on it, so that steps 3 to 5 of
    [run_optimization_pipeline] fail on this table. *)
Theorem absent_hours_are_not_filled :
  exists p,
    analyze_load_profile evening_sessions = Ok (Some p) /\
    length (hourly_profile p) = 2%nat /\
    map hour_of_day (hourly_profile p) = [18; 19] /\
    Forall2 Qeq (map load (hourly_profile p)) [17; 7] /\
    (~ exists e, In e (hourly_profile p) /\ hour_of_day e == 0) /\
    (forall pulp r,
       optimize_charging_schedule pulp (hourly_profile p) (3 # 10) = Ok r ->
       length (original_load r) = 2%nat /\
       exists msg, plot_load_comparison r = Raise (ValueError msg)) /\
    (forall pulp,
       exists e, analyze_optimize_plot pulp evening_sessions = Raise e) /\
    (exists msg,
       analyze_optimize_plot None evening_sessions = Raise (ValueError msg)).
Proof.
  assert (Ha : exists p,
             analyze_load_profile evening_sessions = Ok (Some p) /\
             map hour_of_day (hourly_profile p) = [18; 19] /\
             map load (hourly_profile p) = [17; 7]).
  { eexists. split; [vm_compute; reflexivity|]. split; reflexivity. }
  destruct Ha as (p & Hp & Hhours & Hloads).
  assert (Hlen : length (hourly_profile p) = 2%nat).
  { rewrite <- (length_map load), Hloads. reflexivity. }
  assert (Hplot : forall pulp r,
            optimize_charging_schedule pulp (hourly_profile p) (3 # 10) = Ok r ->
            length (original_load r) = 2%nat /\
            plot_load_comparison r
            = Raise (ValueError
                "shape mismatch: objects cannot be broadcast to a single shape")).
  { intros pulp r Hr. apply optimize_original_load in Hr.
    assert (Hl : length (original_load r) = 2%nat) by (now rewrite Hr, Hloads).
    split; [exact Hl|]. apply plot_needs_24_loads; lia. }
  assert (Hfail : forall pulp,
            exists e, analyze_optimize_plot pulp evening_sessions = Raise e).
  { intro pulp. unfold analyze_optimize_plot. rewrite Hp. cbn [bind].
    destruct (optimize_charging_schedule pulp _ (3 # 10)) as [r|e] eqn:Hr;
      cbn [bind]; [|eauto].
    destruct (Hplot pulp r Hr) as [_ Hraise]. rewrite Hraise. cbn [bind]. eauto. }
  exists p. split; [exact Hp|]. split; [exact Hlen|]. split; [exact Hhours|].
  split; [rewrite Hloads; repeat constructor; reflexivity|].
  split.
  { intros (e & Hin & He).
    assert (Hh : In (hour_of_day e) (map hour_of_day (hourly_profile p)))
      by (now apply in_map).
    rewrite Hhours in Hh. destruct Hh as [Hh|[Hh|[]]]; rewrite <- Hh in He;
      discriminate. }
  split; [|split].
  - intros pulp r Hr. destruct (Hplot pulp r Hr) as [Hl Hraise].
    split; [exact Hl|]. eexists. exact Hraise.
  - exact Hfail.
  - eexists. vm_compute. reflexivity.
Qed.

End ProfileProps.

(** ** [run_kmeans]: the candidate range and the selection *)

Module ClusteringProps.
Import PyFacts Pandas PandasFacts Clustering.

(** Invariant of the scan: [best] is the first index of the maximum of the
    prefix already read. *)
Lemma argmax_from_spec (pre xs : list Q) (best : nat) (m : Q) :
  (best < length pre)%nat ->
  nth best (pre ++ xs) 0 = m ->
  (forall j, (j < length pre)%nat -> nth j (pre ++ xs) 0 <= m) ->
  (forall j, (j < best)%nat -> nth j (pre ++ xs) 0 < m) ->
  let r := argmax_from best m (length pre) xs in
  (r < length (pre ++ xs))%nat /\
  (forall j, (j < length (pre ++ xs))%nat ->
             nth j (pre ++ xs) 0 <= nth r (pre ++ xs) 0) /\
  (forall j, (j < r)%nat -> nth j (pre ++ xs) 0 < nth r (pre ++ xs) 0).
Proof.
  revert pre best m. induction xs as [|x xs IH]; intros pre best m Hb Hm Hle Hlt.
  - simpl. rewrite app_nil_r in *. rewrite Hm. repeat split; auto.
  - cbn [argmax_from]. cbv zeta.
    assert (Hsplit : pre ++ x :: xs = (pre ++ [x]) ++ xs)
      by (now rewrite <- app_assoc).
    assert (Hx : nth (length pre) (pre ++ x :: xs) 0 = x)
      by (rewrite app_nth2, Nat.sub_diag by lia; reflexivity).
    assert (Hlen : length (pre ++ [x]) = S (length pre))
      by (rewrite length_app; simpl; lia).
    destruct (Qltb m x) eqn:E.
    + apply Qltb_lt in E.
      specialize (IH (pre ++ [x]) (length pre) x).
      rewrite Hlen, <- Hsplit in IH. apply IH.
      * lia.
      * exact Hx.
      * intros j Hj. destruct (Nat.eq_dec j (length pre)) as [->|Hne].
        -- rewrite Hx. lra.
        -- assert (j < length pre)%nat by lia. specialize (Hle j H). lra.
      * intros j Hj. specialize (Hle j Hj). lra.
    + apply Qltb_ge in E.
      specialize (IH (pre ++ [x]) best m).
      rewrite Hlen, <- Hsplit in IH. apply IH.
      * lia.
      * exact Hm.
      * intros j Hj. destruct (Nat.eq_dec j (length pre)) as [->|Hne].
        -- rewrite Hx. exact E.
        -- apply Hle. lia.
      * exact Hlt.
Qed.

(** [np.argmax] returns the first index at which the maximum is attained. *)
Lemma argmax_spec (xs : list Q) :
  xs <> [] ->
  exists i,
    argmax xs = Ok i /\ (i < length xs)%nat /\
    (forall j, (j < length xs)%nat -> nth j xs 0 <= nth i xs 0) /\
    (forall j, (j < i)%nat -> nth j xs 0 < nth i xs 0).
Proof.
  destruct xs as [|x xs]; [congruence|]. intros _.
  exists (argmax_from 0 x 1 xs). split; [reflexivity|].
  apply (argmax_from_spec [x] xs 0%nat x).
  - simpl. lia.
  - reflexivity.
  - intros j Hj. simpl in Hj. assert (j = 0)%nat as -> by lia. simpl. lra.
  - intros j Hj. lia.
Qed.

Lemma K_range_In (n k : nat) :
  In k (K_range n) <-> (2 <= k /\ k < Nat.min 12 n)%nat.
Proof. unfold K_range. rewrite in_seq. lia. Qed.

Section Selection.

Variable fit_silhouette : list (list Q) -> nat -> result Q.

Lemma silhouettes_ok X ks (score : nat -> Q) :
  (forall k, In k ks -> fit_silhouette X k = Ok (score k)) ->
  silhouettes fit_silhouette X ks = Ok (map score ks).
Proof.
  induction ks as [|k ks IH]; intro H; simpl.
  - reflexivity.
  - rewrite (H k (or_introl eq_refl)). cbn [bind].
    rewrite IH by (intros k' Hk'; apply H; now right).
    reflexivity.
Qed.

End Selection.

(** C6 (as the code has it).  For a station table with latitude and
    longitude and N >= 3 rows on which every candidate fit is scored,
    [run_kmeans] evaluates exactly the candidate counts of
    [range(2, min(12, N))], that is 2 up to and including min(11, N-1),
    records the silhouette score of each, and selects the first candidate
    whose score is maximal. *)
Theorem run_kmeans_selects_best_candidate
  (fit_silhouette : list (list Q) -> nat -> result Q)
  (df : DataFrame) (n_clusters : nat) (score : nat -> Q) :
  has_column "latitude" df = true ->
  has_column "longitude" df = true ->
  (3 <= len df)%nat ->
  (forall k, In k (K_range (len df)) ->
     fit_silhouette (restrict ["latitude"; "longitude"]%string df) k
     = Ok (score k)) ->
  exists report,
    run_kmeans fit_silhouette df n_clusters None = Ok (Some report) /\
    (forall k, In k (elbow_k report) <->
               (2 <= k /\ k <= Nat.min 11 (len df - 1))%nat) /\
    elbow_silhouette report = map score (elbow_k report) /\
    In (optimal_k report) (elbow_k report) /\
    (forall k, In k (elbow_k report) -> score k <= score (optimal_k report)) /\
    (forall k, In k (elbow_k report) -> (k < optimal_k report)%nat ->
               score k < score (optimal_k report)).
Proof.
  intros Hlat Hlon Hn Hfit.
  unfold run_kmeans. cbn [filter]. rewrite Hlat, Hlon.
  cbn [length Nat.ltb Nat.leb].
  assert (HX : length (restrict ["latitude"; "longitude"]%string df) = len df).
  { unfold restrict, len. apply length_map. }
  rewrite HX.
  set (ks := K_range (len df)) in *.
  rewrite (silhouettes_ok _ _ ks score Hfit). cbn [bind].
  assert (Hks : ks <> []).
  { unfold ks, K_range. destruct (Nat.min 12 (len df) - 2)%nat eqn:E; [lia|].
    discriminate. }
  assert (Hsne : map score ks <> []).
  { destruct ks; [congruence|discriminate]. }
  destruct (argmax_spec (map score ks) Hsne) as (i & Harg & Hi & Hmax & Hfirst).
  destruct (max_defined (map score ks) Hsne) as [best Hbest].
  rewrite Harg, Hbest. cbn [bind].
  rewrite length_map in Hi, Hmax.
  assert (Hnth : forall j, (j < length ks)%nat ->
                           nth j (map score ks) 0 = score (nth j ks 0%nat)).
  { intros j Hj. rewrite (nth_indep _ 0 (score 0%nat)) by (now rewrite length_map).
    apply map_nth. }
  assert (Hseq : forall j, (j < length ks)%nat -> nth j ks 0%nat = (2 + j)%nat).
  { intros j Hj. unfold ks, K_range in *. rewrite length_seq in Hj.
    now rewrite seq_nth. }
  eexists. split; [reflexivity|].
  cbn [elbow_k elbow_silhouette optimal_k].
  split; [|split; [|split; [|split]]].
  - intro k. unfold ks. rewrite K_range_In. lia.
  - reflexivity.
  - now apply nth_In.
  - intros k Hk. apply In_nth with (d := 0%nat) in Hk as (j & Hj & <-).
    rewrite <- !Hnth by assumption. now apply Hmax.
  - intros k Hk Hlt. apply In_nth with (d := 0%nat) in Hk as (j & Hj & <-).
    rewrite <- !Hnth by assumption. apply Hfirst.
    rewrite !Hseq in Hlt by assumption. lia.
Qed.

(** Thirteen stations on a line, and a score that rises with the count. *)
Definition thirteen_stations : DataFrame :=
  {| columns := ["latitude"; "longitude"]%string;
     rows := map (fun i => (Z.of_nat i, [inject_Z (Z.of_nat i); 77]))
                 (seq 0 13) |}.

Definition rising_score : list (list Q) -> nat -> result Q :=
  fun _ k => Ok (inject_Z (Z.of_nat k)).

Lemma run_kmeans_selects_best_candidate_witness :
  exists report,
    run_kmeans rising_score thirteen_stations 6 None = Ok (Some report) /\
    (forall k, In k (elbow_k report) <->
               (2 <= k /\ k <= Nat.min 11 (len thirteen_stations - 1))%nat) /\
    elbow_silhouette report
      = map (fun k => inject_Z (Z.of_nat k)) (elbow_k report) /\
    In (optimal_k report) (elbow_k report) /\
    (forall k, In k (elbow_k report) ->
       inject_Z (Z.of_nat k) <= inject_Z (Z.of_nat (optimal_k report))) /\
    (forall k, In k (elbow_k report) -> (k < optimal_k report)%nat ->
       inject_Z (Z.of_nat k) < inject_Z (Z.of_nat (optimal_k report))).
Proof.
  apply (run_kmeans_selects_best_candidate rising_score thirteen_stations 6
           (fun k => inject_Z (Z.of_nat k))).
  - reflexivity.
  - reflexivity.
  - vm_compute. lia.
  - intros k _. reflexivity.
Defined.

(** C6, counterexample to the claim as stated: with N = 13 stations the
    claim's upper candidate min(12, N-1) is 12, but the loop stops at 11;
    12 is never evaluated, and the selected count is 11 although the score
    of 12 would be higher. *)
Lemma candidate_twelve_is_never_evaluated :
  len thirteen_stations = 13%nat /\
  Nat.min 12 (len thirteen_stations - 1) = 12%nat /\
  exists report,
    run_kmeans rising_score thirteen_stations 6 None = Ok (Some report) /\
    elbow_k report = [2; 3; 4; 5; 6; 7; 8; 9; 10; 11]%nat /\
    ~ In 12%nat (elbow_k report) /\
    optimal_k report = 11%nat.
Proof.
  split; [reflexivity|]. split; [reflexivity|].
  eexists. split; [vm_compute; reflexivity|].
  split; [reflexivity|]. split; [|reflexivity].
  cbn [elbow_k]. simpl. intuition discriminate.
Qed.

End ClusteringProps.

(** ** Great-circle distance *)

Module GeoFacts.
Import Geo.
Local Open Scope R_scope.

Lemma haversine_refl p : haversine p p = 0.
Proof.
  unfold haversine. cbv zeta.
  replace (/ 2 * (fst p - fst p)) with 0 by ring.
  replace (/ 2 * (snd p - snd p)) with 0 by ring.
  rewrite sin_0.
  replace (0 * 0 + cos (fst p) * cos (fst p) * 0 * 0) with 0 by ring.
  rewrite sqrt_0, asin_0. ring.
Qed.

Lemma asin_nonneg s : 0 <= s -> 0 <= asin s.
Proof.
  intro Hs. destruct (Rle_dec 1 s) as [H1|H1].
  - unfold asin. destruct (Rle_dec s (-1)); [lra|].
    destruct (Rle_dec 1 s); [|contradiction].
    pose proof PI_RGT_0. lra.
  - destruct (Rlt_le_dec (asin s) 0) as [Hneg|Hpos]; [|exact Hpos].
    exfalso.
    assert (Hb := asin_bound s).
    assert (Hsin : sin (asin s) = s) by (apply sin_asin; lra).
    assert (sin (asin s) < 0).
    { apply sin_lt_0_var; [|exact Hneg]. pose proof PI_RGT_0. lra. }
    lra.
Qed.

Lemma haversine_nonneg p q : 0 <= haversine p q.
Proof.
  unfold haversine. cbv zeta.
  assert (0 <= asin (sqrt (sin (/ 2 * (fst p - fst q)) * sin (/ 2 * (fst p - fst q)) +
        cos (fst p) * cos (fst q) * sin (/ 2 * (snd p - snd q)) * sin (/ 2 * (snd p - snd q))))).
  { apply asin_nonneg, sqrt_pos. }
  lra.
Qed.

Lemma PI_gt_3 : 3 < PI.
Proof. pose proof PI2_3_2. lra. Qed.

(** A chord longer than a small angle spans more than that angle. *)
Lemma asin_gt (t s : R) : 0 < t -> t <= 1 -> t < s -> t < asin s.
Proof.
  intros Ht0 Ht1 Hts.
  pose proof PI2_1 as Hpi.
  destruct (Rle_dec 1 s) as [H1|H1].
  - unfold asin. destruct (Rle_dec s (-1)); [lra|].
    destruct (Rle_dec 1 s); [lra|contradiction].
  - destruct (Rlt_le_dec t (asin s)) as [?|Hle]; [assumption|]. exfalso.
    assert (Hb := asin_bound s).
    assert (Hsin : sin (asin s) = s) by (apply sin_asin; lra).
    assert (sin (asin s) <= sin t) by (apply sin_incr_1; lra).
    pose proof (sin_lt_x t Ht0). lra.
Qed.

Lemma sin_13_100 : 1 / 10 < sin (13 / 100).
Proof.
  assert (H : sin_lb (13 / 100) <= sin (13 / 100)).
  { apply SIN; [lra|]. pose proof PI_gt_3. lra. }
  eapply Rlt_le_trans; [|exact H].
  unfold sin_lb, sin_approx, sum_f_R0, sin_term.
  rewrite !INR_IZR_INZ.
  change (IZR (Z.of_nat (fact (2 * 0 + 1)))) with 1.
  change (IZR (Z.of_nat (fact (2 * 1 + 1)))) with 6.
  change (IZR (Z.of_nat (fact (2 * 2 + 1)))) with 120.
  change (IZR (Z.of_nat (fact (2 * 3 + 1)))) with 5040.
  simpl pow. lra.
Qed.

Lemma haversine_far (p q : R * R) :
  - (PI / 2) <= fst p <= PI / 2 ->
  - (PI / 2) <= fst q <= PI / 2 ->
  26 / 100 <= fst q - fst p ->
  2 / 10 < haversine p q.
Proof.
  intros Hp Hq Hd. unfold haversine. cbv zeta.
  set (u := / 2 * (fst q - fst p)).
  assert (Hu : 13 / 100 <= u <= PI / 2) by (unfold u; lra).
  replace (/ 2 * (fst p - fst q)) with (- u) by (unfold u; ring).
  rewrite sin_neg.
  set (s1 := sin (/ 2 * (snd p - snd q))).
  assert (Hsu : 1 / 10 < sin u).
  { eapply Rlt_le_trans; [exact sin_13_100|].
    apply sin_incr_1; pose proof PI_gt_3; lra. }
  assert (Hc : 0 <= cos (fst p) * cos (fst q)).
  { apply Rmult_le_pos; apply cos_ge_0; lra. }
  assert (Ha : 1 / 10 * (1 / 10)
               < - sin u * - sin u + cos (fst p) * cos (fst q) * s1 * s1).
  { assert (0 <= cos (fst p) * cos (fst q) * (s1 * s1)).
    { apply Rmult_le_pos; [exact Hc|]. nra. }
    nra. }
  assert (Hs : 1 / 10
               < sqrt (- sin u * - sin u + cos (fst p) * cos (fst q) * s1 * s1)).
  { rewrite <- (sqrt_square (1 / 10)) at 1 by lra.
    apply sqrt_lt_1; lra. }
  pose proof (asin_gt (1 / 10) _ ltac:(lra) ltac:(lra) Hs). lra.
Qed.

Lemma within_far_false (r : R) (p q : R * R) :
  - (PI / 2) <= fst p <= PI / 2 ->
  - (PI / 2) <= fst q <= PI / 2 ->
  26 / 100 <= fst q - fst p ->
  r <= 2 / 10 ->
  within r p q = false.
Proof.
  intros Hp Hq Hd Hr. unfold within.
  pose proof (haversine_far p q Hp Hq Hd).
  destruct (Rle_dec (haversine p q) r); [lra|reflexivity].
Qed.

Lemma within_refl (r : R) (p : R * R) : 0 <= r -> within r p p = true.
Proof.
  intro Hr. unfold within. rewrite haversine_refl.
  destruct (Rle_dec 0 r); [reflexivity|contradiction].
Qed.

Lemma within_negative (r : R) (p q : R * R) : r < 0 -> within r p q = false.
Proof.
  intro Hr. unfold within. pose proof (haversine_nonneg p q).
  destruct (Rle_dec (haversine p q) r); [lra|reflexivity].
Qed.

(** The two points of the worked scenario, in degrees. *)
Definition delhi : Q * Q := (28.70, 77.10)%Q.
Definition bangalore : Q * Q := (12.97, 77.59)%Q.

Lemma bangalore_far_from_delhi (r : R) :
  r <= 2 / 10 -> within r (to_radians bangalore) (to_radians delhi) = false.
Proof.
  intro Hr. pose proof PI_gt_3 as Hpi. pose proof PI_4 as Hpi4.
  apply within_far_false; try exact Hr;
    unfold to_radians, radians, bangalore, delhi, Q2R; simpl; lra.
Qed.

End GeoFacts.

(** ** [StationClusterer.find_gaps] *)

Module GapFacts.
Import Pandas PandasFacts Geo GeoFacts Models.

Definition idx (name : string) (df : DataFrame) : nat :=
  match index_of name (columns df) with
  | Some i => i
  | None => 0%nat
  end.

(** The (latitude, longitude) of a row of [df], in degrees. *)
Definition point_of (df : DataFrame) (r : Row) : Q * Q :=
  (cell (idx "latitude" df) r, cell (idx "longitude" df) r).

Definition coords_of (df : DataFrame) : list (Q * Q) :=
  map (point_of df) (rows df).

Definition radius_rad (radius_km : Q) : R :=
  (Q2R radius_km / earth_radius_km)%R.

(** How many stations lie within the radius of the point [q]. *)
Definition station_count (radius_km : Q) (stations : DataFrame) (q : Q * Q)
  : nat :=
  length (filter (within (radius_rad radius_km) (to_radians q))
                 (map to_radians (coords_of stations))).

Definition uncovered (radius_km : Q) (stations demand : DataFrame) (r : Row)
  : bool :=
  Nat.eqb 0 (station_count radius_km stations (point_of demand r)).

(** The demand rows with no station in range, in their order, with the
    demand table's columns. *)
Definition gaps_of (radius_km : Q) (stations demand : DataFrame) : DataFrame :=
  {| columns := columns demand;
     rows := filter (uncovered radius_km stations demand) (rows demand) |}.

Definition has_coordinates (df : DataFrame) : Prop :=
  has_column "latitude" df = true /\ has_column "longitude" df = true.

Lemma combine_map_same {A B C} (f : A -> B) (g : A -> C) (l : list A) :
  combine (map f l) (map g l) = map (fun a => (f a, g a)) l.
Proof. induction l as [|a l IH]; simpl; [reflexivity|now rewrite IH]. Qed.

Lemma column_pair_coords df :
  has_coordinates df ->
  column_pair "latitude" "longitude" df = Ok (coords_of df).
Proof.
  intros [Hlat Hlon].
  apply index_of_has_column in Hlat as [i Hi].
  apply index_of_has_column in Hlon as [j Hj].
  unfold column_pair, column, coords_of, point_of, idx.
  rewrite Hi, Hj. cbn [Py.bind]. now rewrite combine_map_same.
Qed.

Lemma select_map_filter (f : Row -> bool) (rs : list Row) :
  select (map f rs) rs = filter f rs.
Proof.
  induction rs as [|r rs IH]; simpl; [reflexivity|].
  destruct (f r); now rewrite IH.
Qed.

Lemma gap_mask_ok radius_km stations demand :
  has_coordinates stations -> has_coordinates demand ->
  rows stations <> [] -> rows demand <> [] ->
  gap_mask radius_km stations demand
  = Ok (map (uncovered radius_km stations demand) (rows demand)).
Proof.
  intros Hs Hd Hsne Hdne. unfold gap_mask.
  rewrite (column_pair_coords _ Hs), (column_pair_coords _ Hd).
  cbn [Py.bind]. unfold coords_of.
  destruct (rows stations) as [|s ss] eqn:Es; [congruence|].
  destruct (rows demand) as [|d ds] eqn:Ed; [congruence|].
  cbn [map new_BallTree query_radius Py.bind]. f_equal.
  unfold uncovered, station_count, count_within, coords_of, radius_rad.
  rewrite Es. cbn [data map]. f_equal.
  rewrite !map_map. reflexivity.
Qed.

(** Empty stations: the ball tree refuses the empty array. *)
Lemma gap_mask_empty_stations radius_km stations demand :
  has_coordinates stations -> has_coordinates demand ->
  rows stations = [] ->
  gap_mask radius_km stations demand
  = Raise (ValueError "Found array with 0 sample(s)").
Proof.
  intros Hs Hd Hnil. unfold gap_mask.
  rewrite (column_pair_coords _ Hs), (column_pair_coords _ Hd).
  cbn [Py.bind]. unfold coords_of. rewrite Hnil. reflexivity.
Qed.

Definition with_gap_points (me : StationClusterer) (l : loc)
  : StationClusterer :=
  {| n_new_stations := n_new_stations me;
     coverage_radius_km := coverage_radius_km me;
     model := model me;
     gap_points := Some l |}.

(** Every run of [find_gaps]: it raises and leaves the world as it was, or
    it appends one table (the masked copy of the demand table) to the store,
    returns its reference and records the same reference in [gap_points]. *)
Lemma find_gaps_cases ls ld w :
  (exists e, find_gaps ls ld w = (Raise e, w)) \/
  (exists stations demand mask,
     nth_error (heap w) ls = Some stations /\
     nth_error (heap w) ld = Some demand /\
     gap_mask (coverage_radius_km (self w)) stations demand = Ok mask /\
     find_gaps ls ld w
     = (Ok (length (heap w)),
        {| heap := heap w ++ [boolean_index mask demand];
           self := with_gap_points (self w) (length (heap w)) |})).
Proof.
  unfold find_gaps, mbind, deref.
  destruct (nth_error (heap w) ls) as [stations|] eqn:Es; [|left; eauto].
  destruct (nth_error (heap w) ld) as [demand|] eqn:Ed; [|left; eauto].
  unfold get_self, lift.
  destruct (gap_mask (coverage_radius_km (self w)) stations demand)
    as [mask|e] eqn:Em; [|left; eauto].
  right. exists stations, demand, mask. repeat split; try assumption.
Qed.

Lemma find_gaps_ok ls ld w stations demand :
  nth_error (heap w) ls = Some stations ->
  nth_error (heap w) ld = Some demand ->
  has_coordinates stations -> has_coordinates demand ->
  rows stations <> [] -> rows demand <> [] ->
  find_gaps ls ld w
  = (Ok (length (heap w)),
     {| heap := heap w
                ++ [gaps_of (coverage_radius_km (self w)) stations demand];
        self := with_gap_points (self w) (length (heap w)) |}).
Proof.
  intros Es Ed Hs Hd Hsne Hdne.
  destruct (find_gaps_cases ls ld w) as [[e He]|(st & dm & mask & Es' & Ed' & Hm & Hf)].
  - exfalso. revert He. unfold find_gaps, mbind, deref.
    rewrite Es, Ed. unfold get_self, lift.
    rewrite (gap_mask_ok _ _ _ Hs Hd Hsne Hdne). discriminate.
  - rewrite Es in Es'. rewrite Ed in Ed'.
    injection Es' as <-. injection Ed' as <-.
    rewrite (gap_mask_ok _ _ _ Hs Hd Hsne Hdne) in Hm. injection Hm as <-.
    rewrite Hf. unfold boolean_index, gaps_of.
    now rewrite select_map_filter.
Qed.

(** With a negative radius nothing is in range. *)
Lemma station_count_negative radius_km stations q :
  (radius_km < 0)%Q -> station_count radius_km stations q = 0%nat.
Proof.
  intro Hneg. unfold station_count.
  assert (Hr : (radius_rad radius_km < 0)%R).
  { unfold radius_rad, earth_radius_km.
    assert (Q2R radius_km < 0)%R.
    { replace 0%R with (Q2R 0) by (unfold Q2R; simpl; lra).
      now apply Qreals.Qlt_Rlt. }
    apply Rmult_neg_pos; [assumption|].
    apply Rinv_0_lt_compat. lra. }
  induction (map to_radians (coords_of stations)) as [|s ss IH]; simpl.
  - reflexivity.
  - rewrite within_negative by exact Hr. exact IH.
Qed.

Lemma filter_all_true {A} (f : A -> bool) (l : list A) :
  (forall a, In a l -> f a = true) -> filter f l = l.
Proof.
  induction l as [|a l IH]; intro H; simpl; [reflexivity|].
  rewrite (H a (or_introl eq_refl)). f_equal. apply IH.
  intros b Hb. apply H. now right.
Qed.

End GapFacts.

(** ** The worked scenario: one station in Delhi, demand in Delhi and
    Bangalore *)

Module Scenario.
Import Pandas PandasFacts Geo GeoFacts Models GapFacts.

Definition stations_A : DataFrame :=
  {| columns := ["latitude"; "longitude"]%string;
     rows := [(0%Z, [28.70; 77.10])] |}.

Definition demand_A : DataFrame :=
  {| columns := ["latitude"; "longitude"; "demand_score"]%string;
     rows := [(0%Z, [28.70; 77.10; 5]); (1%Z, [12.97; 77.59; 8])] |}.

Definition gaps_A : DataFrame :=
  {| columns := ["latitude"; "longitude"; "demand_score"]%string;
     rows := [(1%Z, [12.97; 77.59; 8])] |}.

(** A fresh component with [n_new_stations = k] and the given radius, and
    the two tables in the store at references 0 and 1. *)
Definition world_A (k : Z) (radius_km : Q) : World :=
  {| heap := [stations_A; demand_A]; self := __init__ k radius_km |}.

Definition after_A (k : Z) (radius_km : Q) : World :=
  {| heap := [stations_A; demand_A; gaps_A];
     self := with_gap_points (__init__ k radius_km) 2%nat |}.

Lemma stations_A_coordinates : has_coordinates stations_A.
Proof. split; reflexivity. Qed.

Lemma demand_A_coordinates : has_coordinates demand_A.
Proof. split; reflexivity. Qed.

(** For any radius from 0 km up to 0.2 radian of arc (about 1274 km), the
    Delhi demand point is covered and the Bangalore one is not. *)
Lemma gaps_of_A (radius_km : Q) :
  (0 <= radius_rad radius_km <= 2 / 10)%R ->
  gaps_of radius_km stations_A demand_A = gaps_A.
Proof.
  intros [Hlo Hhi]. unfold gaps_of, gaps_A. f_equal.
  change (rows demand_A)
    with [(0%Z, [28.70; 77.10; 5]); (1%Z, [12.97; 77.59; 8])].
  cbn [filter]. unfold uncovered, station_count, coords_of.
  change (rows stations_A) with [(0%Z, [28.70; 77.10])].
  cbn [map].
  change (point_of stations_A (0%Z, [28.70; 77.10])) with delhi.
  change (point_of demand_A (0%Z, [28.70; 77.10; 5])) with delhi.
  change (point_of demand_A (1%Z, [12.97; 77.59; 8])) with bangalore.
  cbn [filter].
  rewrite (within_refl _ _ Hlo), (bangalore_far_from_delhi _ Hhi).
  reflexivity.
Qed.

Lemma find_gaps_A (k : Z) (radius_km : Q) :
  (0 <= radius_rad radius_km <= 2 / 10)%R ->
  find_gaps 0%nat 1%nat (world_A k radius_km) = (Ok 2%nat, after_A k radius_km).
Proof.
  intro Hr.
  rewrite (find_gaps_ok 0%nat 1%nat (world_A k radius_km) stations_A demand_A);
    try reflexivity; try discriminate.
  - cbn [world_A heap self __init__ coverage_radius_km].
    rewrite (gaps_of_A _ Hr). reflexivity.
  - exact stations_A_coordinates.
  - exact demand_A_coordinates.
Qed.

Lemma radius_5_in_range : (0 <= radius_rad 5 <= 2 / 10)%R.
Proof. unfold radius_rad, earth_radius_km, Q2R. simpl. lra. Qed.

Lemma radius_0_in_range : (0 <= radius_rad 0 <= 2 / 10)%R.
Proof. unfold radius_rad, earth_radius_km, Q2R. simpl. lra. Qed.

End Scenario.

(** ** Gap detection: coverage and the radius *)

Module GapProps.
Import Pandas PandasFacts Geo GeoFacts Models GapFacts Scenario.

(** For non-empty station and demand tables the result of [find_gaps] is
    the demand table filtered by "no station in range": a row is returned
    exactly when it is a demand row whose station count is zero. *)
Lemma find_gaps_selects_uncovered ls ld w stations demand :
  nth_error (heap w) ls = Some stations ->
  nth_error (heap w) ld = Some demand ->
  has_coordinates stations -> has_coordinates demand ->
  rows stations <> [] -> rows demand <> [] ->
  exists l w' gaps,
    find_gaps ls ld w = (Ok l, w') /\
    nth_error (heap w') l = Some gaps /\
    gaps = gaps_of (coverage_radius_km (self w)) stations demand /\
    forall r, In r (rows gaps) <->
              In r (rows demand) /\
              station_count (coverage_radius_km (self w)) stations
                (point_of demand r) = 0%nat.
Proof.
  intros Es Ed Hs Hd Hsne Hdne.
  eexists _, _, _. split; [now apply (find_gaps_ok ls ld w stations demand)|].
  split; [|split; [reflexivity|]].
  - cbn [heap]. rewrite nth_error_app2, Nat.sub_diag by lia. reflexivity.
  - intro r. unfold gaps_of. cbn [rows]. rewrite filter_In.
    unfold uncovered. rewrite Nat.eqb_eq. intuition congruence.
Qed.

Definition no_stations : DataFrame :=
  {| columns := ["latitude"; "longitude"]%string; rows := [] |}.

(** C1 (evaluation at the failing input).  With an empty station table and
    the two demand points of the scenario, [find_gaps] does not return the
    demand table: the ball tree refuses the empty station array, the
    [ValueError] reaches the caller and the component is left unchanged. *)
Theorem find_gaps_raises_on_empty_stations :
  find_gaps 0%nat 1%nat {| heap := [no_stations; demand_A]; self := __init__ 5 5 |}
  = (Raise (ValueError "Found array with 0 sample(s)"),
     {| heap := [no_stations; demand_A]; self := __init__ 5 5 |}).
Proof.
  unfold find_gaps, mbind, deref. cbn [heap nth_error].
  unfold get_self, lift. cbn [self __init__ coverage_radius_km].
  rewrite gap_mask_empty_stations; try reflexivity.
  - split; reflexivity.
  - exact demand_A_coordinates.
Qed.

(** C7 (as the code has it).  A radius that is zero or negative is not
    rejected: [__init__] stores it as given, and for station and demand
    tables with coordinates and at least one row each, [find_gaps] returns
    normally, giving the demand rows with no station within that radius;
    with a negative radius these are all the demand rows. *)
Theorem nonpositive_radius_is_not_rejected
  (ls ld : loc) (w : World) (stations demand : DataFrame) :
  nth_error (heap w) ls = Some stations ->
  nth_error (heap w) ld = Some demand ->
  has_coordinates stations -> has_coordinates demand ->
  rows stations <> [] -> rows demand <> [] ->
  coverage_radius_km (self w) <= 0 ->
  (forall n r, coverage_radius_km (__init__ n r) = r) /\
  exists l w',
    find_gaps ls ld w = (Ok l, w') /\
    nth_error (heap w') l
    = Some (gaps_of (coverage_radius_km (self w)) stations demand) /\
    (coverage_radius_km (self w) < 0 ->
     gaps_of (coverage_radius_km (self w)) stations demand = demand).
Proof.
  intros Es Ed Hs Hd Hsne Hdne Hr. split; [reflexivity|].
  eexists _, _. split; [now apply (find_gaps_ok ls ld w stations demand)|].
  split.
  - cbn [heap]. rewrite nth_error_app2, Nat.sub_diag by lia. reflexivity.
  - intro Hneg. unfold gaps_of. destruct demand as [cols rs]. cbn [columns rows].
    f_equal. apply filter_all_true. intros r _.
    unfold uncovered. now rewrite station_count_negative.
Qed.

Lemma nonpositive_radius_is_not_rejected_witness :
  (forall n r, coverage_radius_km (__init__ n r) = r) /\
  exists l w',
    find_gaps 0%nat 1%nat (world_A 5 0) = (Ok l, w') /\
    nth_error (heap w') l
    = Some (gaps_of (coverage_radius_km (self (world_A 5 0)))
              stations_A demand_A) /\
    (coverage_radius_km (self (world_A 5 0)) < 0 ->
     gaps_of (coverage_radius_km (self (world_A 5 0))) stations_A demand_A
     = demand_A).
Proof.
  apply (nonpositive_radius_is_not_rejected 0%nat 1%nat (world_A 5 0)
           stations_A demand_A).
  - reflexivity.
  - reflexivity.
  - exact stations_A_coordinates.
  - exact demand_A_coordinates.
  - discriminate.
  - discriminate.
  - apply Qle_refl.
Defined.

(** C7, counterexample to the claim as stated: with [coverage_radius_km = 0]
    the scenario's call returns the Bangalore row; nothing is raised. *)
Lemma zero_radius_returns_gaps :
  coverage_radius_km (self (world_A 5 0)) <= 0 /\
  find_gaps 0%nat 1%nat (world_A 5 0) = (Ok 2%nat, after_A 5 0) /\
  nth_error (heap (after_A 5 0)) 2%nat = Some gaps_A /\
  ~ exists e w', find_gaps 0%nat 1%nat (world_A 5 0) = (Raise e, w').
Proof.
  pose proof (find_gaps_A 5 0 radius_0_in_range) as H.
  split; [apply Qle_refl|]. split; [exact H|]. split; [reflexivity|].
  intros (e & w' & He). rewrite H in He. discriminate.
Qed.

End GapProps.

(** ** Tables: writing a column *)

Module ColumnFacts.
Import Pandas PandasFacts.

(** Every row has one cell per column. *)
Definition rectangular (df : DataFrame) : Prop :=
  Forall (fun r : Row => length (snd r) = length (columns df)) (rows df).

Lemma index_of_lt name cols i : index_of name cols = Some i -> (i < length cols)%nat.
Proof.
  revert i. induction cols as [|c cols IH]; intros i H; simpl in *.
  - discriminate.
  - destruct (String.eqb name c).
    + injection H as <-. lia.
    + destruct (index_of name cols) as [j|]; [|discriminate].
      injection H as <-. specialize (IH j eq_refl). lia.
Qed.

Lemma index_of_app_new name cols :
  index_of name cols = None ->
  index_of name (cols ++ [name]) = Some (length cols).
Proof.
  induction cols as [|c cols IH]; simpl; intro H.
  - now rewrite String.eqb_refl.
  - destruct (String.eqb name c); [discriminate|].
    destruct (index_of name cols); [discriminate|].
    now rewrite IH.
Qed.

Lemma index_of_app_old name cols extra i :
  index_of name cols = Some i -> index_of name (cols ++ extra) = Some i.
Proof.
  revert i. induction cols as [|c cols IH]; intros i H; simpl in *.
  - discriminate.
  - destruct (String.eqb name c); [assumption|].
    destruct (index_of name cols) as [j|]; [|discriminate].
    now rewrite (IH j eq_refl).
Qed.

Lemma index_of_distinct a b cols i j :
  a <> b -> index_of a cols = Some i -> index_of b cols = Some j -> i <> j.
Proof.
  intro Hab. revert i j. induction cols as [|c cols IH]; intros i j Ha Hb;
    simpl in *; [discriminate|].
  destruct (String.eqb a c) eqn:Ea, (String.eqb b c) eqn:Eb.
  - apply String.eqb_eq in Ea, Eb. congruence.
  - injection Ha as <-. destruct (index_of b cols); [|discriminate].
    injection Hb as <-. lia.
  - injection Hb as <-. destruct (index_of a cols); [|discriminate].
    injection Ha as <-. lia.
  - destruct (index_of a cols) as [i'|]; [|discriminate].
    destruct (index_of b cols) as [j'|]; [|discriminate].
    injection Ha as <-. injection Hb as <-.
    specialize (IH i' j' eq_refl eq_refl). lia.
Qed.

Lemma nth_replace_nth_same i v cells :
  (i < length cells)%nat -> nth i (replace_nth i v cells) 0 = v.
Proof.
  revert i. induction cells as [|c cells IH]; intros [|i] H; simpl in *;
    try lia; try reflexivity.
  apply IH. lia.
Qed.

Lemma nth_replace_nth_other i j v cells :
  i <> j -> nth j (replace_nth i v cells) 0 = nth j cells 0.
Proof.
  revert i j. induction cells as [|c cells IH]; intros [|i] [|j] H; simpl;
    try reflexivity; try congruence.
  apply IH. congruence.
Qed.

(** The rows of a table after [df[name] = values]. *)
Definition write_cell (name : string) (df : DataFrame) (rv : Row * Q) : Row :=
  match index_of name (columns df) with
  | Some i => (fst (fst rv), replace_nth i (snd rv) (snd (fst rv)))
  | None => (fst (fst rv), snd (fst rv) ++ [snd rv])
  end.

Lemma set_column_ok name values df :
  length values = length (rows df) ->
  set_column name values df
  = Ok {| columns := match index_of name (columns df) with
                     | Some _ => columns df
                     | None => columns df ++ [name]
                     end;
          rows := map (write_cell name df) (combine (rows df) values) |}.
Proof.
  intro Hlen. unfold set_column, write_cell.
  rewrite Hlen, Nat.eqb_refl. cbn [negb].
  destruct (index_of name (columns df)); f_equal; f_equal;
    apply map_ext; intros [[lbl cells] v]; reflexivity.
Qed.

Lemma set_column_bad_length name values df :
  length values <> length (rows df) ->
  exists e, set_column name values df = Raise e.
Proof.
  intro Hlen. unfold set_column.
  destruct (length values =? length (rows df))%nat eqn:E.
  - apply Nat.eqb_eq in E. contradiction.
  - cbn [negb]. eauto.
Qed.

Lemma map_combine_fst {A B C} (f : A -> C) (l : list A) (l' : list B) :
  length l = length l' ->
  map (fun p => f (fst p)) (combine l l') = map f l.
Proof.
  revert l'. induction l as [|a l IH]; intros [|b l'] H; simpl in *;
    try discriminate; try reflexivity.
  f_equal. apply IH. lia.
Qed.

Lemma map_combine_snd {A B} (l : list A) (l' : list B) :
  length l = length l' -> map snd (combine l l') = l'.
Proof.
  revert l'. induction l as [|a l IH]; intros [|b l'] H; simpl in *;
    try discriminate; try reflexivity.
  f_equal. apply IH. lia.
Qed.

(** Reading back the column just written gives the values written. *)
Lemma column_after_write name values df df' :
  rectangular df ->
  length values = length (rows df) ->
  set_column name values df = Ok df' ->
  column name df' = Ok values.
Proof.
  intros Hrect Hlen Hset. rewrite (set_column_ok _ _ _ Hlen) in Hset.
  injection Hset as <-. unfold column, write_cell. cbn [columns rows].
  destruct (index_of name (columns df)) as [i|] eqn:E.
  - rewrite E. f_equal. rewrite map_map.
    rewrite <- (map_combine_snd (rows df) values) at 2 by (symmetry; exact Hlen).
    apply map_ext_in. intros [[lbl cells] v] Hin.
    unfold cell. cbn [fst snd]. apply nth_replace_nth_same.
    apply in_combine_l in Hin. unfold rectangular in Hrect.
    rewrite Forall_forall in Hrect. specialize (Hrect _ Hin). cbn [snd] in Hrect.
    rewrite Hrect. now apply index_of_lt with (name := name).
  - rewrite (index_of_app_new _ _ E). f_equal. rewrite map_map.
    rewrite <- (map_combine_snd (rows df) values) at 2 by (symmetry; exact Hlen).
    apply map_ext_in. intros [[lbl cells] v] Hin.
    unfold cell. cbn [fst snd].
    apply in_combine_l in Hin. unfold rectangular in Hrect.
    rewrite Forall_forall in Hrect. specialize (Hrect _ Hin). cbn [snd] in Hrect.
    rewrite app_nth2 by lia. rewrite Hrect, Nat.sub_diag. reflexivity.
Qed.

(** Writing one column leaves every other column as it was. *)
Lemma column_other_after_write name other values df df' :
  rectangular df ->
  other <> name ->
  has_column other df = true ->
  length values = length (rows df) ->
  set_column name values df = Ok df' ->
  column other df' = column other df.
Proof.
  intros Hrect Hne Hhas Hlen Hset. rewrite (set_column_ok _ _ _ Hlen) in Hset.
  injection Hset as <-. unfold column, write_cell. cbn [columns rows].
  apply index_of_has_column in Hhas as [j Hj]. rewrite Hj.
  destruct (index_of name (columns df)) as [i|] eqn:E.
  - rewrite Hj. f_equal. rewrite map_map.
    rewrite <- (map_combine_fst (cell j) (rows df) values) by (symmetry; exact Hlen).
    apply map_ext. intros [[lbl cells] v]. unfold cell. cbn [fst snd].
    apply nth_replace_nth_other.
    apply (index_of_distinct name other (columns df)); auto.
  - rewrite (index_of_app_old _ _ [name] _ Hj). f_equal. rewrite map_map.
    rewrite <- (map_combine_fst (cell j) (rows df) values) by (symmetry; exact Hlen).
    apply map_ext_in. intros [[lbl cells] v] Hin. unfold cell. cbn [fst snd].
    apply in_combine_l in Hin. unfold rectangular in Hrect.
    rewrite Forall_forall in Hrect. specialize (Hrect _ Hin). cbn [snd] in Hrect.
    apply app_nth1. rewrite Hrect. now apply index_of_lt with (name := other).
Qed.

Lemma has_column_after_write name other values df df' :
  has_column other df = true ->
  length values = length (rows df) ->
  set_column name values df = Ok df' ->
  has_column other df' = true.
Proof.
  intros Hhas Hlen Hset. rewrite (set_column_ok _ _ _ Hlen) in Hset.
  injection Hset as <-. apply has_column_In. apply has_column_In in Hhas.
  cbn [columns]. destruct (index_of name (columns df)); [assumption|].
  apply in_or_app. now left.
Qed.

End ColumnFacts.

(** ** [StationClusterer.recommend_locations]: value and effect *)

Module RecommendFacts.
Import Pandas PandasFacts ColumnFacts Models GapFacts.

Definition empty_recommendations : DataFrame :=
  empty_frame recommendation_columns.

Definition labels_column (labels : list nat) : list Q :=
  map (fun c => inject_Z (Z.of_nat c)) labels.

(** What the component has stored under [gap_points]: nothing, a dangling
    reference, or a table. *)
Definition stored_gaps (w : World) : option (option DataFrame) :=
  match gap_points (self w) with
  | None => None
  | Some l => Some (nth_error (heap w) l)
  end.

Lemma update_nth_length l df h : length (update_nth l df h) = length h.
Proof.
  revert l. induction h as [|d h IH]; intros [|l]; simpl; try reflexivity.
  now rewrite IH.
Qed.

Lemma update_nth_other l df h i :
  i <> l -> nth_error (update_nth l df h) i = nth_error h i.
Proof.
  revert l i. induction h as [|d h IH]; intros [|l] [|i] H; simpl;
    try reflexivity; try congruence.
  apply IH. congruence.
Qed.

Lemma update_nth_same l df h :
  (l < length h)%nat -> nth_error (update_nth l df h) l = Some df.
Proof.
  revert l. induction h as [|d h IH]; intros [|l] H; simpl in *;
    try lia; try reflexivity.
  apply IH. lia.
Qed.

Section WithEstimator.

Variable estimator : KMeans.Estimator.
Variable sorter : Sorter.

(** The value of a call, computed from [n_new_stations] and the stored gap
    table alone. *)
Definition recommend_value (n : Z) (stored : option (option DataFrame))
  : result DataFrame :=
  match stored with
  | None => Ok empty_recommendations
  | Some None => Raise (KeyError "no such table")
  | Some (Some gaps) =>
      if Pandas.empty gaps then Ok empty_recommendations
      else
        match column_pair "latitude" "longitude" gaps with
        | Raise e => Raise e
        | Ok coords =>
            let k := Z.min n (Z.of_nat (length coords)) in
            if (k =? 0)%Z then Ok empty_recommendations
            else if (k <? 1)%Z then
              Raise (ValueError "n_clusters must be an int in the range [1, inf)")
            else
              let fit := estimator (Z.to_nat k) coords in
              match set_column "cluster" (labels_column (fst fit)) gaps with
              | Raise e => Raise e
              | Ok labelled => build_recommendations sorter labelled (snd fit)
              end
        end
  end.

Lemma recommend_value_correct (w : World) :
  fst (recommend_locations estimator sorter w)
  = recommend_value (n_new_stations (self w)) (stored_gaps w).
Proof.
  unfold recommend_locations, recommend_value, stored_gaps, mbind, get_self.
  destruct (gap_points (self w)) as [l|]; [|reflexivity].
  unfold deref. destruct (nth_error (heap w) l) as [gaps|]; [|reflexivity].
  destruct (Pandas.empty gaps); [reflexivity|].
  unfold lift.
  destruct (column_pair "latitude" "longitude" gaps) as [coords|e];
    [|reflexivity].
  cbv zeta.
  destruct (Z.min (n_new_stations (self w)) (Z.of_nat (length coords)) =? 0)%Z;
    [reflexivity|].
  unfold set_n_clusters, fit_predict, mbind, get_self, put_self. cbn [self].
  destruct (Z.min (n_new_stations (self w)) (Z.of_nat (length coords)) <? 1)%Z;
    [reflexivity|].
  unfold ret, lift, labels_column.
  destruct (set_column _ _ gaps) as [labelled|e]; [|reflexivity].
  unfold store. reflexivity.
Qed.

(** The effect of a call: configuration and [gap_points] are kept, the
    store keeps its size, and only the stored gap table can change. *)
Lemma recommend_frame (w : World) :
  let w' := snd (recommend_locations estimator sorter w) in
  n_new_stations (self w') = n_new_stations (self w) /\
  coverage_radius_km (self w') = coverage_radius_km (self w) /\
  gap_points (self w') = gap_points (self w) /\
  length (heap w') = length (heap w) /\
  forall i, gap_points (self w) <> Some i ->
            nth_error (heap w') i = nth_error (heap w) i.
Proof.
  cbv zeta.
  unfold recommend_locations, mbind, get_self.
  destruct (gap_points (self w)) as [l|] eqn:El; [|cbn; auto].
  unfold deref. destruct (nth_error (heap w) l) as [gaps|]; [|cbn; auto].
  destruct (Pandas.empty gaps); [cbn; auto|].
  unfold lift.
  destruct (column_pair "latitude" "longitude" gaps) as [coords|e];
    [|cbn; auto].
  cbv zeta.
  destruct (Z.min (n_new_stations (self w)) (Z.of_nat (length coords)) =? 0)%Z;
    [cbn; auto|].
  unfold set_n_clusters, fit_predict, mbind, get_self, put_self. cbn [self].
  destruct (Z.min (n_new_stations (self w)) (Z.of_nat (length coords)) <? 1)%Z;
    [cbn; auto|].
  unfold ret, lift.
  destruct (set_column _ _ gaps) as [labelled|e]; [|cbn; auto].
  unfold store. cbn [heap self snd n_new_stations coverage_radius_km gap_points].
  repeat split; try assumption.
  - apply update_nth_length.
  - intros i Hi. apply update_nth_other. congruence.
Qed.

(** No stored table, or a stored table without rows: the empty frame comes
    back and the world is untouched. *)
Lemma recommend_nothing_stored (w : World) :
  gap_points (self w) = None ->
  recommend_locations estimator sorter w = (Ok empty_recommendations, w).
Proof.
  intro H. unfold recommend_locations, mbind, get_self. rewrite H. reflexivity.
Qed.

Lemma recommend_no_rows (w : World) (l : loc) (gaps : DataFrame) :
  gap_points (self w) = Some l ->
  nth_error (heap w) l = Some gaps ->
  rows gaps = [] ->
  recommend_locations estimator sorter w = (Ok empty_recommendations, w).
Proof.
  intros Hl Hg Hrows. unfold recommend_locations, mbind, get_self, deref.
  rewrite Hl, Hg.
  assert (E : Pandas.empty gaps = true).
  { unfold Pandas.empty. rewrite Hrows. now destruct (columns gaps). }
  rewrite E. reflexivity.
Qed.

End WithEstimator.

End RecommendFacts.

(** ** The component's state across calls *)

Module StateProps.
Import Pandas PandasFacts ColumnFacts Geo GeoFacts Models GapFacts Scenario.
Import RecommendFacts.

(** A successful [find_gaps] stores the reference it returns. *)
Lemma find_gaps_stores ls ld w l w' :
  find_gaps ls ld w = (Ok l, w') ->
  l = length (heap w) /\
  gap_points (self w') = Some l /\
  n_new_stations (self w') = n_new_stations (self w) /\
  coverage_radius_km (self w') = coverage_radius_km (self w) /\
  model (self w') = model (self w) /\
  length (heap w') = S (length (heap w)) /\
  forall i, (i < length (heap w))%nat ->
            nth_error (heap w') i = nth_error (heap w) i.
Proof.
  intro H.
  destruct (find_gaps_cases ls ld w)
    as [[e He]|(st & dm & mask & _ & _ & _ & Hf)]; rewrite H in *.
  - discriminate.
  - injection Hf as -> ->. cbn [heap self with_gap_points gap_points
      n_new_stations coverage_radius_km model].
    repeat split; try reflexivity.
    + rewrite length_app. simpl. lia.
    + intros i Hi. now rewrite nth_error_app1.
Qed.

Lemma find_gaps_raise_keeps_world ls ld w e w' :
  find_gaps ls ld w = (Raise e, w') -> w' = w.
Proof.
  intro H.
  destruct (find_gaps_cases ls ld w)
    as [[e' He]|(st & dm & mask & _ & _ & _ & Hf)]; rewrite H in *.
  - now injection He.
  - discriminate.
Qed.

(** One demand point, at the station: nothing is uncovered. *)
Definition demand_covered : DataFrame :=
  {| columns := ["latitude"; "longitude"; "demand_score"]%string;
     rows := [(0%Z, [28.70; 77.10; 5])] |}.

Definition no_gaps : DataFrame :=
  {| columns := ["latitude"; "longitude"; "demand_score"]%string;
     rows := [] |}.

Definition world_covered : World :=
  {| heap := [stations_A; demand_covered]; self := __init__ 5 5 |}.

Definition after_covered : World :=
  {| heap := [stations_A; demand_covered; no_gaps];
     self := with_gap_points (__init__ 5 5) 2%nat |}.

Lemma find_gaps_covered :
  find_gaps 0%nat 1%nat world_covered = (Ok 2%nat, after_covered).
Proof.
  rewrite (find_gaps_ok 0%nat 1%nat world_covered stations_A demand_covered);
    try reflexivity; try discriminate; try (split; reflexivity).
  unfold after_covered. f_equal. f_equal.
  cbn [world_covered heap self __init__ coverage_radius_km app]. f_equal. f_equal. f_equal.
  unfold gaps_of, no_gaps. f_equal.
  change (rows demand_covered) with [(0%Z, [28.70; 77.10; 5])].
  cbn [filter]. unfold uncovered, station_count, coords_of.
  change (rows stations_A) with [(0%Z, [28.70; 77.10])].
  cbn [map].
  change (point_of stations_A (0%Z, [28.70; 77.10])) with delhi.
  change (point_of demand_covered (0%Z, [28.70; 77.10; 5])) with delhi.
  cbn [filter].
  rewrite (within_refl _ _ (proj1 radius_5_in_range)). reflexivity.
Qed.

(** C10.  [recommend_locations] called on a freshly constructed component
    (no [find_gaps] call yet), or after a [find_gaps] call whose table of
    gap points has no rows, returns the empty frame with exactly the columns
    latitude, longitude, priority_score; nothing is raised and the world is
    left as it was. *)
Theorem recommend_without_gaps_returns_empty_frame
  (estimator : KMeans.Estimator) (sorter : Sorter) :
  (forall h n r,
     recommend_locations estimator sorter {| heap := h; self := __init__ n r |}
     = (Ok empty_recommendations, {| heap := h; self := __init__ n r |})) /\
  (forall ls ld w l w' gaps,
     find_gaps ls ld w = (Ok l, w') ->
     nth_error (heap w') l = Some gaps ->
     rows gaps = [] ->
     recommend_locations estimator sorter w'
     = (Ok empty_recommendations, w')) /\
  columns empty_recommendations
  = ["latitude"; "longitude"; "priority_score"]%string /\
  rows empty_recommendations = [].
Proof.
  split; [|split; [|split; reflexivity]].
  - intros h n r. now apply recommend_nothing_stored.
  - intros ls ld w l w' gaps Hf Hg Hrows.
    destruct (find_gaps_stores _ _ _ _ _ Hf) as (_ & Hgp & _).
    now apply (recommend_no_rows estimator sorter w' l gaps).
Qed.

Lemma recommend_without_gaps_returns_empty_frame_witness :
  find_gaps 0%nat 1%nat world_covered = (Ok 2%nat, after_covered) /\
  recommend_locations KMeans.lloyd stable_sort_desc after_covered
  = (Ok empty_recommendations, after_covered) /\
  recommend_locations KMeans.lloyd stable_sort_desc
    {| heap := [stations_A; demand_A]; self := __init__ 5 5 |}
  = (Ok empty_recommendations,
     {| heap := [stations_A; demand_A]; self := __init__ 5 5 |}).
Proof.
  pose proof (recommend_without_gaps_returns_empty_frame
                KMeans.lloyd stable_sort_desc) as (Hfresh & Hafter & _).
  split; [exact find_gaps_covered|]. split.
  - apply (Hafter 0%nat 1%nat world_covered 2%nat after_covered no_gaps).
    + exact find_gaps_covered.
    + reflexivity.
    + reflexivity.
  - apply Hfresh.
Defined.

(** C9 (as the code has it).  [find_gaps] reads its two tables and leaves
    them, and every table already in the store, unchanged; when it raises
    the world is as before; when it returns, its result is a new table that
    depends only on the two argument tables and the configured radius, and
    the component keeps a reference to that very table in [gap_points]
    (configuration and model are kept).  [recommend_locations] takes no table
    argument: its value is determined by [n_new_stations] and the table
    stored under [gap_points] by the last [find_gaps]; it keeps the
    configuration and [gap_points], keeps the size of the store, and changes
    no table other than the stored gap table. *)
Theorem gap_engine_state_and_frame
  (estimator : KMeans.Estimator) (sorter : Sorter) :
  (forall ls ld w l w',
     find_gaps ls ld w = (Ok l, w') ->
     l = length (heap w) /\
     gap_points (self w') = Some l /\
     n_new_stations (self w') = n_new_stations (self w) /\
     coverage_radius_km (self w') = coverage_radius_km (self w) /\
     model (self w') = model (self w) /\
     length (heap w') = S (length (heap w)) /\
     forall i, (i < length (heap w))%nat ->
               nth_error (heap w') i = nth_error (heap w) i) /\
  (forall ls ld w e w', find_gaps ls ld w = (Raise e, w') -> w' = w) /\
  (forall ls ld w1 w2 l1 w1' l2 w2',
     nth_error (heap w1) ls = nth_error (heap w2) ls ->
     nth_error (heap w1) ld = nth_error (heap w2) ld ->
     coverage_radius_km (self w1) = coverage_radius_km (self w2) ->
     find_gaps ls ld w1 = (Ok l1, w1') ->
     find_gaps ls ld w2 = (Ok l2, w2') ->
     nth_error (heap w1') l1 = nth_error (heap w2') l2) /\
  (forall w1 w2,
     n_new_stations (self w1) = n_new_stations (self w2) ->
     stored_gaps w1 = stored_gaps w2 ->
     fst (recommend_locations estimator sorter w1)
     = fst (recommend_locations estimator sorter w2)) /\
  (forall w,
     let w' := snd (recommend_locations estimator sorter w) in
     n_new_stations (self w') = n_new_stations (self w) /\
     coverage_radius_km (self w') = coverage_radius_km (self w) /\
     gap_points (self w') = gap_points (self w) /\
     length (heap w') = length (heap w) /\
     forall i, gap_points (self w) <> Some i ->
               nth_error (heap w') i = nth_error (heap w) i).
Proof.
  split; [|split; [|split; [|split]]].
  - exact find_gaps_stores.
  - exact find_gaps_raise_keeps_world.
  - intros ls ld w1 w2 l1 w1' l2 w2' Hs Hd Hr H1 H2.
    destruct (find_gaps_cases ls ld w1)
      as [[e He]|(st1 & dm1 & m1 & Es1 & Ed1 & Hm1 & Hf1)]; rewrite H1 in *;
      [discriminate|].
    destruct (find_gaps_cases ls ld w2)
      as [[e He]|(st2 & dm2 & m2 & Es2 & Ed2 & Hm2 & Hf2)]; rewrite H2 in *;
      [discriminate|].
    injection Hf1 as -> ->. injection Hf2 as -> ->.
    rewrite Hs, Es2 in Es1. rewrite Hd, Ed2 in Ed1.
    injection Es1 as <-. injection Ed1 as <-.
    rewrite Hr, Hm2 in Hm1. injection Hm1 as <-.
    cbn [heap]. rewrite !nth_error_app2, !Nat.sub_diag by lia. reflexivity.
  - intros w1 w2 Hn Hg.
    rewrite !recommend_value_correct. now rewrite Hn, Hg.
  - intro w. apply recommend_frame.
Qed.

(** C9, counterexample to the claim as stated, on the scenario with k = 1:
    [find_gaps] changes the component ([gap_points] goes from unset to the
    returned table); [recommend_locations], called with the same (empty)
    argument list, returns the empty frame before that call and one site
    after it; and it writes a [cluster] column into the table that
    [find_gaps] returned. *)
Lemma find_gaps_result_is_retained_and_rewritten :
  find_gaps 0%nat 1%nat (world_A 1 5) = (Ok 2%nat, after_A 1 5) /\
  gap_points (self (world_A 1 5)) = None /\
  gap_points (self (after_A 1 5)) = Some 2%nat /\
  fst (recommend_locations KMeans.lloyd stable_sort_desc (world_A 1 5))
  = Ok empty_recommendations /\
  (exists site,
     fst (recommend_locations KMeans.lloyd stable_sort_desc (after_A 1 5))
     = Ok {| columns := recommendation_columns; rows := [site] |}) /\
  nth_error (heap (after_A 1 5)) 2%nat = Some gaps_A /\
  nth_error
    (heap (snd (recommend_locations KMeans.lloyd stable_sort_desc
                  (after_A 1 5)))) 2%nat
  = Some {| columns :=
              ["latitude"; "longitude"; "demand_score"; "cluster"]%string;
            rows := [(1%Z, [12.97; 77.59; 8; 0])] |}.
Proof.
  split; [exact (find_gaps_A 1 5 radius_5_in_range)|].
  split; [reflexivity|]. split; [reflexivity|].
  split; [reflexivity|]. split; [|split; [reflexivity|]].
  - eexists. vm_compute. reflexivity.
  - vm_compute. reflexivity.
Qed.

End StateProps.

(** ** Cluster scores: grouping demand by label *)

Module ScoreFacts.
Import PyFacts Pandas PandasFacts ColumnFacts RecommendFacts.










Section Scores.

Variables (labels : list nat) (scores : list Q) (k : nat).
Hypothesis labels_scores : length labels = length scores.
Hypothesis labels_below : Forall (fun l => (l < k)%nat) labels.

Let groups := groupby_sum (combine (labels_column labels) scores).










End Scores.

End ScoreFacts.

(** ** Sorting rows by a key, descending *)

Module SortFacts.
Import PyFacts Pandas.











End SortFacts.

(** ** Recommended sites *)

Module SiteProps.
Import PyFacts Pandas PandasFacts ColumnFacts Models GapFacts RecommendFacts.
Import ScoreFacts SortFacts Scenario.









Section WithEstimator.

Variable sorter : Sorter.




End WithEstimator.




End SiteProps.

(** ** Placement: what [recommend_locations] returns for stored gaps *)

Module PlacementProps.
Import PyFacts Pandas PandasFacts ColumnFacts Geo GeoFacts Models GapFacts.
Import RecommendFacts ScoreFacts SortFacts Scenario SiteProps.


End PlacementProps.

(** ** Placement on concrete inputs *)

Module PlacementExamples.
Import PyFacts Pandas PandasFacts ColumnFacts Geo GeoFacts Models GapFacts.
Import RecommendFacts ScoreFacts SortFacts Scenario SiteProps PlacementProps.











End PlacementExamples.

(** ** The heuristic fallback: what it keeps of the linear program *)

Module HeuristicProps.
Import PyFacts HeuristicFacts RoundFacts LpFacts Optimization ScheduleProps.

Lemma sum_nonneg (xs : list Q) : Forall (fun x => 0 <= x) xs -> 0 <= Py.sum xs.
Proof.
  induction 1 as [|x xs Hx Hall IH].
  - rewrite sum_nil. lra.
  - rewrite sum_cons. lra.
Qed.

Lemma mean_nonneg (xs : list Q) : Forall (fun x => 0 <= x) xs -> 0 <= mean xs.
Proof.
  intro H. unfold mean. destruct xs as [|x xs].
  - unfold Py.sum. simpl. unfold Qdiv. simpl. lra.
  - apply Qle_shift_div_l.
    + apply inject_nat_pos. simpl. lia.
    + pose proof (sum_nonneg _ H). lra.
Qed.

Lemma shave_peaks_pool avg shift loads e :
  0 <= shift -> Forall (fun x => 0 <= x) loads -> 0 <= e ->
  0 <= snd (shave_peaks avg shift loads e).
Proof.
  intros Hs Hall. revert e.
  induction Hall as [|l rest Hl Hall IH]; intros e He; simpl; [assumption|].
  destruct (Qltb (avg * (12 # 10)) l).
  - assert (H : 0 <= e + l * shift) by nra.
    specialize (IH _ H).
    destruct (shave_peaks avg shift rest (e + l * shift)). exact IH.
  - specialize (IH _ He). destruct (shave_peaks avg shift rest e). exact IH.
Qed.

Lemma fill_valleys_pool avg opt e :
  0 <= e -> 0 <= snd (fill_valleys avg opt e).
Proof.
  revert e. induction opt as [|o rest IH]; intros e He; simpl; [assumption|].
  destruct (Qltb o (avg * (8 # 10)) && Qltb 0 e).
  - assert (H : 0 <= e - min2 e (avg - o)).
    { pose proof (min2_le_l e (avg - o)). lra. }
    specialize (IH _ H).
    destruct (fill_valleys avg rest (e - min2 e (avg - o))). exact IH.
  - specialize (IH _ He). destruct (fill_valleys avg rest e). exact IH.
Qed.

Lemma heuristic_passes_pool original shift :
  0 <= shift -> Forall (fun x => 0 <= x) original ->
  0 <= snd (heuristic_passes original shift).
Proof.
  intros Hs Hall. unfold heuristic_passes.
  pose proof (shave_peaks_pool (mean original) shift original 0 Hs Hall
                ltac:(lra)) as H.
  destruct (shave_peaks (mean original) shift original 0) as [opt e].
  simpl in H. now apply fill_valleys_pool.
Qed.

(** Hour by hour, pass 1 keeps at least the fraction [1 - shift] of a
    non-negative load. *)
Lemma shave_peaks_floor avg shift loads e :
  0 <= shift -> shift <= 1 -> Forall (fun x => 0 <= x) loads ->
  Forall2 (fun o x => o * (1 - shift) <= x /\ 0 <= x) loads
          (fst (shave_peaks avg shift loads e)).
Proof.
  intros Hs0 Hs1 Hall. revert e.
  induction Hall as [|l rest Hl Hall IH]; intro e; simpl; [constructor|].
  destruct (Qltb (avg * (12 # 10)) l).
  - specialize (IH (e + l * shift)).
    destruct (shave_peaks avg shift rest (e + l * shift)). simpl in *.
    constructor; [|exact IH]. split; nra.
  - specialize (IH e).
    destruct (shave_peaks avg shift rest e). simpl in *.
    constructor; [|exact IH]. split; nra.
Qed.

(** Pass 2 only adds to an hour when the mean is non-negative. *)
Lemma fill_valleys_floor avg (bounds opt : list Q) e :
  0 <= avg ->
  Forall2 (fun b x => b <= x /\ 0 <= x) bounds opt ->
  Forall2 (fun b x => b <= x /\ 0 <= x) bounds (fst (fill_valleys avg opt e)).
Proof.
  intros Havg H2. revert e.
  induction H2 as [|b o bounds opt [Hb Ho] H2 IH]; intro e; simpl;
    [constructor|].
  destruct (Qltb o (avg * (8 # 10)) && Qltb 0 e) eqn:E.
  - apply andb_true_iff in E as [E1 E2].
    apply Qltb_lt in E1. apply Qltb_lt in E2.
    assert (Hfill : 0 <= min2 e (avg - o)).
    { unfold min2. destruct (Qltb (avg - o) e); lra. }
    specialize (IH (e - min2 e (avg - o))).
    destruct (fill_valleys avg opt (e - min2 e (avg - o))). simpl in *.
    constructor; [|exact IH]. split; lra.
  - specialize (IH e).
    destruct (fill_valleys avg opt e). simpl in *.
    constructor; [|exact IH]. split; assumption.
Qed.

Lemma heuristic_passes_floor original shift :
  0 <= shift -> shift <= 1 -> Forall (fun x => 0 <= x) original ->
  Forall2 (fun o x => o * (1 - shift) <= x /\ 0 <= x) original
          (fst (heuristic_passes original shift)).
Proof.
  intros Hs0 Hs1 Hall. unfold heuristic_passes.
  pose proof (shave_peaks_floor (mean original) shift original 0 Hs0 Hs1 Hall)
    as H1.
  destruct (shave_peaks (mean original) shift original 0) as [opt e].
  simpl in H1.
  assert (H1' : Forall2 (fun b x => b <= x /\ 0 <= x)
                  (map (fun o => o * (1 - shift)) original) opt).
  { clear - H1. induction H1; simpl; constructor; assumption. }
  pose proof (fill_valleys_floor (mean original) _ opt e
                (mean_nonneg _ Hall) H1') as H2.
  clear - H2. remember (fst (fill_valleys (mean original) opt e)) as out.
  clear Heqout. revert out H2.
  induction original as [|o original IH]; intros out H2; simpl in H2;
    inversion H2; subst; constructor; auto.
Qed.

Lemma heuristic_result_loads hourly_profile shift r :
  _heuristic_optimization hourly_profile shift = Ok r ->
  original_load r = map load hourly_profile /\
  optimized_load r
  = fst (heuristic_passes (map load hourly_profile) shift).
Proof.
  unfold _heuristic_optimization, make_result. intro H.
  destruct (Py.max (map load hourly_profile)); cbn [bind] in H; [|discriminate].
  destruct (Py.max (fst (heuristic_passes (map load hourly_profile) shift)));
    cbn [bind] in H; [|discriminate].
  destruct (div a0 a); cbn [bind] in H; [|discriminate].
  injection H as <-. split; reflexivity.
Qed.

(** X1.  The heuristic fallback never adds energy.  For a profile of
    non-negative loads and a non-negative shift fraction, whatever
    [_heuristic_optimization] returns satisfies
    [sum(optimized_load) + leftover = sum(original_load)] with a
    non-negative [leftover] (the value of the local [excess] at the end), so
    [sum(optimized_load) <= sum(original_load)], with equality exactly when
    the pool was fully absorbed. *)
Theorem heuristic_never_adds_energy
  (hourly_profile : list HourlyRow) (shift : Q) (r : ScheduleResult) :
  Forall (fun x => 0 <= x) (map load hourly_profile) ->
  0 <= shift ->
  _heuristic_optimization hourly_profile shift = Ok r ->
  let leftover := snd (heuristic_passes (original_load r) shift) in
  0 <= leftover /\
  Py.sum (optimized_load r) + leftover == Py.sum (original_load r) /\
  Py.sum (optimized_load r) <= Py.sum (original_load r) /\
  (Py.sum (optimized_load r) == Py.sum (original_load r) <-> leftover == 0).
Proof.
  intros Hall Hs Hr. cbv zeta.
  destruct (heuristic_result_loads _ _ _ Hr) as [Ho Hx]. rewrite Ho, Hx.
  pose proof (heuristic_passes_pool _ _ Hs Hall) as Hp.
  pose proof (heuristic_passes_account (map load hourly_profile) shift) as Ha.
  repeat split; try lra; intro; lra.
Qed.

Lemma heuristic_never_adds_energy_witness :
  exists r,
    _heuristic_optimization spike_profile (3 # 10) = Ok r /\
    let leftover := snd (heuristic_passes (original_load r) (3 # 10)) in
    0 <= leftover /\
    Py.sum (optimized_load r) + leftover == Py.sum (original_load r) /\
    Py.sum (optimized_load r) <= Py.sum (original_load r) /\
    (Py.sum (optimized_load r) == Py.sum (original_load r) <-> leftover == 0).
Proof.
  eexists. split; [vm_compute; reflexivity|].
  apply (heuristic_never_adds_energy spike_profile (3 # 10)).
  - vm_compute. repeat constructor; discriminate.
  - discriminate.
  - vm_compute. reflexivity.
Defined.

(** X2.  The heuristic fallback honours the per-hour bounds of the linear
    program.  For non-negative loads and a shift fraction in [0, 1], every
    hour of the returned schedule keeps at least [original * (1 - shift)],
    is non-negative, and (when the original peak is positive) is at most the
    original peak; only the energy equality of the program can fail. *)
Theorem heuristic_respects_hourly_bounds
  (hourly_profile : list HourlyRow) (shift : Q) (r : ScheduleResult) :
  Forall (fun x => 0 <= x) (map load hourly_profile) ->
  0 <= shift -> shift <= 1 ->
  _heuristic_optimization hourly_profile shift = Ok r ->
  length (optimized_load r) = length (original_load r) /\
  Forall2 (fun o x => o * (1 - shift) <= x /\ 0 <= x)
          (original_load r) (optimized_load r) /\
  (forall m, Py.max (original_load r) = Ok m -> 0 < shift -> 0 < m ->
             Forall (fun x => x <= m) (optimized_load r)).
Proof.
  intros Hall Hs0 Hs1 Hr.
  destruct (heuristic_result_loads _ _ _ Hr) as [Ho Hx]. rewrite Ho, Hx.
  split; [apply heuristic_passes_length|].
  split; [now apply heuristic_passes_floor|].
  intros m Hm Hs Hpos. now apply heuristic_passes_bound.
Qed.

Lemma heuristic_respects_hourly_bounds_witness :
  exists r,
    _heuristic_optimization spike_profile (3 # 10) = Ok r /\
    length (optimized_load r) = length (original_load r) /\
    Forall2 (fun o x => o * (1 - (3 # 10)) <= x /\ 0 <= x)
            (original_load r) (optimized_load r) /\
    (forall m, Py.max (original_load r) = Ok m -> 0 < 3 # 10 -> 0 < m ->
               Forall (fun x => x <= m) (optimized_load r)).
Proof.
  eexists. split; [vm_compute; reflexivity|].
  apply (heuristic_respects_hourly_bounds spike_profile (3 # 10)).
  - vm_compute. repeat constructor; discriminate.
  - discriminate.
  - discriminate.
  - vm_compute. reflexivity.
Defined.

End HeuristicProps.

(** ** The schedule optimizer: flat profiles, degenerate profiles, the
    reported reduction *)

Module ScheduleEdgeProps.
Import PyFacts HeuristicFacts RoundFacts LpFacts Optimization ScheduleProps.
Import HeuristicProps.

Lemma round_half_even_zero (x : Q) : x == 0 -> round_half_even x = 0%Z.
Proof.
  intro Hx. unfold round_half_even.
  assert (Hf : Qfloor x = 0%Z) by (rewrite Hx; reflexivity).
  rewrite Hf.
  assert (E : Qltb (x - inject_Z 0) (1 # 2) = true).
  { apply Qltb_lt. change (inject_Z 0) with 0. lra. }
  now rewrite E.
Qed.

Lemma round2_zero (x : Q) : x == 0 -> round2 x == 0.
Proof.
  intro Hx. unfold round2. rewrite round_half_even_zero; [reflexivity|].
  rewrite Hx. reflexivity.
Qed.

Lemma shave_peaks_no_peak avg shift loads e :
  Forall (fun l => l <= avg * (12 # 10)) loads ->
  shave_peaks avg shift loads e = (loads, e).
Proof.
  induction 1 as [|l rest Hl Hall IH]; simpl; [reflexivity|].
  assert (E : Qltb (avg * (12 # 10)) l = false) by (now apply Qltb_ge).
  now rewrite E, IH.
Qed.

Lemma Qltb_irrefl (x : Q) : Qltb x x = false.
Proof. apply Qltb_ge. lra. Qed.

Lemma fill_valleys_empty_pool avg opt : fill_valleys avg opt 0 = (opt, 0).
Proof.
  induction opt as [|o rest IH]; simpl; [reflexivity|].
  rewrite Qltb_irrefl, andb_false_r. now rewrite IH.
Qed.

(** What [make_result] reports when both peaks exist and the original peak
    is not zero. *)
Lemma make_result_reduction name original optimized m pm :
  Py.max original = Ok m -> Py.max optimized = Ok pm -> ~ m == 0 ->
  make_result name original optimized
  = Ok {| method := name;
          original_load := original;
          optimized_load := optimized;
          original_peak := round2 m;
          optimized_peak := round2 pm;
          peak_reduction_pct := round2 ((1 - pm / m) * 100) |}.
Proof.
  intros Hm Hpm Hnz. unfold make_result. rewrite Hm, Hpm. cbn [bind].
  unfold div. destruct (Qeq_bool m 0) eqn:E.
  - apply Qeq_bool_iff in E. contradiction.
  - reflexivity.
Qed.

(** X3.  A profile whose loads are non-negative and all stay at least
    0.1 % below 1.2 times their mean is left alone by the heuristic: the
    optimized loads are the original loads, the two reported peaks coincide
    and the reported reduction is 0.  (The code compares in double
    precision; the margin, far above the rounding of the mean and of the
    product, keeps every comparison on the side it has in exact
    arithmetic.) *)
Theorem heuristic_leaves_flat_profile_unchanged
  (hourly_profile : list HourlyRow) (shift m : Q) :
  Forall (fun l => 0 <= l /\
                   l * (1001 # 1000)
                   <= mean (map load hourly_profile) * (12 # 10))
         (map load hourly_profile) ->
  Py.max (map load hourly_profile) = Ok m ->
  ~ m == 0 ->
  exists r,
    _heuristic_optimization hourly_profile shift = Ok r /\
    optimized_load r = map load hourly_profile /\
    original_load r = map load hourly_profile /\
    optimized_peak r = original_peak r /\
    peak_reduction_pct r == 0.
Proof.
  intros Hmargin Hmax Hnz.
  assert (Hflat : Forall (fun l => l <= mean (map load hourly_profile)
                                        * (12 # 10))
                    (map load hourly_profile)).
  { eapply Forall_impl; [|exact Hmargin]. cbv beta. intros l [H0 Hl]. lra. }
  unfold _heuristic_optimization, heuristic_passes.
  rewrite (shave_peaks_no_peak _ _ _ _ Hflat), fill_valleys_empty_pool.
  cbn [fst].
  rewrite (make_result_reduction _ _ _ m m Hmax Hmax Hnz).
  eexists. split; [reflexivity|]. cbn.
  repeat split; try reflexivity.
  apply round2_zero. field. exact Hnz.
Qed.

Lemma heuristic_leaves_flat_profile_unchanged_witness :
  exists r,
    _heuristic_optimization flat_profile (3 # 10) = Ok r /\
    optimized_load r = map load flat_profile /\
    original_load r = map load flat_profile /\
    optimized_peak r = original_peak r /\
    peak_reduction_pct r == 0.
Proof.
  apply (heuristic_leaves_flat_profile_unchanged flat_profile (3 # 10) 10).
  - vm_compute. repeat constructor; discriminate.
  - reflexivity.
  - discriminate.
Defined.

Lemma max_zero_loads_nonpositive (xs : list Q) (m : Q) :
  Py.max xs = Ok m -> m == 0 -> Forall (fun x => x <= 0) xs.
Proof.
  intros Hm Hz. pose proof (max_upper _ _ Hm) as Hup.
  eapply Forall_impl; [|exact Hup]. cbv beta. intros a Ha. lra.
Qed.

(** X4.  Degenerate profiles make the optimizer raise, on the LP path and
    on the heuristic path alike: an empty profile raises the [ValueError] of
    [max()] on an empty list, and a non-empty profile whose largest load is
    0 raises [ZeroDivisionError] when the reduction is computed (the shift
    fraction being non-negative). *)
Theorem optimizer_raises_on_degenerate_profiles
  (pulp : option Solver) (hourly_profile : list HourlyRow) (shift : Q) :
  solver_contract pulp ->
  0 <= shift ->
  (hourly_profile = [] ->
   optimize_charging_schedule pulp hourly_profile shift
   = Raise (ValueError "max() arg is an empty sequence")) /\
  (forall m, Py.max (map load hourly_profile) = Ok m -> m == 0 ->
   optimize_charging_schedule pulp hourly_profile shift
   = Raise ZeroDivisionError).
Proof.
  intros Hcontract _. split.
  - intros ->. unfold optimize_charging_schedule.
    destruct pulp as [solve|]; [|reflexivity].
    destruct (status (solve (map load []) shift) =? 1)%Z; reflexivity.
  - intros m Hm Hz.
    assert (Hne : map load hourly_profile <> []).
    { destruct (map load hourly_profile); [discriminate|congruence]. }
    assert (Hraise : forall name optimized,
               length optimized = length (map load hourly_profile) ->
               make_result name (map load hourly_profile) optimized
               = Raise ZeroDivisionError).
    { intros name optimized Hlen. unfold make_result. rewrite Hm. cbn [bind].
      assert (Hone : optimized <> []).
      { destruct optimized; [|congruence].
        destruct (map load hourly_profile); [congruence|discriminate]. }
      destruct (max_defined _ Hone) as [pm Hpm]. rewrite Hpm. cbn [bind].
      unfold div. apply Qeq_bool_iff in Hz. now rewrite Hz. }
    unfold optimize_charging_schedule.
    assert (Hheur : _heuristic_optimization hourly_profile shift
                    = Raise ZeroDivisionError).
    { unfold _heuristic_optimization. apply Hraise.
      apply heuristic_passes_length. }
    destruct pulp as [solve|]; [|exact Hheur].
    destruct (status (solve (map load hourly_profile) shift) =? 1)%Z eqn:E;
      [|exact Hheur].
    apply Z.eqb_eq in E.
    destruct (Hcontract solve eq_refl _ _ E) as [(Hlen & _) _].
    now apply Hraise.
Qed.

Definition idle_profile : list HourlyRow :=
  [ {| hour_of_day := 0; load := 0; load_pct := None |};
    {| hour_of_day := 1; load := 0; load_pct := None |} ].

Lemma optimizer_raises_on_degenerate_profiles_witness :
  (idle_profile = [] ->
   optimize_charging_schedule (Some flat_solver) idle_profile (3 # 10)
   = Raise (ValueError "max() arg is an empty sequence")) /\
  (forall m, Py.max (map load idle_profile) = Ok m -> m == 0 ->
   optimize_charging_schedule (Some flat_solver) idle_profile (3 # 10)
   = Raise ZeroDivisionError).
Proof.
  apply (optimizer_raises_on_degenerate_profiles
           (Some flat_solver) idle_profile (3 # 10)).
  - exact flat_solver_contract.
  - discriminate.
Defined.

Lemma max_nonneg (xs : list Q) (m : Q) :
  Py.max xs = Ok m -> Forall (fun x => 0 <= x) xs -> 0 <= m.
Proof.
  destruct xs as [|x xs]; simpl; intros H Hall; [discriminate|].
  injection H as <-. inversion Hall; subst.
  pose proof (max_from_ge_init x xs). lra.
Qed.

Lemma reduction_range (m pm : Q) :
  0 < m -> 0 <= pm -> pm <= m ->
  0 <= round2 ((1 - pm / m) * 100) /\ round2 ((1 - pm / m) * 100) <= 100.
Proof.
  intros Hm Hpm Hle.
  assert (H0 : 0 <= pm / m) by (apply Qle_shift_div_l; lra).
  assert (H1 : pm / m <= 1) by (apply Qle_shift_div_r; lra).
  split.
  - apply Qle_trans with (round2 0); [vm_compute; discriminate|].
    apply round2_mono. lra.
  - apply Qle_trans with (round2 100); [|vm_compute; discriminate].
    apply round2_mono. lra.
Qed.

(** Both paths at once: the call returns, the optimized peak is at most the
    original one and the reported reduction is between 0 and 100. *)
Lemma optimize_peak_and_reduction
  (pulp : option Solver) (hourly_profile : list HourlyRow) (shift m : Q) :
  solver_contract pulp ->
  0 < shift -> shift <= 1 ->
  Forall (fun x => 0 <= x) (map load hourly_profile) ->
  Py.max (map load hourly_profile) = Ok m -> 0 < m ->
  exists r pm,
    optimize_charging_schedule pulp hourly_profile shift = Ok r /\
    original_load r = map load hourly_profile /\
    Py.max (optimized_load r) = Ok pm /\
    pm <= m /\
    0 <= peak_reduction_pct r /\ peak_reduction_pct r <= 100.
Proof.
  intros Hcontract Hs0 Hs1 Hall Hmax Hm.
  assert (Hnz : ~ m == 0) by lra.
  assert (Hgen : forall name optimized,
             length optimized = length (map load hourly_profile) ->
             Forall (fun x => 0 <= x) optimized ->
             Forall (fun x => x <= m) optimized ->
             exists r pm,
               make_result name (map load hourly_profile) optimized = Ok r /\
               original_load r = map load hourly_profile /\
               Py.max (optimized_load r) = Ok pm /\
               pm <= m /\
               0 <= peak_reduction_pct r /\ peak_reduction_pct r <= 100).
  { intros name optimized Hlen Hpos Hle.
    assert (Hone : optimized <> []).
    { destruct optimized; [|congruence].
      destruct (map load hourly_profile); [discriminate|discriminate]. }
    destruct (max_defined _ Hone) as [pm Hpm].
    rewrite (make_result_reduction _ _ _ m pm Hmax Hpm Hnz).
    eexists. exists pm. split; [reflexivity|].
    cbn [peak_reduction_pct original_load optimized_load].
    pose proof (max_le_bound optimized _ _ Hpm Hle) as Hpmle.
    split; [reflexivity|]. split; [exact Hpm|]. split; [exact Hpmle|].
    apply reduction_range; [exact Hm| |exact Hpmle].
    now apply (max_nonneg optimized). }
  assert (Hheur : exists r pm,
             _heuristic_optimization hourly_profile shift = Ok r /\
             original_load r = map load hourly_profile /\
             Py.max (optimized_load r) = Ok pm /\
             pm <= m /\
             0 <= peak_reduction_pct r /\ peak_reduction_pct r <= 100).
  { unfold _heuristic_optimization. apply Hgen.
    - apply heuristic_passes_length.
    - pose proof (heuristic_passes_floor (map load hourly_profile) shift
                    ltac:(lra) Hs1 Hall) as H2.
      clear - H2.
      induction H2 as [|? ? ? ? [_ ?] ? IH]; constructor; assumption.
    - now apply heuristic_passes_bound. }
  unfold optimize_charging_schedule.
  destruct pulp as [solve|]; [|exact Hheur].
  destruct (status (solve (map load hourly_profile) shift) =? 1)%Z eqn:E;
    [|exact Hheur].
  apply Z.eqb_eq in E.
  pose proof (Hcontract solve eq_refl _ _ E) as Hopt.
  destruct (lp_optimal_bound _ _ m _ Hs0 Hs1 Hm Hmax Hopt) as [Hlen Hle].
  destruct Hopt as [(_ & Hpos & _) _].
  now apply Hgen.
Qed.

(** X5.  The reported reduction is a percentage.  For non-negative loads
    with a positive peak and a shift fraction in (0, 1], on either path,
    [peak_reduction_pct] lies between 0 and 100; the code needs no clamp. *)
Theorem peak_reduction_is_a_percentage
  (pulp : option Solver) (hourly_profile : list HourlyRow) (shift m : Q) :
  solver_contract pulp ->
  0 < shift -> shift <= 1 ->
  Forall (fun x => 0 <= x) (map load hourly_profile) ->
  Py.max (map load hourly_profile) = Ok m -> 0 < m ->
  exists r,
    optimize_charging_schedule pulp hourly_profile shift = Ok r /\
    0 <= peak_reduction_pct r /\ peak_reduction_pct r <= 100.
Proof.
  intros Hcontract Hs0 Hs1 Hall Hmax Hm.
  destruct (optimize_peak_and_reduction pulp hourly_profile shift m)
    as (r & pm & Hr & _ & _ & _ & Hlo & Hhi); try assumption.
  exists r. repeat split; assumption.
Qed.

Lemma peak_reduction_is_a_percentage_witness :
  exists r,
    optimize_charging_schedule None spike_profile (3 # 10) = Ok r /\
    0 <= peak_reduction_pct r /\ peak_reduction_pct r <= 100.
Proof.
  apply (peak_reduction_is_a_percentage None spike_profile (3 # 10) 20).
  - intros solve H. discriminate.
  - reflexivity.
  - discriminate.
  - vm_compute. repeat constructor; discriminate.
  - reflexivity.
  - reflexivity.
Defined.

End ScheduleEdgeProps.

(** ** [analyze_load_profile]: a table without rows *)

Module ProfileExtraProps.
Import PyFacts Pandas PandasFacts Optimization ProfileProps.

(** X8.  A table that has the hour column but no rows is not answered with
    [None]: [idxmax] on the empty grouped frame raises [ValueError]. *)
Theorem analyze_raises_on_table_without_rows (df : DataFrame) :
  has_column "hour_of_day" df = true ->
  rows df = [] ->
  analyze_load_profile df
  = Raise (ValueError "attempt to get argmax of an empty sequence").
Proof.
  intros Hcol Hrows.
  destruct (readings_defined df Hcol) as (pairs & Hread & Hlen & _).
  rewrite Hrows in Hlen. destruct pairs; [|discriminate].
  unfold analyze_load_profile, hourly_frame.
  rewrite Hcol, Hread. reflexivity.
Qed.

Definition no_sessions : DataFrame :=
  {| columns := ["hour_of_day"; "kwh"]%string; rows := [] |}.

Lemma analyze_raises_on_table_without_rows_witness :
  analyze_load_profile no_sessions
  = Raise (ValueError "attempt to get argmax of an empty sequence").
Proof.
  apply (analyze_raises_on_table_without_rows no_sessions); reflexivity.
Defined.

End ProfileExtraProps.

(** ** Gap detection: coverage, monotonicity, failures *)

Module GapExtraProps.
Import Pandas PandasFacts Geo GeoFacts Models GapFacts Scenario.

(** X10.  For station and demand tables with coordinates and at least one
    row each, [find_gaps] returns a new table with the demand table's
    columns whose rows are the demand rows, in their order and with their
    index labels, that have no station within the radius: a demand row is
    returned exactly when its station count is zero.  The table is stored at
    a fresh reference, so both input tables are as before. *)
Theorem find_gaps_returns_the_uncovered_rows
  (ls ld : loc) (w : World) (stations demand : DataFrame) :
  nth_error (heap w) ls = Some stations ->
  nth_error (heap w) ld = Some demand ->
  has_coordinates stations -> has_coordinates demand ->
  rows stations <> [] -> rows demand <> [] ->
  exists l w' gaps,
    find_gaps ls ld w = (Ok l, w') /\
    nth_error (heap w') l = Some gaps /\
    nth_error (heap w') ls = Some stations /\
    nth_error (heap w') ld = Some demand /\
    columns gaps = columns demand /\
    rows gaps
    = filter (fun r => Nat.eqb 0 (station_count (coverage_radius_km (self w))
                                    stations (point_of demand r)))
             (rows demand) /\
    (forall r, In r (rows demand) ->
       (In r (rows gaps) <->
        station_count (coverage_radius_km (self w)) stations
          (point_of demand r) = 0%nat)).
Proof.
  intros Es Ed Hs Hd Hsne Hdne.
  eexists _, _, _.
  split; [now apply (find_gaps_ok ls ld w stations demand)|].
  cbn [heap].
  split; [rewrite nth_error_app2, Nat.sub_diag by lia; reflexivity|].
  split.
  { rewrite nth_error_app1; [exact Es|]. apply nth_error_Some. congruence. }
  split.
  { rewrite nth_error_app1; [exact Ed|]. apply nth_error_Some. congruence. }
  split; [reflexivity|]. split; [reflexivity|].
  intros r Hr. unfold gaps_of. cbn [rows]. rewrite filter_In.
  unfold uncovered. rewrite Nat.eqb_eq. intuition congruence.
Qed.

Lemma find_gaps_returns_the_uncovered_rows_witness :
  exists l w' gaps,
    find_gaps 0%nat 1%nat (world_A 5 5) = (Ok l, w') /\
    nth_error (heap w') l = Some gaps /\
    nth_error (heap w') 0%nat = Some stations_A /\
    nth_error (heap w') 1%nat = Some demand_A /\
    columns gaps = columns demand_A /\
    rows gaps
    = filter (fun r => Nat.eqb 0 (station_count
                                    (coverage_radius_km (self (world_A 5 5)))
                                    stations_A (point_of demand_A r)))
             (rows demand_A) /\
    (forall r, In r (rows demand_A) ->
       (In r (rows gaps) <->
        station_count (coverage_radius_km (self (world_A 5 5))) stations_A
          (point_of demand_A r) = 0%nat)).
Proof.
  apply (find_gaps_returns_the_uncovered_rows 0%nat 1%nat (world_A 5 5)
           stations_A demand_A).
  - reflexivity.
  - reflexivity.
  - exact stations_A_coordinates.
  - exact demand_A_coordinates.
  - discriminate.
  - discriminate.
Defined.

Lemma radius_rad_mono (r1 r2 : Q) :
  r1 <= r2 -> (radius_rad r1 <= radius_rad r2)%R.
Proof.
  intro H. unfold radius_rad, earth_radius_km.
  apply Qreals.Qle_Rle in H.
  apply Rmult_le_compat_r; [|exact H].
  apply Rlt_le, Rinv_0_lt_compat. lra.
Qed.

Lemma within_mono (r1 r2 : R) (q s : R * R) :
  (r1 <= r2)%R -> within r1 q s = true -> within r2 q s = true.
Proof.
  unfold within. intros Hr H.
  destruct (Rle_dec (haversine q s) r1); [|discriminate].
  destruct (Rle_dec (haversine q s) r2); [reflexivity|lra].
Qed.

Lemma filter_nil_iff {A} (f : A -> bool) (l : list A) :
  length (filter f l) = 0%nat <-> forall a, In a l -> f a = false.
Proof.
  induction l as [|a l IH]; simpl.
  - split; [intros _ b []|reflexivity].
  - destruct (f a) eqn:E; simpl.
    + split; [discriminate|]. intro H. specialize (H a (or_introl eq_refl)).
      congruence.
    + rewrite IH. split.
      * intros H b [<-|Hb]; [assumption|now apply H].
      * intros H b Hb. apply H. now right.
Qed.

(** More coverage, no new gaps: a point with no station in range of the
    larger radius among the larger station set has none in range of the
    smaller radius among the smaller set. *)
Lemma station_count_zero_mono r1 r2 stations1 stations2 q :
  r1 <= r2 ->
  incl (coords_of stations1) (coords_of stations2) ->
  station_count r2 stations2 q = 0%nat ->
  station_count r1 stations1 q = 0%nat.
Proof.
  intros Hr Hincl. unfold station_count. rewrite !filter_nil_iff.
  intros H s Hs. apply in_map_iff in Hs as (p & <- & Hp).
  specialize (H (to_radians p) (in_map _ _ _ (Hincl p Hp))).
  destruct (within (radius_rad r1) (to_radians q) (to_radians p)) eqn:E;
    [|reflexivity].
  apply (within_mono _ (radius_rad r2)) in E; [congruence|].
  now apply radius_rad_mono.
Qed.

(** X11.  Gaps shrink as coverage grows.  Take one demand table and two
    runs of [find_gaps]: the second with a radius at least as large and with
    a station table that contains every station position of the first.
    Then every row returned by the second run is returned by the first. *)
Theorem gaps_shrink_as_coverage_grows
  (ls ld : loc) (w1 w2 : World) (stations1 stations2 demand : DataFrame) :
  nth_error (heap w1) ls = Some stations1 ->
  nth_error (heap w2) ls = Some stations2 ->
  nth_error (heap w1) ld = Some demand ->
  nth_error (heap w2) ld = Some demand ->
  has_coordinates stations1 -> has_coordinates stations2 ->
  has_coordinates demand ->
  rows stations1 <> [] -> rows demand <> [] ->
  coverage_radius_km (self w1) <= coverage_radius_km (self w2) ->
  incl (coords_of stations1) (coords_of stations2) ->
  exists l1 w1' g1 l2 w2' g2,
    find_gaps ls ld w1 = (Ok l1, w1') /\
    nth_error (heap w1') l1 = Some g1 /\
    find_gaps ls ld w2 = (Ok l2, w2') /\
    nth_error (heap w2') l2 = Some g2 /\
    incl (rows g2) (rows g1).
Proof.
  intros Es1 Es2 Ed1 Ed2 Hs1 Hs2 Hd Hne1 Hdne Hr Hincl.
  assert (Hne2 : rows stations2 <> []).
  { intro Hnil. destruct (rows stations1) as [|r rs] eqn:E; [congruence|].
    assert (Hin : In (point_of stations1 r) (coords_of stations2)).
    { apply Hincl. unfold coords_of. rewrite E. now left. }
    unfold coords_of in Hin. rewrite Hnil in Hin. contradiction. }
  eexists _, _, _, _, _, _.
  split; [now apply (find_gaps_ok ls ld w1 stations1 demand)|].
  split; [cbn [heap]; rewrite nth_error_app2, Nat.sub_diag by lia; reflexivity|].
  split; [now apply (find_gaps_ok ls ld w2 stations2 demand)|].
  split; [cbn [heap]; rewrite nth_error_app2, Nat.sub_diag by lia; reflexivity|].
  intros r Hin. unfold gaps_of in *. cbn [rows] in *.
  apply filter_In in Hin as [Hin Hu]. apply filter_In. split; [exact Hin|].
  unfold uncovered in *. apply Nat.eqb_eq in Hu. apply Nat.eqb_eq.
  symmetry. symmetry in Hu.
  now apply (station_count_zero_mono _ (coverage_radius_km (self w2))
               stations1 stations2).
Qed.

Lemma gaps_shrink_as_coverage_grows_witness :
  exists l1 w1' g1 l2 w2' g2,
    find_gaps 0%nat 1%nat (world_A 5 0) = (Ok l1, w1') /\
    nth_error (heap w1') l1 = Some g1 /\
    find_gaps 0%nat 1%nat (world_A 5 5) = (Ok l2, w2') /\
    nth_error (heap w2') l2 = Some g2 /\
    incl (rows g2) (rows g1).
Proof.
  apply (gaps_shrink_as_coverage_grows 0%nat 1%nat (world_A 5 0) (world_A 5 5)
           stations_A stations_A demand_A).
  - reflexivity.
  - reflexivity.
  - reflexivity.
  - reflexivity.
  - exact stations_A_coordinates.
  - exact stations_A_coordinates.
  - exact demand_A_coordinates.
  - discriminate.
  - discriminate.
  - discriminate.
  - apply incl_refl.
Defined.

Lemma column_pair_missing a b df :
  has_column a df = false \/ has_column b df = false ->
  exists key, column_pair a b df = Raise (KeyError key).
Proof.
  intro H. unfold column_pair.
  destruct (has_column a df) eqn:Ea.
  - destruct H as [H|H]; [discriminate|].
    destruct (column_defined _ _ Ea) as (xs & Hx & _). rewrite Hx.
    cbn [Py.bind]. rewrite (column_missing _ _ H). cbn [Py.bind]. eauto.
  - rewrite (column_missing _ _ Ea). cbn [Py.bind]. eauto.
Qed.

(** X12.  How [find_gaps] fails.  A station table or a demand table without
    a latitude or longitude column raises [KeyError]; with coordinates
    present, an empty station table or an empty demand table raises
    [ValueError].  In each case the store and the component are exactly as
    before the call: [gap_points] keeps whatever an earlier call left. *)
Theorem find_gaps_failures_leave_the_world_unchanged
  (ls ld : loc) (w : World) (stations demand : DataFrame) :
  nth_error (heap w) ls = Some stations ->
  nth_error (heap w) ld = Some demand ->
  ((has_column "latitude" stations = false \/
    has_column "longitude" stations = false \/
    has_column "latitude" demand = false \/
    has_column "longitude" demand = false) ->
   exists key, find_gaps ls ld w = (Raise (KeyError key), w)) /\
  (has_coordinates stations -> has_coordinates demand ->
   rows stations = [] \/ rows demand = [] ->
   exists msg, find_gaps ls ld w = (Raise (ValueError msg), w)).
Proof.
  intros Es Ed. split.
  - intro Hmiss. unfold find_gaps, mbind, deref. rewrite Es, Ed.
    unfold get_self, lift, gap_mask.
    destruct (has_column "latitude" stations) eqn:A1;
      [destruct (has_column "longitude" stations) eqn:A2|].
    + rewrite (column_pair_coords stations (conj A1 A2)). cbn [Py.bind].
      destruct (column_pair_missing "latitude" "longitude" demand)
        as [key Hk].
      { destruct Hmiss as [H|[H|[H|H]]]; try discriminate; auto. }
      rewrite Hk. cbn [Py.bind]. eauto.
    + destruct (column_pair_missing "latitude" "longitude" stations)
        as [key Hk]; [now right|].
      rewrite Hk. cbn [Py.bind]. eauto.
    + destruct (column_pair_missing "latitude" "longitude" stations)
        as [key Hk]; [now left|].
      rewrite Hk. cbn [Py.bind]. eauto.
  - intros Hs Hd Hempty. unfold find_gaps, mbind, deref. rewrite Es, Ed.
    unfold get_self, lift, gap_mask.
    rewrite (column_pair_coords _ Hs), (column_pair_coords _ Hd).
    cbn [Py.bind]. unfold coords_of.
    destruct (rows stations) as [|s ss] eqn:E1.
    + cbn [map new_BallTree Py.bind]. eauto.
    + destruct Hempty as [H|H]; [discriminate|]. rewrite H.
      cbn [map new_BallTree query_radius Py.bind]. eauto.
Qed.

Definition unlabelled_stations : DataFrame :=
  {| columns := ["lat"; "longitude"]%string; rows := [(0%Z, [28.70; 77.10])] |}.

Lemma find_gaps_failures_leave_the_world_unchanged_witness :
  (exists key,
     find_gaps 0%nat 1%nat
       {| heap := [unlabelled_stations; demand_A]; self := __init__ 5 5 |}
     = (Raise (KeyError key),
        {| heap := [unlabelled_stations; demand_A]; self := __init__ 5 5 |})).
Proof.
  apply (find_gaps_failures_leave_the_world_unchanged 0%nat 1%nat
           {| heap := [unlabelled_stations; demand_A]; self := __init__ 5 5 |}
           unlabelled_stations demand_A eq_refl eq_refl).
  left. reflexivity.
Defined.

End GapExtraProps.

(** ** [recommend_locations]: repeated calls and requested counts below 1 *)

Module RecommendExtraProps.
Import Pandas PandasFacts ColumnFacts Models GapFacts RecommendFacts.
Import SortFacts Scenario.

Definition with_model (me : StationClusterer) (k : Z)
  (centers : option (list (Q * Q))) : StationClusterer :=
  {| n_new_stations := n_new_stations me;
     coverage_radius_km := coverage_radius_km me;
     model := {| n_clusters := k; cluster_centers_ := centers |};
     gap_points := gap_points me |}.

Section WithEstimator.

Variable estimator : KMeans.Estimator.
Variable sorter : Sorter.

(** The call, once the stored table and its coordinates are known. *)
Lemma recommend_unfold (w : World) (l : loc) (gaps : DataFrame)
  (coords : list (Q * Q)) :
  gap_points (self w) = Some l ->
  nth_error (heap w) l = Some gaps ->
  Pandas.empty gaps = false ->
  column_pair "latitude" "longitude" gaps = Ok coords ->
  recommend_locations estimator sorter w
  = let k := Z.min (n_new_stations (self w)) (Z.of_nat (length coords)) in
    if (k =? 0)%Z then (Ok empty_recommendations, w)
    else if (k <? 1)%Z then
      (Raise (ValueError "n_clusters must be an int in the range [1, inf)"),
       {| heap := heap w;
          self := with_model (self w) k (cluster_centers_ (model (self w))) |})
    else
      let fit := estimator (Z.to_nat k) coords in
      match set_column "cluster" (labels_column (fst fit)) gaps with
      | Raise e =>
          (Raise e,
           {| heap := heap w;
              self := with_model (self w) k (Some (snd fit)) |})
      | Ok labelled =>
          (build_recommendations sorter labelled (snd fit),
           {| heap := update_nth l labelled (heap w);
              self := with_model (self w) k (Some (snd fit)) |})
      end.
Proof.
  intros Hl Hg He Hc. cbv zeta.
  unfold recommend_locations, mbind, get_self, deref.
  rewrite Hl, Hg, He. unfold lift. rewrite Hc. cbv zeta.
  destruct (Z.min (n_new_stations (self w)) (Z.of_nat (length coords)) =? 0)%Z;
    [reflexivity|].
  unfold set_n_clusters, fit_predict, mbind, get_self, put_self. cbn [self].
  destruct (Z.min (n_new_stations (self w)) (Z.of_nat (length coords)) <? 1)%Z;
    [reflexivity|].
  unfold ret, lift, labels_column, with_model.
  cbn [n_new_stations coverage_radius_km gap_points heap].
  destruct (set_column _ _ gaps) as [labelled|e]; reflexivity.
Qed.

Lemma update_nth_twice l df h :
  update_nth l df (update_nth l df h) = update_nth l df h.
Proof.
  revert l. induction h as [|d h IH]; intros [|l]; simpl; try reflexivity.
  now rewrite IH.
Qed.

Lemma replace_nth_twice i v cells :
  replace_nth i v (replace_nth i v cells) = replace_nth i v cells.
Proof.
  revert i. induction cells as [|c cells IH]; intros [|i]; simpl;
    try reflexivity.
  now rewrite IH.
Qed.

Lemma replace_nth_appended v cells :
  replace_nth (length cells) v (cells ++ [v]) = cells ++ [v].
Proof.
  induction cells as [|c cells IH]; simpl; [reflexivity|now rewrite IH].
Qed.

Lemma map_combine_again {A B} (f g : A * B -> A) (l : list A) (vs : list B) :
  (forall r v, In (r, v) (combine l vs) -> g (f (r, v), v) = f (r, v)) ->
  map g (combine (map f (combine l vs)) vs) = map f (combine l vs).
Proof.
  revert vs. induction l as [|r l IH]; intros [|v vs] H; simpl;
    try reflexivity.
  f_equal.
  - apply H. now left.
  - apply IH. intros r' v' Hin. apply H. now right.
Qed.

(** Writing the same values into the same column a second time changes
    nothing. *)
Lemma set_column_twice name values df df' :
  rectangular df ->
  set_column name values df = Ok df' ->
  set_column name values df' = Ok df'.
Proof.
  intros Hrect Hset.
  destruct (Nat.eq_dec (length values) (length (rows df))) as [Hlen|Hlen].
  2:{ destruct (set_column_bad_length name values df Hlen) as [e He].
      congruence. }
  rewrite (set_column_ok _ _ _ Hlen) in Hset. injection Hset as <-.
  set (df' := {| columns := _; rows := _ |}).
  assert (Hlen' : length values = length (rows df')).
  { unfold df'. cbn [rows]. rewrite length_map, length_combine. lia. }
  rewrite (set_column_ok _ _ _ Hlen'). f_equal.
  assert (Hidx : exists i, index_of name (columns df') = Some i /\
                   match index_of name (columns df) with
                   | Some j => i = j
                   | None => i = length (columns df)
                   end).
  { unfold df'. cbn [columns].
    destruct (index_of name (columns df)) as [j|] eqn:E.
    - exists j. now rewrite E.
    - exists (length (columns df)). split; [|reflexivity].
      now apply index_of_app_new. }
  destruct Hidx as (i & Hi & Hij).
  match goal with
  | |- {| columns := ?A; rows := ?B |} = _ =>
      enough (A = columns df' /\ B = rows df') as [HA HB]
        by (rewrite HA, HB; reflexivity)
  end.
  split.
  - rewrite Hi. reflexivity.
  - unfold df' at 2 3. cbn [rows]. apply map_combine_again.
    intros r v Hin. unfold write_cell at 1. rewrite Hi. cbn [fst snd].
    unfold write_cell.
    destruct (index_of name (columns df)) as [j|] eqn:E; cbn [fst snd].
    + subst i. now rewrite replace_nth_twice.
    + subst i. apply in_combine_l in Hin. unfold rectangular in Hrect.
      rewrite Forall_forall in Hrect. rewrite <- (Hrect r Hin).
      now rewrite replace_nth_appended.
Qed.

Lemma column_pair_has_coordinates df coords :
  column_pair "latitude" "longitude" df = Ok coords -> has_coordinates df.
Proof.
  intro H. unfold column_pair in H. split.
  - destruct (has_column "latitude" df) eqn:E; [reflexivity|].
    rewrite (column_missing _ _ E) in H. discriminate.
  - destruct (has_column "longitude" df) eqn:E; [reflexivity|].
    rewrite (column_missing _ _ E) in H.
    destruct (column "latitude" df); discriminate.
Qed.

Lemma column_pair_after_write values df df' :
  rectangular df ->
  has_coordinates df ->
  set_column "cluster" values df = Ok df' ->
  column_pair "latitude" "longitude" df'
  = column_pair "latitude" "longitude" df.
Proof.
  intros Hrect [Hlat Hlon] Hset.
  destruct (Nat.eq_dec (length values) (length (rows df))) as [Hlen|Hlen].
  2:{ destruct (set_column_bad_length "cluster" values df Hlen) as [e He].
      congruence. }
  unfold column_pair.
  rewrite (column_other_after_write "cluster" "latitude" values df df');
    try assumption; try discriminate.
  rewrite (column_other_after_write "cluster" "longitude" values df df');
    try assumption; try discriminate.
  reflexivity.
Qed.

Lemma empty_after_write name values df df' :
  Pandas.empty df = false ->
  set_column name values df = Ok df' ->
  Pandas.empty df' = false.
Proof.
  intros He Hset.
  destruct (Nat.eq_dec (length values) (length (rows df))) as [Hlen|Hlen].
  2:{ destruct (set_column_bad_length name values df Hlen) as [e H].
      congruence. }
  rewrite (set_column_ok _ _ _ Hlen) in Hset. injection Hset as <-.
  unfold Pandas.empty in *. cbn [columns rows].
  destruct (columns df) as [|c cs] eqn:Ec; [discriminate|].
  destruct (rows df) as [|r rs] eqn:Er; [discriminate|].
  destruct values as [|v vs]; [discriminate|].
  cbn [combine map].
  destruct (index_of name (c :: cs)); reflexivity.
Qed.

(** X13.  Calling [recommend_locations] again changes nothing.  When the
    stored gap table (if any) is rectangular, a second call returns the same
    value as the first, raising the same exception if the first raised, and
    leaves the store and the component exactly as the first call left
    them. *)
Theorem recommend_locations_twice (w : World) :
  (forall l gaps, gap_points (self w) = Some l ->
                  nth_error (heap w) l = Some gaps -> rectangular gaps) ->
  recommend_locations estimator sorter
    (snd (recommend_locations estimator sorter w))
  = recommend_locations estimator sorter w.
Proof.
  intro Hrect.
  assert (Hsame : forall res,
             recommend_locations estimator sorter w = (res, w) ->
             recommend_locations estimator sorter
               (snd (recommend_locations estimator sorter w))
             = recommend_locations estimator sorter w).
  { intros res E. rewrite E. cbn [snd]. exact E. }
  destruct (gap_points (self w)) as [l|] eqn:El.
  2:{ apply (Hsame _ (recommend_nothing_stored estimator sorter w El)). }
  destruct (nth_error (heap w) l) as [gaps|] eqn:Eg.
  2:{ apply (Hsame (Raise (KeyError "no such table"))).
      unfold recommend_locations, mbind, get_self, deref.
      now rewrite El, Eg. }
  specialize (Hrect l gaps eq_refl Eg).
  destruct (Pandas.empty gaps) eqn:Ee.
  { apply (Hsame (Ok empty_recommendations)).
    unfold recommend_locations, mbind, get_self, deref.
    now rewrite El, Eg, Ee. }
  destruct (column_pair "latitude" "longitude" gaps) as [coords|e] eqn:Ec.
  2:{ apply (Hsame (Raise e)).
      unfold recommend_locations, mbind, get_self, deref.
      rewrite El, Eg, Ee. unfold lift. now rewrite Ec. }
  rewrite (recommend_unfold w l gaps coords El Eg Ee Ec). cbv zeta.
  set (k := Z.min (n_new_stations (self w)) (Z.of_nat (length coords))).
  destruct (k =? 0)%Z eqn:E0.
  { cbn [snd]. rewrite (recommend_unfold w l gaps coords El Eg Ee Ec).
    cbv zeta. fold k. now rewrite E0. }
  destruct (k <? 1)%Z eqn:E1.
  { cbn [snd].
    rewrite (recommend_unfold _ l gaps coords); try assumption.
    cbv zeta. cbn [self heap with_model n_new_stations]. fold k.
    rewrite E0, E1. reflexivity. }
  set (fit := estimator (Z.to_nat k) coords).
  destruct (set_column "cluster" (labels_column (fst fit)) gaps)
    as [labelled|e] eqn:Es.
  - cbn [snd].
    assert (Hl : (l < length (heap w))%nat).
    { apply nth_error_Some. congruence. }
    rewrite (recommend_unfold _ l labelled coords).
    + cbv zeta. cbn [self heap with_model n_new_stations]. fold k.
      rewrite E0, E1. fold fit.
      rewrite (set_column_twice _ _ _ _ Hrect Es).
      rewrite update_nth_twice. reflexivity.
    + exact El.
    + cbn [heap]. now apply update_nth_same.
    + now apply (empty_after_write _ _ _ _ Ee Es).
    + rewrite (column_pair_after_write _ _ _ Hrect
                 (column_pair_has_coordinates _ _ Ec) Es).
      exact Ec.
  - cbn [snd].
    rewrite (recommend_unfold _ l gaps coords); try assumption.
    cbv zeta. cbn [self heap with_model n_new_stations]. fold k.
    rewrite E0, E1. fold fit. rewrite Es. reflexivity.
Qed.

(** X14.  Requested counts below 1.  With a stored gap table that has rows
    and coordinates, [n_new_stations = 0] gives the empty frame and changes
    nothing, while a negative [n_new_stations] raises the estimator's
    [ValueError] after the count has already been written to
    [model.n_clusters]; no table is touched in either case. *)
Theorem recommend_locations_with_count_below_one
  (w : World) (l : loc) (gaps : DataFrame) :
  gap_points (self w) = Some l ->
  nth_error (heap w) l = Some gaps ->
  has_coordinates gaps ->
  rows gaps <> [] ->
  (n_new_stations (self w) = 0%Z ->
   recommend_locations estimator sorter w = (Ok empty_recommendations, w)) /\
  ((n_new_stations (self w) < 0)%Z ->
   exists msg w',
     recommend_locations estimator sorter w = (Raise (ValueError msg), w') /\
     heap w' = heap w /\
     n_clusters (model (self w')) = n_new_stations (self w) /\
     gap_points (self w') = gap_points (self w)).
Proof.
  intros El Eg Hc Hrows.
  assert (Ee : Pandas.empty gaps = false).
  { unfold Pandas.empty. destruct Hc as [Hlat _].
    apply has_column_In in Hlat.
    destruct (columns gaps); [contradiction|].
    destruct (rows gaps); [congruence|reflexivity]. }
  pose proof (column_pair_coords gaps Hc) as Ec.
  rewrite (recommend_unfold w l gaps _ El Eg Ee Ec). cbv zeta.
  assert (Hpos : (0 < Z.of_nat (length (coords_of gaps)))%Z).
  { unfold coords_of. rewrite length_map.
    destruct (rows gaps); [congruence|simpl; lia]. }
  split.
  - intro Hn. rewrite Hn.
    replace (Z.min 0 (Z.of_nat (length (coords_of gaps)))) with 0%Z by lia.
    reflexivity.
  - intro Hn.
    replace (Z.min (n_new_stations (self w))
               (Z.of_nat (length (coords_of gaps))))
      with (n_new_stations (self w)) by lia.
    replace (n_new_stations (self w) =? 0)%Z with false
      by (symmetry; apply Z.eqb_neq; lia).
    replace (n_new_stations (self w) <? 1)%Z with true
      by (symmetry; apply Z.ltb_lt; lia).
    eexists _, _. split; [reflexivity|]. repeat split.
Qed.

End WithEstimator.

Lemma recommend_locations_twice_witness :
  recommend_locations KMeans.lloyd stable_sort_desc
    (snd (recommend_locations KMeans.lloyd stable_sort_desc (after_A 1 5)))
  = recommend_locations KMeans.lloyd stable_sort_desc (after_A 1 5).
Proof.
  apply (recommend_locations_twice KMeans.lloyd stable_sort_desc (after_A 1 5)).
  intros l gaps Hl Hg. injection Hl as <-. injection Hg as <-.
  repeat constructor.
Defined.

Lemma recommend_locations_with_count_below_one_witness :
  (n_new_stations (self (after_A (-2) 5)) = 0%Z ->
   recommend_locations KMeans.lloyd stable_sort_desc (after_A (-2) 5)
   = (Ok empty_recommendations, after_A (-2) 5)) /\
  ((n_new_stations (self (after_A (-2) 5)) < 0)%Z ->
   exists msg w',
     recommend_locations KMeans.lloyd stable_sort_desc (after_A (-2) 5)
     = (Raise (ValueError msg), w') /\
     heap w' = heap (after_A (-2) 5) /\
     n_clusters (model (self w')) = n_new_stations (self (after_A (-2) 5)) /\
     gap_points (self w') = gap_points (self (after_A (-2) 5))).
Proof.
  apply (recommend_locations_with_count_below_one KMeans.lloyd stable_sort_desc
           (after_A (-2) 5) 2%nat gaps_A).
  - reflexivity.
  - reflexivity.
  - split; reflexivity.
  - discriminate.
Defined.

End RecommendExtraProps.

(** ** [run_kmeans]: too few features, too few stations, the reported score *)

Module ClusteringExtraProps.
Import PyFacts Pandas PandasFacts Clustering ClusteringProps.

(** The scan of [max] and the scan of [np.argmax] stop at the same
    element. *)
Lemma max_from_argmax_from (pre xs : list Q) (best : nat) (m : Q) :
  (best < length pre)%nat ->
  nth best (pre ++ xs) 0 = m ->
  max_from m xs = nth (argmax_from best m (length pre) xs) (pre ++ xs) 0.
Proof.
  revert pre best m. induction xs as [|x xs IH]; intros pre best m Hb Hm.
  - simpl. now rewrite Hm.
  - cbn [max_from argmax_from].
    assert (Hsplit : pre ++ x :: xs = (pre ++ [x]) ++ xs)
      by (now rewrite <- app_assoc).
    assert (Hx : nth (length pre) (pre ++ x :: xs) 0 = x)
      by (rewrite app_nth2, Nat.sub_diag by lia; reflexivity).
    assert (Hlen : length (pre ++ [x]) = S (length pre))
      by (rewrite length_app; simpl; lia).
    destruct (Qltb m x).
    + specialize (IH (pre ++ [x]) (length pre) x).
      rewrite Hlen, <- Hsplit in IH. apply IH; [lia|exact Hx].
    + specialize (IH (pre ++ [x]) best m).
      rewrite Hlen, <- Hsplit in IH. apply IH; [lia|exact Hm].
Qed.

Lemma max_is_at_argmax (xs : list Q) (i : nat) :
  argmax xs = Ok i -> Py.max xs = Ok (nth i xs 0).
Proof.
  destruct xs as [|x xs]; simpl; intro H; [discriminate|].
  injection H as <-. f_equal.
  apply (max_from_argmax_from [x] xs 0%nat x); [simpl; lia|reflexivity].
Qed.

(** X15.  Too little to cluster.  With the default features, a table that
    lacks the latitude or the longitude column makes [run_kmeans] return
    [None]; a table that has both but fewer than three rows makes it raise
    [ValueError], whatever [n_clusters] was requested: the candidate range
    is empty and no fit is ever attempted. *)
Theorem run_kmeans_needs_two_features_and_three_stations
  (fit_silhouette : list (list Q) -> nat -> result Q)
  (df : DataFrame) (n_clusters : nat) :
  ((has_column "latitude" df = false \/ has_column "longitude" df = false) ->
   run_kmeans fit_silhouette df n_clusters None = Ok None) /\
  (has_column "latitude" df = true -> has_column "longitude" df = true ->
   (len df < 3)%nat ->
   K_range (len df) = [] /\
   exists msg,
     run_kmeans fit_silhouette df n_clusters None = Raise (ValueError msg)).
Proof.
  split.
  - intro H. unfold run_kmeans. cbn [filter].
    destruct (has_column "latitude" df), (has_column "longitude" df);
      try reflexivity.
    destruct H; discriminate.
  - intros Hlat Hlon Hn.
    assert (HK : K_range (len df) = []).
    { unfold K_range.
      replace (Nat.min 12 (len df) - 2)%nat with 0%nat by lia. reflexivity. }
    split; [exact HK|].
    unfold run_kmeans. cbn [filter]. rewrite Hlat, Hlon.
    cbn [length Nat.ltb Nat.leb].
    assert (HX : length (restrict ["latitude"; "longitude"]%string df) = len df).
    { unfold restrict, len. apply length_map. }
    rewrite HX, HK. cbn [silhouettes bind argmax]. eauto.
Qed.

Definition two_stations : DataFrame :=
  {| columns := ["latitude"; "longitude"]%string;
     rows := [(0%Z, [28.70; 77.10]); (1%Z, [12.97; 77.59])] |}.

Lemma run_kmeans_needs_two_features_and_three_stations_witness :
  K_range (len two_stations) = [] /\
  exists msg,
    run_kmeans rising_score two_stations 6 None = Raise (ValueError msg).
Proof.
  apply (run_kmeans_needs_two_features_and_three_stations
           rising_score two_stations 6).
  - reflexivity.
  - reflexivity.
  - vm_compute. lia.
Defined.

(** X16.  The report is consistent.  When every candidate fit is scored,
    the [silhouette_score] that [run_kmeans] reports is the score of the
    [optimal_k] it reports (rounded to four places), and [elbow_data] pairs
    every candidate with its score. *)
Theorem run_kmeans_reports_the_score_of_the_selected_count
  (fit_silhouette : list (list Q) -> nat -> result Q)
  (df : DataFrame) (n_clusters : nat) (score : nat -> Q) :
  has_column "latitude" df = true ->
  has_column "longitude" df = true ->
  (3 <= len df)%nat ->
  (forall k, In k (K_range (len df)) ->
     fit_silhouette (restrict ["latitude"; "longitude"]%string df) k
     = Ok (score k)) ->
  exists report,
    run_kmeans fit_silhouette df n_clusters None = Ok (Some report) /\
    silhouette_score report = round4 (score (optimal_k report)) /\
    length (elbow_silhouette report) = length (elbow_k report) /\
    combine (elbow_k report) (elbow_silhouette report)
    = map (fun k => (k, score k)) (K_range (len df)).
Proof.
  intros Hlat Hlon Hn Hfit.
  unfold run_kmeans. cbn [filter]. rewrite Hlat, Hlon.
  cbn [length Nat.ltb Nat.leb].
  assert (HX : length (restrict ["latitude"; "longitude"]%string df) = len df).
  { unfold restrict, len. apply length_map. }
  rewrite HX.
  set (ks := K_range (len df)) in *.
  rewrite (silhouettes_ok _ _ ks score Hfit). cbn [bind].
  assert (Hks : ks <> []).
  { unfold ks, K_range. destruct (Nat.min 12 (len df) - 2)%nat eqn:E; [lia|].
    discriminate. }
  assert (Hsne : map score ks <> []).
  { destruct ks; [congruence|discriminate]. }
  destruct (argmax_spec (map score ks) Hsne) as (i & Harg & Hi & _ & _).
  rewrite Harg, (max_is_at_argmax _ _ Harg). cbn [bind].
  rewrite length_map in Hi.
  eexists. split; [reflexivity|].
  cbn [silhouette_score optimal_k elbow_k elbow_silhouette].
  split.
  - f_equal. rewrite (nth_indep _ 0 (score 0%nat)) by (now rewrite length_map).
    apply map_nth.
  - split; [apply length_map|].
    clear. induction ks as [|k ks IH]; simpl; [reflexivity|now rewrite IH].
Qed.

Lemma run_kmeans_reports_the_score_of_the_selected_count_witness :
  exists report,
    run_kmeans rising_score thirteen_stations 6 None = Ok (Some report) /\
    silhouette_score report
    = round4 (inject_Z (Z.of_nat (optimal_k report))) /\
    length (elbow_silhouette report) = length (elbow_k report) /\
    combine (elbow_k report) (elbow_silhouette report)
    = map (fun k => (k, inject_Z (Z.of_nat k)))
          (K_range (len thirteen_stations)).
Proof.
  apply (run_kmeans_reports_the_score_of_the_selected_count
           rising_score thirteen_stations 6
           (fun k => inject_Z (Z.of_nat k))).
  - reflexivity.
  - reflexivity.
  - vm_compute. lia.
  - intros k _. reflexivity.
Defined.

End ClusteringExtraProps.

(** ** [run_dbscan]: cluster and noise counts, when the score is computed *)

Module DbscanProps.
Import Py PyFacts Pandas PandasFacts Clustering Dbscan.

(** The labels of the points that belong to a cluster. *)
Definition clustered (ls : list Z) : list Z :=
  filter (fun l => negb (Z.eqb noise l)) ls.

Lemma in_clustered l ls : In l (clustered ls) <-> In l ls /\ l <> noise.
Proof.
  unfold clustered. rewrite filter_In. split; intros [H1 H2]; split; auto.
  - intro E. subst. now rewrite Z.eqb_refl in H2.
  - destruct (Z.eqb_spec noise l); [congruence|reflexivity].
Qed.

Lemma noise_present ls : existsb (Z.eqb noise) ls = true <-> In noise ls.
Proof.
  rewrite existsb_exists. split.
  - intros (x & Hin & E). apply Z.eqb_eq in E. now subst.
  - intro H. exists noise. split; [assumption|apply Z.eqb_refl].
Qed.

(** [len(set(labels)) - (1 if -1 in labels else 0)] counts the distinct
    labels other than the noise label. *)
Lemma distinct_clustered ls :
  (Z.of_nat (distinct ls) - (if existsb (Z.eqb noise) ls then 1 else 0))%Z
  = Z.of_nat (distinct (clustered ls)).
Proof.
  unfold distinct. induction ls as [|l ls IH]; [reflexivity|].
  cbn [nodup]. unfold clustered in *. cbn [filter existsb].
  destruct (Z.eqb_spec noise l) as [E|E]; cbn [negb orb].
  - subst l. destruct (in_dec Z.eq_dec noise ls) as [Hin|Hin].
    + apply noise_present in Hin. rewrite Hin in IH. exact IH.
    + assert (Hex : existsb (Z.eqb noise) ls = false).
      { destruct (existsb (Z.eqb noise) ls) eqn:Ex; [|reflexivity].
        apply noise_present in Ex. contradiction. }
      rewrite Hex in IH. cbn [length]. lia.
  - cbn [nodup].
    destruct (in_dec Z.eq_dec l ls) as [Hin|Hin];
      destruct (in_dec Z.eq_dec l (filter (fun l0 => negb (Z.eqb noise l0)) ls))
        as [Hin'|Hin'].
    + exact IH.
    + exfalso. apply Hin'. apply (in_clustered l ls). split; congruence.
    + exfalso. apply Hin. now apply (in_clustered l ls) in Hin'.
    + cbn [length]. lia.
Qed.

Lemma noise_and_clustered ls :
  (length (filter (Z.eqb noise) ls) + length (clustered ls) = length ls)%nat.
Proof.
  unfold clustered. induction ls as [|l ls IH]; [reflexivity|].
  cbn [filter]. destruct (Z.eqb noise l); cbn [negb length]; lia.
Qed.

Lemma distinct_zero ls : distinct ls = 0%nat <-> ls = [].
Proof.
  unfold distinct. split; [|intros ->; reflexivity].
  intro H. destruct ls as [|l ls]; [reflexivity|].
  exfalso. assert (Hin : In l (nodup Z.eq_dec (l :: ls)))
    by (apply nodup_In; now left).
  destruct (nodup Z.eq_dec (l :: ls)); [contradiction|discriminate].
Qed.


Section WithLibrary.

Variable fit_predict : list (list Q) -> Q -> Z -> result (list Z).
Variable silhouette : list (list Q) -> list Z -> result Q.

Let coordinates : list string := ["latitude"; "longitude"]%string.

Lemma run_dbscan_unfold df eps min_samples :
  has_column "latitude" df = true ->
  has_column "longitude" df = true ->
  run_dbscan fit_predict silhouette df eps min_samples
  = (ls <- fit_predict (restrict coordinates df) eps min_samples ;;
     sil <- (if (2 <=? Z.of_nat (distinct (clustered ls)))%Z
             then silhouette (restrict coordinates df) ls else Ok 0) ;;
     Ok (Some {| n_clusters := Z.of_nat (distinct (clustered ls));
                 n_noise := length (filter (Z.eqb noise) ls);
                 silhouette_score := round4 sil;
                 labels := ls |})).
Proof.
  intros Hlat Hlon. unfold run_dbscan, coordinates. cbn [filter].
  rewrite Hlat, Hlon. cbn [length Nat.ltb Nat.leb].
  destruct (fit_predict _ eps min_samples) as [ls|e]; [|reflexivity].
  cbn. rewrite distinct_clustered. reflexivity.
Qed.

Lemma run_dbscan_missing df eps min_samples :
  has_column "latitude" df = false \/ has_column "longitude" df = false ->
  run_dbscan fit_predict silhouette df eps min_samples = Ok None.
Proof.
  intro H. unfold run_dbscan. cbn [filter].
  destruct (has_column "latitude" df), (has_column "longitude" df);
    destruct H; try discriminate; reflexivity.
Qed.

End WithLibrary.

(** X17.  What [run_dbscan] counts.  Whenever it returns a report,
    [n_clusters] is the number of distinct labels other than the noise label
    -1 (so it is never negative), the noise points and the clustered points
    together are all the points, and no cluster is reported exactly when
    every point is noise. *)
Theorem run_dbscan_counts_clusters_and_noise
  fit_predict silhouette df eps min_samples r :
  run_dbscan fit_predict silhouette df eps min_samples = Ok (Some r) ->
  n_clusters r = Z.of_nat (distinct (clustered (labels r))) /\
  (n_noise r + length (clustered (labels r)) = length (labels r))%nat /\
  (n_clusters r = 0%Z <-> n_noise r = length (labels r)).
Proof.
  intro Hrun.
  destruct (has_column "latitude" df) eqn:Hlat;
    [|rewrite run_dbscan_missing in Hrun by (now left); discriminate].
  destruct (has_column "longitude" df) eqn:Hlon;
    [|rewrite run_dbscan_missing in Hrun by (now right); discriminate].
  rewrite (run_dbscan_unfold _ _ _ _ _ Hlat Hlon) in Hrun.
  destruct (fit_predict _ eps min_samples) as [ls|e]; [|discriminate].
  cbn [bind] in Hrun.
  destruct (if (2 <=? _)%Z then _ else _) as [sil|e]; [|discriminate].
  cbn [bind] in Hrun. injection Hrun as <-. cbn [n_clusters n_noise labels].
  pose proof (noise_and_clustered ls) as Hsum.
  split; [reflexivity|]. split; [exact Hsum|].
  split; intro H.
  - assert (H0 : distinct (clustered ls) = 0%nat) by lia.
    apply distinct_zero in H0. rewrite H0 in Hsum. simpl in Hsum. lia.
  - assert (H0 : clustered ls = []).
    { destruct (clustered ls); [reflexivity|simpl in Hsum; lia]. }
    rewrite H0. reflexivity.
Qed.


(** X18.  When [run_dbscan] consults the libraries.  Without both
    coordinate columns it returns [None] and fits nothing.  Otherwise, with
    fewer than two clusters found, the silhouette routine is not consulted
    and the reported score is 0, whatever that routine would do; with two or
    more clusters the report carries the routine's score rounded to four
    places, and an exception of the routine is the exception of
    [run_dbscan]. *)
Theorem run_dbscan_scores_only_two_or_more_clusters
  fit_predict silhouette df eps min_samples :
  (has_column "latitude" df = false \/ has_column "longitude" df = false ->
   run_dbscan fit_predict silhouette df eps min_samples = Ok None) /\
  (forall ls,
     has_column "latitude" df = true ->
     has_column "longitude" df = true ->
     fit_predict (restrict ["latitude"; "longitude"]%string df) eps min_samples
     = Ok ls ->
     ((distinct (clustered ls) < 2)%nat ->
      exists r,
        run_dbscan fit_predict silhouette df eps min_samples = Ok (Some r) /\
        labels r = ls /\ silhouette_score r == 0) /\
     ((2 <= distinct (clustered ls))%nat ->
      match silhouette (restrict ["latitude"; "longitude"]%string df) ls with
      | Ok s =>
          exists r,
            run_dbscan fit_predict silhouette df eps min_samples = Ok (Some r) /\
            labels r = ls /\ silhouette_score r = round4 s
      | Raise e =>
          run_dbscan fit_predict silhouette df eps min_samples = Raise e
      end)).
Proof.
  split; [apply run_dbscan_missing|].
  intros ls Hlat Hlon Hfit.
  rewrite (run_dbscan_unfold _ _ _ _ _ Hlat Hlon), Hfit. cbn [bind].
  split; intro Hn.
  - assert (E : (2 <=? Z.of_nat (distinct (clustered ls)))%Z = false)
      by (apply Z.leb_gt; lia).
    rewrite E. cbn [bind]. eexists. split; [reflexivity|].
    cbn [labels silhouette_score]. split; [reflexivity|].
    vm_compute. reflexivity.
  - assert (E : (2 <=? Z.of_nat (distinct (clustered ls)))%Z = true)
      by (apply Z.leb_le; lia).
    rewrite E.
    destruct (silhouette _ ls) as [s|e]; cbn [bind]; [|reflexivity].
    eexists. split; [reflexivity|]. split; reflexivity.
Qed.

(** Three stations of which DBSCAN groups two and leaves one as noise, and
    a scoring routine that refuses every input. *)
Definition three_stations : DataFrame :=
  {| columns := ["latitude"; "longitude"]%string;
     rows := [(0%Z, [28.70; 77.10]); (1%Z, [28.71; 77.11]);
              (2%Z, [12.97; 77.59])] |}.

Definition one_group_one_outlier : list (list Q) -> Q -> Z -> result (list Z) :=
  fun _ _ _ => Ok [0; 0; -1]%Z.

Definition refusing_score : list (list Q) -> list Z -> result Q :=
  fun _ _ => Raise (ValueError "Number of labels is invalid").

Lemma run_dbscan_counts_clusters_and_noise_witness :
  exists r,
    run_dbscan one_group_one_outlier refusing_score three_stations (1 # 2) 3
    = Ok (Some r) /\
    n_clusters r = Z.of_nat (distinct (clustered (labels r))) /\
    (n_noise r + length (clustered (labels r)) = length (labels r))%nat /\
    (n_clusters r = 0%Z <-> n_noise r = length (labels r)).
Proof.
  eexists. split; [reflexivity|].
  apply (run_dbscan_counts_clusters_and_noise
           one_group_one_outlier refusing_score three_stations (1 # 2) 3).
  reflexivity.
Defined.

Lemma run_dbscan_scores_only_two_or_more_clusters_witness :
  exists r,
    run_dbscan one_group_one_outlier refusing_score three_stations (1 # 2) 3
    = Ok (Some r) /\
    labels r = [0; 0; -1]%Z /\ silhouette_score r == 0.
Proof.
  apply (run_dbscan_scores_only_two_or_more_clusters
           one_group_one_outlier refusing_score three_stations (1 # 2) 3);
    try reflexivity.
  vm_compute. lia.
Defined.

End DbscanProps.

(** ** [TimeSeriesForecaster]: the moving-average fallback *)

Module ForecastProps.
Import Py PyFacts Pandas PandasFacts Forecasting.

Lemma iloc_last_last {A} (xs : list A) (d : A) :
  xs <> [] -> iloc_last xs = Returned (last xs d).
Proof.
  induction xs as [|x xs IH]; [congruence|]. intros _.
  destruct xs as [|y xs]; [reflexivity|].
  change (iloc_last (x :: y :: xs)) with (iloc_last (y :: xs)).
  change (last (x :: y :: xs) d) with (last (y :: xs) d).
  apply IH. discriminate.
Qed.

Lemma rolling_mean_length n ys : length (rolling_mean n ys) = length ys.
Proof. unfold rolling_mean. now rewrite length_map, length_seq. Qed.

Lemma window_length n i ys :
  (i < length ys)%nat -> length (window n i ys) = Nat.min n (i + 1).
Proof.
  intro H. unfold window. rewrite length_skipn, length_firstn. lia.
Qed.

Lemma in_firstn {A} n (l : list A) x : In x (firstn n l) -> In x l.
Proof.
  intro H. rewrite <- (firstn_skipn n l). apply in_or_app. now left.
Qed.

Lemma in_skipn {A} n (l : list A) x : In x (skipn n l) -> In x l.
Proof.
  intro H. rewrite <- (firstn_skipn n l). apply in_or_app. now right.
Qed.

Lemma window_incl n i ys y : In y (window n i ys) -> In y ys.
Proof.
  unfold window. intro H. apply in_skipn in H. now apply in_firstn in H.
Qed.

Lemma window_last n ys :
  ys <> [] -> window n (length ys - 1) ys = skipn (length ys - n) ys.
Proof.
  intro Hne. unfold window.
  assert (Hlen : (0 < length ys)%nat) by (destruct ys; [congruence|simpl; lia]).
  replace (length ys - 1 + 1)%nat with (length ys) by lia.
  now rewrite firstn_all.
Qed.

Lemma last_rolling_mean n ys d :
  ys <> [] ->
  last (rolling_mean n ys) d = mean (skipn (length ys - n) ys).
Proof.
  intro Hne. unfold rolling_mean.
  assert (Hlen : (0 < length ys)%nat) by (destruct ys; [congruence|simpl; lia]).
  rewrite <- (window_last n ys Hne).
  destruct (length ys) as [|k] eqn:E; [lia|].
  rewrite seq_S, map_app. cbn [map]. rewrite last_last.
  replace (S k - 1)%nat with (0 + k)%nat by lia. reflexivity.
Qed.

Lemma sum_ge_lower_bound (xs : list Q) (b : Q) :
  Forall (fun x => b <= x) xs ->
  inject_Z (Z.of_nat (length xs)) * b <= Py.sum xs.
Proof.
  induction 1 as [|x xs Hx Hall IH].
  - rewrite sum_nil. change (inject_Z (Z.of_nat (length []))) with 0. lra.
  - rewrite sum_cons. cbn [length]. rewrite Nat2Z.inj_succ.
    unfold Z.succ. rewrite inject_Z_plus.
    change (inject_Z 1) with 1.
    set (n := inject_Z (Z.of_nat (length xs))) in *.
    setoid_replace ((n + 1) * b) with (n * b + b) by ring. lra.
Qed.

Lemma mean_ge_bound (xs : list Q) (b : Q) :
  xs <> [] -> Forall (fun x => b <= x) xs -> b <= mean xs.
Proof.
  intros Hne Hall. unfold mean.
  assert (Hn : 0 < inject_Z (Z.of_nat (length xs))).
  { apply inject_nat_pos. destruct xs; [congruence|simpl; lia]. }
  apply Qle_shift_div_l; [exact Hn|].
  pose proof (sum_ge_lower_bound xs b Hall). lra.
Qed.

(** A moving average stays within the range of the observations. *)
Lemma rolling_mean_range n ys lo hi :
  (0 < n)%nat ->
  Forall (fun y => lo <= y <= hi) ys ->
  Forall (fun m => lo <= m <= hi) (rolling_mean n ys).
Proof.
  intros Hn Hall. unfold rolling_mean. apply Forall_forall.
  intros m Hin. apply in_map_iff in Hin as (i & <- & Hi).
  apply in_seq in Hi.
  assert (Hne : window n i ys <> []).
  { intro E. pose proof (window_length n i ys ltac:(lia)) as L.
    rewrite E in L. simpl in L. lia. }
  rewrite Forall_forall in Hall.
  split.
  - apply mean_ge_bound; [exact Hne|]. apply Forall_forall.
    intros y Hy. apply window_incl in Hy. now apply Hall.
  - apply mean_le_bound; [exact Hne|]. apply Forall_forall.
    intros y Hy. apply window_incl in Hy. now apply Hall.
Qed.

(** The frame the fallback returns, for a history that is not empty. *)
Definition fallback_rows (daily_demand : list (Z * Q)) (periods : Z)
  : list ForecastRow :=
  let smoothed := rolling_mean 7 (map snd daily_demand) in
  map (fun dy => history_row (fst dy) (snd dy))
      (combine (map fst daily_demand) smoothed)
  ++ map (future_row (last smoothed 0))
         (map (fun x => (last (map fst daily_demand) 0%Z + x)%Z)
              (day_offsets periods)).

Lemma fallback_eval daily_demand periods :
  daily_demand <> [] ->
  _fallback_forecast daily_demand periods
  = Returned (fallback_rows daily_demand periods).
Proof.
  intro Hne. unfold _fallback_forecast, fallback_rows.
  assert (H1 : rolling_mean 7 (map snd daily_demand) <> []).
  { intro E. apply (f_equal (@length Q)) in E.
    rewrite rolling_mean_length, length_map in E.
    destruct daily_demand; [congruence|discriminate]. }
  assert (H2 : map fst daily_demand <> []).
  { destruct daily_demand; [congruence|discriminate]. }
  rewrite (iloc_last_last _ 0 H1), (iloc_last_last _ 0%Z H2). reflexivity.
Qed.

Lemma day_offsets_length periods : length (day_offsets periods) = Z.to_nat periods.
Proof. unfold day_offsets. now rewrite length_map, length_seq. Qed.

Lemma day_offsets_nth periods i :
  (i < Z.to_nat periods)%nat ->
  nth_error (day_offsets periods) i = Some (Z.of_nat (S i)).
Proof.
  intro H. unfold day_offsets.
  rewrite nth_error_map, nth_error_seq.
  destruct (Nat.ltb_spec i (Z.to_nat periods)); [reflexivity|lia].
Qed.


Lemma map_fst_combine {A B} (l : list A) (l' : list B) :
  length l = length l' -> map fst (combine l l') = l.
Proof.
  revert l'. induction l as [|a l IH]; intros [|b l'] H; simpl in *;
    try discriminate; try reflexivity.
  f_equal. apply IH. lia.
Qed.

Lemma last_In {A} (l : list A) (d : A) : l <> [] -> In (last l d) l.
Proof.
  intro Hne. destruct (exists_last Hne) as (l' & a & ->).
  rewrite last_last. apply in_or_app. right. now left.
Qed.

Lemma history_length (daily_demand : list (Z * Q)) :
  length (map (fun dy : Z * Q => history_row (fst dy) (snd dy))
            (combine (map fst daily_demand)
                     (rolling_mean 7 (map snd daily_demand))))
  = length daily_demand.
Proof.
  rewrite length_map, length_combine, rolling_mean_length, !length_map. lia.
Qed.

(** X19.  The shape of the moving-average fallback.  For a daily history
    that is not empty, [_fallback_forecast] returns one row per day of the
    history, with the history's dates in order, followed by
    [max(0, periods)] rows; the i-th of these is dated i days after the last
    day of the history and forecasts the mean of the last seven observations
    (of all of them when the history is shorter). *)
Theorem fallback_forecast_extends_history
  (daily_demand : list (Z * Q)) (periods : Z) :
  daily_demand <> [] ->
  exists rows,
    _fallback_forecast daily_demand periods = Returned rows /\
    length rows = (length daily_demand + Z.to_nat periods)%nat /\
    map ds (firstn (length daily_demand) rows) = map fst daily_demand /\
    forall i, (i < Z.to_nat periods)%nat ->
      exists row,
        nth_error rows (length daily_demand + i) = Some row /\
        ds row = (last (map fst daily_demand) 0%Z + Z.of_nat (S i))%Z /\
        yhat row
        = mean (skipn (length daily_demand - 7) (map snd daily_demand)).
Proof.
  intro Hne. exists (fallback_rows daily_demand periods).
  split; [now apply fallback_eval|].
  unfold fallback_rows. cbv zeta.
  pose proof (history_length daily_demand) as Hhist.
  split; [|split].
  - rewrite length_app, Hhist, !length_map, day_offsets_length. reflexivity.
  - rewrite <- Hhist at 1. rewrite firstn_app, Nat.sub_diag, firstn_all.
    cbn [firstn]. rewrite app_nil_r, map_map. cbn [ds history_row].
    change (fun x : Z * Q => fst x) with (@fst Z Q).
    apply map_fst_combine. now rewrite rolling_mean_length, !length_map.
  - intros i Hi. rewrite nth_error_app2 by lia.
    rewrite Hhist. replace (length daily_demand + i - length daily_demand)%nat
      with i by lia.
    rewrite !nth_error_map, (day_offsets_nth _ _ Hi). cbn [option_map].
    eexists. split; [reflexivity|]. cbn [ds yhat future_row].
    split; [reflexivity|].
    rewrite last_rolling_mean, length_map; [reflexivity|].
    destruct daily_demand; [congruence|discriminate].
Qed.

(** X20.  The fallback never leaves the observed range.  If every daily
    total lies between [lo] and [hi], with [lo] non-negative, then every row
    the fallback returns, historic or future, has [yhat] between [lo] and
    [hi], and its band brackets it:
    [yhat_lower <= yhat <= yhat_upper]. *)
Theorem fallback_forecast_stays_within_observed_range
  (daily_demand : list (Z * Q)) (periods : Z) (lo hi : Q)
  (rows : list ForecastRow) :
  0 <= lo ->
  Forall (fun dy => lo <= snd dy <= hi) daily_demand ->
  _fallback_forecast daily_demand periods = Returned rows ->
  Forall (fun row =>
            lo <= yhat row <= hi /\
            yhat_lower row <= yhat row <= yhat_upper row) rows.
Proof.
  intros Hlo Hall Hrun.
  assert (Hne : daily_demand <> []).
  { intro E. subst. discriminate. }
  rewrite (fallback_eval _ _ Hne) in Hrun. injection Hrun as <-.
  assert (Hrange : Forall (fun m => lo <= m <= hi)
                     (rolling_mean 7 (map snd daily_demand))).
  { apply rolling_mean_range; [lia|]. apply Forall_forall.
    intros y Hy. apply in_map_iff in Hy as (dy & <- & Hin).
    rewrite Forall_forall in Hall. now apply Hall. }
  rewrite Forall_forall in Hrange.
  unfold fallback_rows. cbv zeta. apply Forall_app. split.
  - apply Forall_forall. intros row Hin.
    apply in_map_iff in Hin as ([d y] & <- & Hin).
    apply in_combine_r in Hin. specialize (Hrange _ Hin).
    cbn [fst snd yhat yhat_lower yhat_upper history_row]. lra.
  - apply Forall_forall. intros row Hin.
    apply in_map_iff in Hin as (d & <- & _).
    assert (Hlast : In (last (rolling_mean 7 (map snd daily_demand)) 0)
                       (rolling_mean 7 (map snd daily_demand))).
    { apply last_In. intro E. apply (f_equal (@length Q)) in E.
      rewrite rolling_mean_length, length_map in E.
      destruct daily_demand; [congruence|discriminate]. }
    specialize (Hrange _ Hlast).
    cbn [yhat yhat_lower yhat_upper future_row]. lra.
Qed.

Lemma daily_demand_of_nonempty sessions :
  sessions <> [] -> daily_demand_of sessions <> [].
Proof.
  intros Hne E. unfold daily_demand_of in E. apply map_eq_nil in E.
  revert E. apply groupby_sum_nonempty.
  destruct sessions; [congruence|discriminate].
Qed.

(** X21.  [fit_predict] fails only on an empty history.  With at least one
    session it returns a frame, whether Prophet is unavailable, succeeds or
    raises: a Prophet failure is never propagated.  With no session at all,
    and Prophet unavailable or failing, the call raises the [IndexError] of
    [.iloc[-1]] on the empty smoothed column. *)
Theorem fit_predict_fails_only_on_empty_history
  (prophet : list (Z * Q) -> Z -> result (list ForecastRow))
  (self : TimeSeriesForecaster) (sessions : list (Q * Q)) (periods : Z) :
  (sessions <> [] ->
   exists rows, fit_predict prophet self sessions periods = Returned rows) /\
  (sessions = [] ->
   prohet_available self = false \/ (exists e, prophet [] periods = Raise e) ->
   exists msg,
     fit_predict prophet self sessions periods = Raised (IndexError msg)).
Proof.
  split.
  - intro Hne. apply daily_demand_of_nonempty in Hne. unfold fit_predict.
    destruct (prohet_available self);
      [destruct (prophet _ periods) as [forecast|e]; [eauto|]|];
      rewrite (fallback_eval _ _ Hne); eauto.
  - intros -> H. unfold fit_predict.
    change (daily_demand_of []) with (@nil (Z * Q)).
    destruct H as [H|[e H]].
    + rewrite H. eexists. reflexivity.
    + rewrite H. destruct (prohet_available self); eexists; reflexivity.
Qed.

(** Sessions over two days, and a Prophet model that fails whenever it is
    fitted. *)
Definition two_days : list (Q * Q) := [(0.5, 10); (0.75, 5); (1.25, 20)].

Definition failing_prophet
  : list (Z * Q) -> Z -> result (list ForecastRow) :=
  fun _ _ => Raise (ValueError "Dataframe has less than 2 non-NaN rows").

Lemma fallback_forecast_extends_history_witness :
  exists rows,
    _fallback_forecast (daily_demand_of two_days) 2 = Returned rows /\
    length rows = 4%nat /\
    map ds (firstn 2 rows) = [0; 1]%Z /\
    forall i, (i < 2)%nat ->
      exists row,
        nth_error rows (2 + i) = Some row /\
        ds row = (1 + Z.of_nat (S i))%Z /\
        yhat row = mean [15; 20].
Proof.
  apply (fallback_forecast_extends_history (daily_demand_of two_days) 2).
  vm_compute. discriminate.
Defined.

Lemma fallback_forecast_stays_within_observed_range_witness :
  Forall (fun row =>
            15 <= yhat row <= 20 /\
            yhat_lower row <= yhat row <= yhat_upper row)
         (fallback_rows (daily_demand_of two_days) 2).
Proof.
  apply (fallback_forecast_stays_within_observed_range
           (daily_demand_of two_days) 2 15 20).
  - vm_compute. discriminate.
  - repeat constructor; vm_compute; discriminate.
  - reflexivity.
Defined.

Lemma fit_predict_fails_only_on_empty_history_witness :
  (exists rows,
     fit_predict failing_prophet (__init__ true true) two_days 2
     = Returned rows) /\
  (exists msg,
     fit_predict failing_prophet (__init__ true true) [] 2
     = Raised (IndexError msg)).
Proof.
  split.
  - apply (fit_predict_fails_only_on_empty_history
             failing_prophet (__init__ true true) two_days 2).
    discriminate.
  - apply (fit_predict_fails_only_on_empty_history
             failing_prophet (__init__ true true) [] 2).
    + reflexivity.
    + right. eexists. reflexivity.
Defined.

End ForecastProps.

(** ** [add_station_density]: the distance test and the density column *)

Module DensityFacts.
Import Geo GeoFacts Features.
Local Open Scope R_scope.

Lemma hav_a_refl p : hav_a p p = 0.
Proof.
  unfold hav_a. cbv zeta.
  replace ((fst p - fst p) / 2) with 0 by field.
  replace ((snd p - snd p) / 2) with 0 by field.
  rewrite sin_0. ring.
Qed.

Lemma sin_half_sq x : sin (x / 2) ^ 2 = (1 - cos x) / 2.
Proof.
  replace x with (2 * (x / 2)) at 2 by field.
  rewrite cos_2a_sin. field.
Qed.

(** [a] is half of one minus the inner product of two unit vectors. *)
Lemma hav_a_range p q : 0 <= hav_a p q <= 1.
Proof.
  unfold hav_a. cbv zeta. rewrite !sin_half_sq.
  pose proof (sin2_cos2 (fst p)) as H1.
  pose proof (sin2_cos2 (fst q)) as H2.
  pose proof (COS_bound (snd q - snd p)) as [Hc1 Hc2].
  unfold Rsqr in H1, H2.
  set (c := cos (snd q - snd p)) in *.
  rewrite cos_minus.
  set (s1 := sin (fst p)) in *. set (c1 := cos (fst p)) in *.
  set (s2 := sin (fst q)) in *. set (c2 := cos (fst q)) in *.
  clearbody c s1 c1 s2 c2.
  assert (Hc : 0 <= 1 - c * c) by nra.
  assert (Hc2sq : 0 <= c2 * c2 * (1 - c * c)) by
    (apply Rmult_le_pos; [nra|exact Hc]).
  pose proof (Rle_0_sqr (s1 - s2)) as Q1.
  pose proof (Rle_0_sqr (c1 - c2 * c)) as Q2.
  pose proof (Rle_0_sqr (s1 + s2)) as Q3.
  pose proof (Rle_0_sqr (c1 + c2 * c)) as Q4.
  unfold Rsqr in Q1, Q2, Q3, Q4.
  split; lra.
Qed.

Lemma arctan2_asin a :
  0 <= a <= 1 -> arctan2 (sqrt a) (sqrt (1 - a)) = asin (sqrt a).
Proof.
  intros [H0 H1]. unfold arctan2.
  destruct (Req_dec_T (sqrt (1 - a)) 0) as [E|E].
  - apply sqrt_eq_0 in E; [|lra].
    assert (a = 1) by lra. subst a. rewrite sqrt_1.
    destruct (Req_dec_T 1 0); [lra|]. now rewrite asin_1.
  - assert (Ha : a < 1).
    { destruct (Rle_lt_or_eq_dec _ _ H1) as [H|H]; [exact H|].
      exfalso. apply E. subst a. replace (1 - 1) with 0 by ring.
      apply sqrt_0. }
    rewrite asin_atan.
    + now rewrite Rsqr_sqrt.
    + split.
      * pose proof (sqrt_pos a). lra.
      * rewrite <- sqrt_1. apply sqrt_lt_1_alt. lra.
Qed.

Lemma hav_a_haversine p q :
  2 * asin (sqrt (hav_a p q)) = haversine p q.
Proof.
  unfold haversine, hav_a. cbv zeta.
  replace (/ 2 * (fst p - fst q)) with (- ((fst q - fst p) / 2)) by field.
  replace (/ 2 * (snd p - snd q)) with (- ((snd q - snd p) / 2)) by field.
  rewrite !sin_neg. do 3 f_equal. ring.
Qed.

(** The two distance tests agree: [add_station_density] counts a station
    exactly when the ball tree of [find_gaps] would. *)
Lemma nearby_within r p q : nearby r p q = within (r / earth_radius_km) p q.
Proof.
  unfold nearby, within. cbv zeta.
  destruct (hav_a_range p q) as [H0 H1].
  destruct (Rle_dec 0 (hav_a p q)); [|contradiction].
  destruct (Rle_dec (hav_a p q) 1); [|contradiction].
  rewrite arctan2_asin by lra. rewrite hav_a_haversine.
  unfold earth_radius_km.
  assert (Hr : r = 6371 * (r / 6371)) by field.
  destruct (Rle_dec (6371 * haversine p q) r) as [H|H];
    destruct (Rle_dec (haversine p q) (r / 6371)) as [H'|H'];
    try reflexivity; exfalso; lra.
Qed.

End DensityFacts.

Module DensityProps.
Import Py PyFacts Pandas PandasFacts ColumnFacts Geo GeoFacts GapFacts.
Import Features DensityFacts.

Lemma nearby_refl (r : R) (p : R * R) : (0 <= r)%R -> nearby r p p = true.
Proof. intro H. rewrite nearby_within. apply within_refl.
  unfold earth_radius_km. apply Rmult_le_pos; [exact H|].
  apply Rlt_le, Rinv_0_lt_compat. lra.
Qed.

Lemma nearby_negative (r : R) (p q : R * R) : (r < 0)%R -> nearby r p q = false.
Proof.
  intro H. rewrite nearby_within. apply within_negative.
  unfold earth_radius_km. apply Rmult_neg_pos; [exact H|].
  apply Rinv_0_lt_compat. lra.
Qed.

Lemma filter_length_pos {A} (f : A -> bool) (l : list A) (x : A) :
  In x l -> f x = true -> (1 <= length (filter f l))%nat.
Proof.
  intros Hin Hf. assert (H : In x (filter f l)) by (apply filter_In; auto).
  destruct (filter f l); [contradiction|simpl; lia].
Qed.

Lemma densities_length r pts : length (densities r pts) = length pts.
Proof. unfold densities. apply length_map. Qed.

Lemma densities_bounds (r : R) (pts : list (R * R)) :
  (0 <= r)%R ->
  Forall (fun z => (0 <= z <= Z.of_nat (length pts) - 1)%Z) (densities r pts).
Proof.
  intro Hr. unfold densities. apply Forall_forall. intros z Hz.
  apply in_map_iff in Hz as (p & <- & Hin).
  pose proof (filter_length_pos (nearby r p) pts p Hin (nearby_refl r p Hr)).
  pose proof (filter_length (nearby r p) pts). lia.
Qed.

Lemma densities_negative (r : R) (pts : list (R * R)) :
  (r < 0)%R -> densities r pts = repeat (-1)%Z (length pts).
Proof.
  intro Hr. unfold densities.
  assert (Hnone : forall p l, filter (nearby r p) l = []).
  { intros p l. induction l as [|q l IH]; simpl; [reflexivity|].
    now rewrite nearby_negative. }
  assert (H : forall l ps,
             map (fun p => (Z.of_nat (length (filter (nearby r p) l)) - 1)%Z) ps
             = repeat (-1)%Z (length ps)).
  { intros l ps. induction ps as [|p ps IH]; simpl; [reflexivity|].
    rewrite Hnone. simpl. f_equal. exact IH. }
  apply H.
Qed.

Lemma add_station_density_eval df radius_km :
  has_coordinates df ->
  add_station_density df radius_km
  = set_column "station_density_5km"
      (map inject_Z
           (densities (Q2R radius_km) (map to_radians (coords_of df)))) df.
Proof.
  intros Hc. pose proof Hc as [Hlat Hlon]. unfold add_station_density.
  rewrite Hlat, Hlon. cbn [negb orb].
  now rewrite (column_pair_coords df Hc).
Qed.

Lemma density_values_length df radius_km :
  length (map inject_Z
            (densities (Q2R radius_km) (map to_radians (coords_of df))))
  = length (rows df).
Proof.
  rewrite length_map, densities_length, length_map. unfold coords_of.
  apply length_map.
Qed.


(** X22.  [add_station_density] on a table with both coordinate columns
    and a non-negative radius: the call succeeds, the column
    [station_density_5km] holds one integer per row, each between 0 and
    N - 1 for a table of N rows (a station is never counted as its own
    neighbour), and every other column reads as before. *)
Theorem add_station_density_counts_other_stations
  (df : DataFrame) (radius_km : Q) :
  has_coordinates df -> rectangular df -> 0 <= radius_km ->
  exists df' vs,
    add_station_density df radius_km = Ok df' /\
    column "station_density_5km" df' = Ok vs /\
    length vs = len df /\
    Forall (fun v => exists z : Z,
              v = inject_Z z /\ (0 <= z <= Z.of_nat (len df) - 1)%Z) vs /\
    forall other,
      other <> "station_density_5km"%string ->
      has_column other df = true ->
      column other df' = column other df.
Proof.
  intros Hc Hrect Hr.
  rewrite (add_station_density_eval df radius_km Hc).
  pose proof (density_values_length df radius_km) as Hlen.
  set (values := map inject_Z _) in *.
  destruct (set_column "station_density_5km" values df) as [df'|e] eqn:Hset;
    [|rewrite (set_column_ok _ _ _ Hlen) in Hset; discriminate].
  exists df', values. split; [reflexivity|].
  split; [exact (column_after_write _ _ _ _ Hrect Hlen Hset)|].
  split; [exact Hlen|]. split.
  - subst values. apply Forall_forall. intros v Hv.
    apply in_map_iff in Hv as (z & <- & Hz). exists z. split; [reflexivity|].
    assert (H0 : (0 <= Q2R radius_km)%R).
    { replace 0%R with (Q2R 0) by (unfold Q2R; simpl; lra).
      now apply Qreals.Qle_Rle. }
    pose proof (densities_bounds _ (map to_radians (coords_of df)) H0) as Hb.
    rewrite Forall_forall in Hb. specialize (Hb z Hz).
    unfold coords_of in Hb. rewrite !length_map in Hb. exact Hb.
  - intros other Hne Hhas.
    exact (column_other_after_write _ _ _ _ _ Hrect Hne Hhas Hlen Hset).
Qed.

(** X23.  Degenerate inputs of [add_station_density].  A table without
    [latitude] or without [longitude] is returned as it is, with no density
    column added.  A negative radius is not rejected: every station gets the
    density -1, since not even the station itself is in range. *)
Theorem add_station_density_degenerate_inputs
  (df : DataFrame) (radius_km : Q) :
  (has_column "latitude" df = false \/ has_column "longitude" df = false ->
   add_station_density df radius_km = Ok df) /\
  (has_coordinates df -> rectangular df -> radius_km < 0 ->
   exists df',
     add_station_density df radius_km = Ok df' /\
     column "station_density_5km" df'
     = Ok (repeat (inject_Z (-1)) (len df))).
Proof.
  split.
  - intro H. unfold add_station_density.
    destruct (has_column "latitude" df), (has_column "longitude" df);
      destruct H; try discriminate; reflexivity.
  - intros Hc Hrect Hr.
    rewrite (add_station_density_eval df radius_km Hc).
    pose proof (density_values_length df radius_km) as Hlen.
    assert (Hneg : (Q2R radius_km < 0)%R).
    { replace 0%R with (Q2R 0) by (unfold Q2R; simpl; lra).
      now apply Qreals.Qlt_Rlt. }
    rewrite (densities_negative _ _ Hneg) in *.
    rewrite map_repeat in *. unfold coords_of in *.
    rewrite !length_map in *. fold (len df) in *.
    set (values := repeat (inject_Z (-1)) (len df)) in *.
    destruct (set_column "station_density_5km" values df) as [df'|e] eqn:Hset;
      [|rewrite (set_column_ok _ _ _ Hlen) in Hset; discriminate].
    exists df'. split; [reflexivity|].
    exact (column_after_write _ _ _ _ Hrect Hlen Hset).
Qed.

(** X24.  The two proximity tests of the repository agree.  The density
    that [add_station_density] gives a station is the number of stations
    that the ball-tree query of [find_gaps] counts within the same radius of
    that station's position, minus one: the arctangent form of the distance
    used here and the arcsine form of the haversine metric select the same
    stations. *)
Theorem station_density_matches_gap_coverage
  (df : DataFrame) (radius_km : Q) :
  has_coordinates df -> rectangular df ->
  exists df',
    add_station_density df radius_km = Ok df' /\
    column "station_density_5km" df'
    = Ok (map (fun p => inject_Z (Z.of_nat (station_count radius_km df p) - 1))
              (coords_of df)).
Proof.
  intros Hc Hrect.
  rewrite (add_station_density_eval df radius_km Hc).
  pose proof (density_values_length df radius_km) as Hlen.
  assert (E : map inject_Z
                (densities (Q2R radius_km) (map to_radians (coords_of df)))
              = map (fun p => inject_Z
                                (Z.of_nat (station_count radius_km df p) - 1))
                    (coords_of df)).
  { unfold densities. rewrite !map_map. apply map_ext. intro p.
    unfold station_count, radius_rad. do 4 f_equal.
    apply filter_ext. intro q. apply nearby_within. }
  rewrite E in *.
  set (values := map _ (coords_of df)) in *.
  destruct (set_column "station_density_5km" values df) as [df'|e] eqn:Hset;
    [|rewrite (set_column_ok _ _ _ Hlen) in Hset; discriminate].
  exists df'. split; [reflexivity|].
  exact (column_after_write _ _ _ _ Hrect Hlen Hset).
Qed.

End DensityProps.

Module DensityExamples.
Import Py Pandas PandasFacts ColumnFacts GapFacts Scenario Features DensityProps.

Lemma demand_A_rectangular : rectangular demand_A.
Proof. repeat constructor. Qed.

Lemma add_station_density_counts_other_stations_witness :
  exists df' vs,
    add_station_density demand_A 5 = Ok df' /\
    column "station_density_5km" df' = Ok vs /\
    length vs = 2%nat /\
    Forall (fun v => exists z : Z,
              v = inject_Z z /\ (0 <= z <= 1)%Z) vs /\
    forall other,
      other <> "station_density_5km"%string ->
      has_column other demand_A = true ->
      column other df' = column other demand_A.
Proof.
  apply (add_station_density_counts_other_stations demand_A 5).
  - exact demand_A_coordinates.
  - exact demand_A_rectangular.
  - vm_compute. discriminate.
Defined.

Lemma add_station_density_degenerate_inputs_witness :
  exists df',
    add_station_density demand_A (-5) = Ok df' /\
    column "station_density_5km" df' = Ok [inject_Z (-1); inject_Z (-1)].
Proof.
  apply (add_station_density_degenerate_inputs demand_A (-5)).
  - exact demand_A_coordinates.
  - exact demand_A_rectangular.
  - reflexivity.
Defined.

Lemma station_density_matches_gap_coverage_witness :
  exists df',
    add_station_density demand_A 5 = Ok df' /\
    column "station_density_5km" df'
    = Ok (map (fun p => inject_Z (Z.of_nat (station_count 5 demand_A p) - 1))
              (coords_of demand_A)).
Proof.
  apply (station_density_matches_gap_coverage demand_A 5).
  - exact demand_A_coordinates.
  - exact demand_A_rectangular.
Defined.

End DensityExamples.

(** ** [add_usage_features]: peak flags and time slots *)

Module UsageProps.
Import Py PyFacts Features.

Lemma Qle_bool_false (x y : Q) : Qle_bool x y = false <-> y < x.
Proof.
  split; intro H.
  - apply Qnot_le_lt. intro L. apply Qle_bool_iff in L. congruence.
  - destruct (Qle_bool x y) eqn:E; [|reflexivity].
    apply Qle_bool_iff in E. lra.
Qed.

(** Case analysis on a comparison, keeping only the cases that the
    comparisons made so far allow. *)
Ltac qcase b :=
  let E := fresh "E" in
  destruct b eqn:E;
  [ first [apply Qle_bool_iff in E | apply Qltb_lt in E]
  | first [apply Qle_bool_false in E | apply Qltb_ge in E] ];
  try (exfalso; lra).

(** X25.  The hour features of [add_usage_features], value by value.  An
    hour is flagged off-peak exactly when its slot is Night.  A peak hour
    (18 to 21) is in the Evening slot except hour 18 itself, which is in the
    Afternoon slot.  A value has no slot exactly when it is below 0 or above
    24.  No hour is flagged both peak and off-peak. *)
Theorem hour_flags_and_time_slots (h : Q) :
  (is_off_peak h = 1%Z <-> time_slot h = Some Night) /\
  (is_peak_hour h = 1%Z ->
   (h == 18 /\ time_slot h = Some Afternoon) \/
   (18 < h /\ time_slot h = Some Evening)) /\
  (time_slot h = None <-> h < 0 \/ 24 < h) /\
  (is_peak_hour h = 1%Z -> is_off_peak h = 0%Z).
Proof.
  unfold is_off_peak, is_peak_hour, time_slot.
  qcase (Qle_bool 0 h); qcase (Qle_bool h 6); qcase (Qltb 6 h);
  qcase (Qle_bool h 12); qcase (Qltb 12 h); qcase (Qle_bool h 18);
  qcase (Qltb 18 h); qcase (Qle_bool h 24); qcase (Qle_bool 18 h);
  qcase (Qle_bool h 21); cbn [andb];
  repeat split; try intro; try discriminate; try reflexivity;
  try (exfalso; lra);
  try (left; split; [lra|reflexivity]);
  try (right; split; [lra|reflexivity]);
  try (left; lra); try (right; lra);
  try (match goal with H : _ \/ _ |- _ => destruct H; exfalso; lra end).
Qed.

End UsageProps.
